(** * Pickaxe: a shallow embedding of the expansion / dedup / filter / prune
    engine of [minedatabase/pickaxe.py].

    The chemistry toolkit (RDKit) and the helper module [utils] are taken as
    an interface ([Toolkit]); everything else is a translation of the Python
    source.  Python dictionaries keep insertion order, and several loops of
    the source iterate over them, so dictionaries are association lists with
    Python's update discipline ([PyDict]); Python sets of strings are
    [gset string]; Python exceptions are the [Raise] results of [result]. *)

From Stdlib Require Import ZArith QArith String Ascii List.
From stdpp Require Import gmap strings list.

Set Warnings "-clear-no-such-hyp".

Local Open Scope string_scope.
Local Open Scope Z_scope.

(** ** Python exceptions *)

Inductive pyexn : Type :=
| KeyError
| ValueError
| TypeError
| IndexError
| NameError
| ToolkitError.

Inductive result (A : Type) : Type :=
| Ok (a : A)
| Raise (e : pyexn).
Arguments Ok {A} a.
Arguments Raise {A} e.

Definition rbind {A B : Type} (m : result A) (k : A -> result B) : result B :=
  match m with
  | Ok a => k a
  | Raise e => Raise e
  end.

Notation "x ←! m ; k" := (rbind m (fun x => k))
  (at level 20, m at level 100, k at level 200, only parsing).
Notation "' p ←! m ; k" := (rbind m (fun p => k))
  (at level 20, p pattern, m at level 100, k at level 200, only parsing).

Definition is_Ok {A : Type} (m : result A) : Prop :=
  match m with Ok _ => True | Raise _ => False end.

(** The value of a call that did not raise. *)
Definition returned {A : Type} (m : result A) : option A :=
  match m with Ok a => Some a | Raise _ => None end.

(** [d[k]] on a dictionary-like lookup: a missing key raises [KeyError]. *)
Definition getitem {A : Type} (o : option A) : result A :=
  match o with
  | Some a => Ok a
  | None => Raise KeyError
  end.

(** A loop over a list whose body may raise. *)
Fixpoint for_each {A S : Type} (body : S -> A -> result S) (l : list A) (s : S)
  : result S :=
  match l with
  | [] => Ok s
  | x :: l' => s' ←! body s x; for_each body l' s'
  end.

(** ** Insertion-ordered dictionaries with string keys *)

Module PyDict.

Definition dict (V : Type) : Type := list (string * V).

Section Ops.
Context {V : Type}.

Fixpoint dget (d : dict V) (k : string) : option V :=
    match d with
    | [] => None
    | (k', v) :: d' => if decide (k = k') then Some v else dget d' k
    end.

  (** [k in d] *)
Definition dmem (k : string) (d : dict V) : bool := bool_decide (is_Some (dget d k)).

  (** [d[k] = v]: an existing key keeps its position, a new one goes last. *)
Fixpoint dset (d : dict V) (k : string) (v : V) : dict V :=
    match d with
    | [] => [(k, v)]
    | (k', v') :: d' =>
        if decide (k = k') then (k, v) :: d' else (k', v') :: dset d' k v
    end.

  (** [del d[k]] for a key that is present. *)
Fixpoint ddel (d : dict V) (k : string) : dict V :=
    match d with
    | [] => []
    | (k', v') :: d' => if decide (k = k') then d' else (k', v') :: ddel d' k
    end.

  (** [d.update(e)] *)
Definition dupdate (d e : dict V) : dict V :=
    fold_left (fun acc kv => dset acc kv.1 kv.2) e d.

Definition dkeys (d : dict V) : list string := d.*1.
Definition dvalues (d : dict V) : list V := d.*2.

  (** The key set, for statements that do not depend on order. *)
Definition dom_set (d : dict V) : gset string := list_to_set (dkeys d).
End Ops.

End PyDict.
Export PyDict.

(** ** Strings *)

(** [s.startswith(p)] *)
Definition startswith (s p : string) : bool := String.prefix p s.

(** [needle in hay] on strings *)
Fixpoint str_in (needle hay : string) : bool :=
  String.prefix needle hay ||
  match hay with
  | EmptyString => false
  | String _ hay' => str_in needle hay'
  end.

(** [s[1:]] *)
Definition tail1 (s : string) : string :=
  match s with
  | EmptyString => EmptyString
  | String _ s' => s'
  end.

(** [s.split(sep)] for a one-character separator: never returns the empty
    list, and [''.split(';')] is [['']]. *)
Fixpoint split_on (sep : ascii) (s : string) : list string :=
  match s with
  | EmptyString => [EmptyString]
  | String c s' =>
      if decide (c = sep) then EmptyString :: split_on sep s'
      else match split_on sep s' with
           | [] => [String c EmptyString]
           | w :: ws => String c w :: ws
           end
  end.

Definition lower_ascii (c : ascii) : ascii :=
  let n := nat_of_ascii c in
  if ((65 <=? n)%nat && (n <=? 90)%nat)%bool then ascii_of_nat (n + 32) else c.

(** [s.lower()] on ASCII text *)
Fixpoint lower (s : string) : string :=
  match s with
  | EmptyString => EmptyString
  | String c s' => String (lower_ascii c) (lower s')
  end.

(** ** [collections.Counter] *)

Definition Counter : Type := dict Z.

(** [c[e]]: a missing element counts 0 *)
Definition cget (c : Counter) (e : string) : Z := default 0 (dget c e).

(** [c[e] += n] *)
Definition cadd (c : Counter) (e : string) (n : Z) : Counter :=
  dset c e (cget c e + n).

(** [c - d]: keeps only the positive differences (and the negated negative
    counts of [d] on elements [c] lacks), as [Counter.__sub__] does. *)
Definition counter_sub (c d : Counter) : Counter :=
  let res :=
    fold_left (fun res (ec : string * Z) =>
                 let newcount := ec.2 - cget d ec.1 in
                 if 0 <? newcount then dset res ec.1 newcount else res)
              c [] in
  fold_left (fun res (ec : string * Z) =>
               if negb (dmem ec.1 c) && (ec.2 <? 0)
               then dset res ec.1 (0 - ec.2) else res)
            d res.

(** Truth value of a container: non-empty. *)
Definition nonempty {A : Type} (l : list A) : bool :=
  match l with [] => false | _ => true end.

(** ** The data model *)

(** A compound dictionary.  ['Reactant_in'] and ['Product_of'] are deleted
    from the dictionaries of compounds whose id starts with ['X']. *)
Record compound : Type := {
  ID : option string;
  _id : string;
  SMILES : string;
  Type_ : string;
  Generation : Z;
  atom_count : Counter;
  Reactant_in : option (list string);
  Product_of : option (list string);
  Expand : bool;
  Formula : string;
  last_tani : Q
}.

(** A reaction dictionary; ['Partial Operators'] is an optional key. *)
Record reaction : Type := {
  rxn_id : string;
  Reactants : list (Z * string);
  Products : list (Z * string);
  Operators : gset string;
  Partial_Operators : option (gset string);
  SMILES_rxn : string
}.

(** A row of the rule file after [_load_operators] has processed it. *)
Record rule_dict : Type := {
  Name : string;
  rule_Reactants : list string;
  rule_Products : list string;
  SMARTS : string;
  rule_id : string;
  Reactions_predicted : Z
}.

(** ** The toolkit interface: RDKit and [minedatabase.utils] *)

Class Toolkit : Type := {
  Mol : Type;
  ChemicalReaction : Type;
  Fingerprint : Type;
  (* RDKit; [None] stands for a failed parse (a falsy molecule) *)
  MolFromSmiles : string -> option Mol;
  MolFromInchi : string -> option Mol;
  MolToSmiles : Mol -> string;
  (* RDKit calls that may raise: [None] is the exception *)
  RemoveHs : Mol -> option Mol;
  SanitizeMol : Mol -> option Mol;
  Kekulize : Mol -> option Mol;
  AddHs : Mol -> Mol;
  GetMolFrags : Mol -> list (list Z);
  CalcMolFormula : Mol -> string;
  ReactionFromSmarts : string -> option ChemicalReaction;
  GetNumReactantTemplates : ChemicalReaction -> Z;
  GetNumProductTemplates : ChemicalReaction -> Z;
  RunReactants : ChemicalReaction -> list Mol -> option (list (list Mol));
  FingerprintSimilarity : Fingerprint -> Fingerprint -> Q;
  (* minedatabase.utils *)
  compound_hash : string -> string -> option string;
  rxn2hash : list (Z * compound) -> list (Z * compound) -> string * string;
  (* [_getatom_count(mol, radical_check=False)] *)
  _getatom_count : Mol -> bool -> Counter;
  neutralise_charges : Mol -> Mol;
  get_fp : string -> option Fingerprint;
  (* the inner [get_mcs_overlap] of [_compare_target_mcs]: RDKit's FindMCS
     and a float division; [None] when it raises *)
  get_mcs_overlap : Mol -> Mol -> option Q
}.

(** Field updates ([cpd_dict['Expand'] = False] and the like). *)
Definition set_Expand (c : compound) (b : bool) : compound :=
  {| ID := ID c; _id := _id c; SMILES := SMILES c; Type_ := Type_ c;
     Generation := Generation c; atom_count := atom_count c;
     Reactant_in := Reactant_in c; Product_of := Product_of c;
     Expand := b; Formula := Formula c; last_tani := last_tani c |}.

Definition set_last_tani (c : compound) (t : Q) : compound :=
  {| ID := ID c; _id := _id c; SMILES := SMILES c; Type_ := Type_ c;
     Generation := Generation c; atom_count := atom_count c;
     Reactant_in := Reactant_in c; Product_of := Product_of c;
     Expand := Expand c; Formula := Formula c; last_tani := t |}.

Definition set_Product_of (c : compound) (l : option (list string)) : compound :=
  {| ID := ID c; _id := _id c; SMILES := SMILES c; Type_ := Type_ c;
     Generation := Generation c; atom_count := atom_count c;
     Reactant_in := Reactant_in c; Product_of := l;
     Expand := Expand c; Formula := Formula c; last_tani := last_tani c |}.

Definition set_Reactant_in (c : compound) (l : option (list string)) : compound :=
  {| ID := ID c; _id := _id c; SMILES := SMILES c; Type_ := Type_ c;
     Generation := Generation c; atom_count := atom_count c;
     Reactant_in := l; Product_of := Product_of c;
     Expand := Expand c; Formula := Formula c; last_tani := last_tani c |}.

Definition set_Operators (r : reaction) (ops : gset string) : reaction :=
  {| rxn_id := rxn_id r; Reactants := Reactants r; Products := Products r;
     Operators := ops; Partial_Operators := Partial_Operators r;
     SMILES_rxn := SMILES_rxn r |}.

Definition set_Partial_Operators (r : reaction) (ops : option (gset string)) : reaction :=
  {| rxn_id := rxn_id r; Reactants := Reactants r; Products := Products r;
     Operators := Operators r; Partial_Operators := ops;
     SMILES_rxn := SMILES_rxn r |}.

(** ** The rule application engine *)

Section RuleApplication.
Context `{TK : Toolkit}.

  (** What [_run_reaction] closes over. *)
Variable coreactant_mols : dict (Mol * string).
Variable coreactant_dict : dict compound.
Variable generation : Z.
Variable explicit_h : bool.

  (** [_gen_compound], the inner function of [_run_reaction].  It reads the
      worker's current [local_cpds]; it has no access to the
      [fragmented_mols] attribute of the [Pickaxe] object. *)
Definition _run_reaction_gen_compound (local_cpds : dict compound) (mol : Mol)
    : option compound :=
    match (mol' ← (if explicit_h then RemoveHs mol else Some mol); SanitizeMol mol') with
    | None => None                               (* except: return None *)
    | Some mol =>
        let mol_smiles := MolToSmiles mol in
        if str_in "." mol_smiles then None
        else
          match compound_hash mol_smiles "Predicted" with
          | Some cpd_id =>
              if bool_decide (cpd_id = "") then None
              else
                match dget local_cpds cpd_id with
                | None =>
                    Some {| ID := None; _id := cpd_id; SMILES := mol_smiles;
                            Type_ := "Predicted"; Generation := generation;
                            atom_count := _getatom_count mol false;
                            Reactant_in := Some []; Product_of := Some [];
                            Expand := true; Formula := CalcMolFormula mol;
                            last_tani := 0%Q |}
                | Some cpd_dict => Some cpd_dict
                end
          | None => None
          end
    end.

  (** The first loop of [_make_half_rxn]: [cpds] and [cpd_counter].  The
      result [Ok None] is the early [return None, None]. *)
Fixpoint _make_half_rxn_collect (local_cpds : dict compound)
      (pairs : list (Mol * string)) (cpds : dict compound) (cpd_counter : Counter)
    : result (option (dict compound * Counter)) :=
    match pairs with
    | [] => Ok (Some (cpds, cpd_counter))
    | (mol, rule) :: pairs' =>
        if bool_decide (rule = "Any") then
          match _run_reaction_gen_compound local_cpds mol with
          | None => Ok None
          | Some cpd_dict =>
              _make_half_rxn_collect local_cpds pairs'
                (dset cpds (_id cpd_dict) cpd_dict) (cadd cpd_counter (_id cpd_dict) 1)
          end
        else
          co ←! getitem (dget coreactant_mols rule);
          cpd_dict ←! getitem (dget coreactant_dict co.2);
          _make_half_rxn_collect local_cpds pairs'
            (dset cpds (_id cpd_dict) cpd_dict) (cadd cpd_counter (_id cpd_dict) 1)
    end.

  (** The second loop of [_make_half_rxn]: atom counts weighted by the
      number of times each compound occurs. *)
Definition half_rxn_atom_counts (cpds : dict compound) (cpd_counter : Counter) : Counter :=
    fold_left (fun atom_counts (kc : string * compound) =>
                 fold_left (fun atom_counts (a : string * Z) =>
                              cadd atom_counts a.1 (a.2 * cget cpd_counter kc.1))
                           (atom_count kc.2) atom_counts)
              cpds [].

Definition _make_half_rxn (local_cpds : dict compound) (mol_list : list Mol)
      (rules : list string) : result (option (list (Z * compound) * Counter)) :=
    r ←! _make_half_rxn_collect local_cpds (zip mol_list rules) [] [];
    match r with
    | None => Ok None
    | Some (cpds, cpd_counter) =>
        half ←! for_each (fun acc (ic : string * Z) =>
                            c ←! getitem (dget cpds ic.1); Ok (acc ++ [(ic.2, c)])%list)
                         cpd_counter [];
        Ok (Some (half, half_rxn_atom_counts cpds cpd_counter))
    end.

  (** [reactant_atoms - product_atoms or product_atoms - reactant_atoms] is
      falsy exactly when the reaction is atom balanced. *)
Definition is_atom_balanced (reactant_atoms product_atoms : Counter) : bool :=
    negb (nonempty (counter_sub reactant_atoms product_atoms)
          || nonempty (counter_sub product_atoms reactant_atoms)).

Definition half_ids (half : list (Z * compound)) : list (Z * string) :=
    (fun sc : Z * compound => (sc.1, _id sc.2)) <$> half.

  (** What the body of the loop over [product_sets] does once [products]
      is known to be balanced. *)
Definition admit_reaction (rule_name : string)
      (reactants products : list (Z * compound))
      (local_cpds : dict compound) (local_rxns : dict reaction)
    : dict compound * dict reaction :=
    let local_cpds :=
      fold_left (fun cpds (sc : Z * compound) =>
                   if startswith (_id sc.2) "C"
                   then dupdate cpds [(_id sc.2, sc.2)] else cpds)
                products local_cpds in
    let '(rhash, rxn_text) := rxn2hash reactants products in
    match dget local_rxns rhash with
    | None =>
        (local_cpds,
         dset local_rxns rhash
           {| rxn_id := rhash; Reactants := half_ids reactants;
              Products := half_ids products; Operators := {[ rule_name ]};
              Partial_Operators := None; SMILES_rxn := rxn_text |})
    | Some r =>
        (local_cpds, dset local_rxns rhash (set_Operators r (Operators r ∪ {[ rule_name ]})))
    end.

  (** One iteration of [for product_mols in product_sets].  Only
      [ValueError] (and [MemoryError]) are caught by the loop. *)
Definition run_candidate (rule_name : string) (rule : ChemicalReaction * rule_dict)
      (reactants : list (Z * compound)) (reactant_atoms : Counter)
      (st : dict compound * dict reaction) (product_mols : list Mol)
    : result (dict compound * dict reaction) :=
    match _make_half_rxn st.1 product_mols (rule_Products rule.2) with
    | Raise ValueError => Ok st
    | Raise e => Raise e
    | Ok None => Ok st
    | Ok (Some (products, product_atoms)) =>
        if nonempty products then
          if is_atom_balanced reactant_atoms product_atoms
          then Ok (admit_reaction rule_name reactants products st.1 st.2)
          else Ok st
        else Ok st
    end.

Definition _run_reaction (rule_name : string) (rule : ChemicalReaction * rule_dict)
      (reactant_mols : list Mol) (local_cpds : dict compound) (local_rxns : dict reaction)
    : result (dict compound * dict reaction) :=
    match RunReactants rule.1 reactant_mols with
    | None => Ok (local_cpds, local_rxns)             (* except: reactants = None *)
    | Some product_sets =>
        match _make_half_rxn local_cpds reactant_mols (rule_Reactants rule.2) with
        | Ok (Some (reactants, reactant_atoms)) =>
            if nonempty reactants then
              for_each (run_candidate rule_name rule reactants reactant_atoms)
                       product_sets (local_cpds, local_rxns)
            else Ok (local_cpds, local_rxns)
        | _ => Ok (local_cpds, local_rxns)
        end
    end.
End RuleApplication.

(** ** Full operators: one compound, then all compounds *)

Section Expansion.
Context `{TK : Toolkit}.

  (** [_transform_ind_compound_with_full].  [RemoveHs] raises on the [None]
      of a failed parse, so the [if not mol: return None] that follows it is
      never taken.  [_run_reaction] returns the very dictionaries it was
      given, so [local_cpds.update(generated_cpds)] changes nothing, and the
      value of [local_rxns[rxn]['Operators'].union(...)] is dropped. *)
Definition _transform_ind_compound_with_full
      (coreactant_mols : dict (Mol * string)) (coreactant_dict : dict compound)
      (operators : dict (ChemicalReaction * rule_dict)) (generation : Z)
      (explicit_h : bool) (compound_smiles : string)
    : result (dict compound * dict reaction) :=
    mol ←! match MolFromSmiles compound_smiles with
           | None => Raise ToolkitError
           | Some m => match RemoveHs m with
                       | None => Raise ToolkitError
                       | Some m => Ok m
                       end
           end;
    mol ←! match Kekulize mol with None => Raise ToolkitError | Some m => Ok m end;
    let mol := if explicit_h then AddHs mol else mol in
    for_each
      (fun (st : dict compound * dict reaction)
           (op : string * (ChemicalReaction * rule_dict)) =>
         reactant_mols ←!
           for_each (fun acc (x : string) =>
                       if bool_decide (x = "Any") then Ok (acc ++ [mol])%list
                       else co ←! getitem (dget coreactant_mols x);
                            Ok (acc ++ [co.1])%list)
                    (rule_Reactants op.2.2) [];
         _run_reaction coreactant_mols coreactant_dict generation explicit_h
                       op.1 op.2 reactant_mols st.1 st.2)
      operators ([], []).

  (** The body shared by the two loops of
      [_transform_all_compounds_with_full]: both branches run the same
      statements on each per-compound result.  [set.union] returns a new
      set, and its value is dropped here. *)
Definition collect_result (master : dict compound * dict reaction)
      (res : dict compound * dict reaction) : dict compound * dict reaction :=
    let new_cpds_master := dupdate master.1 res.1 in
    let new_rxns_master :=
      fold_left (fun m (kv : string * reaction) =>
                   match dget m kv.1 with
                   | Some r => let _ := Operators r ∪ Operators kv.2 in m
                   | None => dupdate m [(kv.1, kv.2)]
                   end)
                res.2 master.2 in
    (new_cpds_master, new_rxns_master).

  (** One iteration of either loop: [res] is what
      [transform_compound_partial] returned (or raised) for one compound. *)
Definition collect_body (transform_compound_partial :
                             string -> result (dict compound * dict reaction))
      (master : dict compound * dict reaction) (smiles : string)
    : result (dict compound * dict reaction) :=
    res ←! transform_compound_partial smiles; Ok (collect_result master res).

  (** [_transform_all_compounds_with_full].  With more than one worker the
      results come from [imap_unordered], that is in the order [arrival] in
      which the workers complete: some permutation of [compound_smiles]. *)
Definition _transform_all_compounds_with_full
      (compound_smiles : list string) (coreactants : dict (Mol * string))
      (coreactant_dict : dict compound)
      (operators : dict (ChemicalReaction * rule_dict)) (generation : Z)
      (explicit_h : bool) (num_workers : Z) (arrival : list string)
    : result (dict compound * dict reaction) :=
    let transform_compound_partial :=
      _transform_ind_compound_with_full coreactants coreactant_dict operators
                                        generation explicit_h in
    for_each (collect_body transform_compound_partial)
             (if 1 <? num_workers then arrival else compound_smiles)
             ([], []).

  (** The appends to ['Product_of'] and ['Reactant_in'] of
      [update_cpds_rxns]. *)
Definition add_product_of (rxn_id : string) (compounds : dict compound)
      (product_id : string) : result (dict compound) :=
    c ←! getitem (dget compounds product_id);
    l ←! getitem (Product_of c);
    if bool_decide (rxn_id ∈ l) then Ok compounds
    else Ok (dset compounds product_id (set_Product_of c (Some (l ++ [rxn_id])%list))).

Definition add_reactant_in (rxn_id : string) (compounds : dict compound)
      (reactant_id : string) : result (dict compound) :=
    c ←! getitem (dget compounds reactant_id);
    l ←! getitem (Reactant_in c);
    if bool_decide (rxn_id ∈ l) then Ok compounds
    else Ok (dset compounds reactant_id (set_Reactant_in c (Some (l ++ [rxn_id])%list))).

  (** [[cpd_id for _, cpd_id in half if cpd_id.startswith('C')]] *)
Definition C_ids (half : list (Z * string)) : list string :=
    filter (fun cpd_id => startswith cpd_id "C" = true) (half.*2).

  (** [update_cpds_rxns], the inner function of [_transform_helper], on
      [self.compounds] and [self.reactions]. *)
Definition update_cpds (compounds new_cpds : dict compound) : dict compound :=
    fold_left (fun cs (kv : string * compound) =>
                 if dmem kv.1 cs then cs else dset cs kv.1 kv.2)
              new_cpds compounds.

Definition update_rxn (st : dict compound * dict reaction) (kv : string * reaction)
    : result (dict compound * dict reaction) :=
    let '(rxn_id, rxn_dict) := kv in
    reactions ←!
      match dget st.2 rxn_id with
      | None => Ok (dset st.2 rxn_id rxn_dict)
      | Some r =>
          let r := set_Operators r (Operators r ∪ Operators rxn_dict) in
          match Partial_Operators r with
          | Some po =>
              po' ←! getitem (Partial_Operators rxn_dict);
              Ok (dset st.2 rxn_id (set_Partial_Operators r (Some (po ∪ po'))))
          | None => Ok (dset st.2 rxn_id r)
          end
      end;
    compounds ←! for_each (add_product_of rxn_id) (C_ids (Products rxn_dict)) st.1;
    compounds ←! for_each (add_reactant_in rxn_id) (C_ids (Reactants rxn_dict)) compounds;
    Ok (compounds, reactions).

Definition update_cpds_rxns (compounds : dict compound) (reactions : dict reaction)
      (new_cpds : dict compound) (new_rxns : dict reaction)
    : result (dict compound * dict reaction) :=
    for_each update_rxn new_rxns (update_cpds compounds new_cpds, reactions).
End Expansion.

(** ** The iteration order of Python sets

    Python does not specify the order in which a [set] is iterated.  The
    loops of the source that run over sets are modelled for an arbitrary
    enumeration of the elements. *)

Class PyRuntime : Type := {
  set_order : gset string -> list string;
  set_order_perm : forall s, set_order s ≡ₚ elements s
}.

(** ** The [Pickaxe] object *)

(** [crit_tani] and [crit_mcs] are a number or a list with one number per
    generation. *)
Inductive crit : Type :=
| CritScalar (q : Q)
| CritList (l : list Q).

(** [l[i]], negative indices counting from the end. *)
Definition py_index {A : Type} (l : list A) (i : Z) : result A :=
  let n := Z.of_nat (length l) in
  if (0 <=? i) && (i <? n) then
    match nth_error l (Z.to_nat i) with Some a => Ok a | None => Raise IndexError end
  else if (- n <=? i) && (i <? 0) then
    match nth_error l (Z.to_nat (n + i)) with Some a => Ok a | None => Raise IndexError end
  else Raise IndexError.

Section PickaxeObject.
Context `{TK : Toolkit}.

Record Pickaxe : Type := {
    operators : dict (ChemicalReaction * rule_dict);
    coreactants : dict (Mol * string);
    _raw_compounds : dict string;
    compounds : dict compound;
    reactions : dict reaction;
    generation : Z;
    explicit_h : bool;
    kekulize : bool;
    neutralise : bool;
    errors : bool;
    fragmented_mols : bool;
    radical_check : bool;
    structure_field : option string;
    target_smiles : list string;
    retro : bool;
    tani_filter : bool;
    target_fps : list Fingerprint;
    crit_tani : crit;
    increasing_tani : bool;
    mcs_filter : bool;
    crit_mcs : crit
  }.

Definition with_registry (self : Pickaxe) (raw : dict string)
      (cpds : dict compound) (rxns : dict reaction) : Pickaxe :=
    {| operators := operators self; coreactants := coreactants self;
       _raw_compounds := raw; compounds := cpds; reactions := rxns;
       generation := generation self; explicit_h := explicit_h self;
       kekulize := kekulize self; neutralise := neutralise self;
       errors := errors self; fragmented_mols := fragmented_mols self;
       radical_check := radical_check self;
       structure_field := structure_field self;
       target_smiles := target_smiles self; retro := retro self;
       tani_filter := tani_filter self; target_fps := target_fps self;
       crit_tani := crit_tani self; increasing_tani := increasing_tani self;
       mcs_filter := mcs_filter self; crit_mcs := crit_mcs self |}.

Definition with_compounds (self : Pickaxe) (cpds : dict compound) : Pickaxe :=
    with_registry self (_raw_compounds self) cpds (reactions self).

Definition with_network (self : Pickaxe) (cpds : dict compound)
      (rxns : dict reaction) : Pickaxe :=
    with_registry self (_raw_compounds self) cpds rxns.

Definition with_operators (self : Pickaxe)
      (ops : dict (ChemicalReaction * rule_dict)) : Pickaxe :=
    {| operators := ops; coreactants := coreactants self;
       _raw_compounds := _raw_compounds self; compounds := compounds self;
       reactions := reactions self;
       generation := generation self; explicit_h := explicit_h self;
       kekulize := kekulize self; neutralise := neutralise self;
       errors := errors self; fragmented_mols := fragmented_mols self;
       radical_check := radical_check self;
       structure_field := structure_field self;
       target_smiles := target_smiles self; retro := retro self;
       tani_filter := tani_filter self; target_fps := target_fps self;
       crit_tani := crit_tani self; increasing_tani := increasing_tani self;
       mcs_filter := mcs_filter self; crit_mcs := crit_mcs self |}.

Definition with_structure_field (self : Pickaxe) (f : option string) : Pickaxe :=
    {| operators := operators self; coreactants := coreactants self;
       _raw_compounds := _raw_compounds self; compounds := compounds self;
       reactions := reactions self;
       generation := generation self; explicit_h := explicit_h self;
       kekulize := kekulize self; neutralise := neutralise self;
       errors := errors self; fragmented_mols := fragmented_mols self;
       radical_check := radical_check self;
       structure_field := f;
       target_smiles := target_smiles self; retro := retro self;
       tani_filter := tani_filter self; target_fps := target_fps self;
       crit_tani := crit_tani self; increasing_tani := increasing_tani self;
       mcs_filter := mcs_filter self; crit_mcs := crit_mcs self |}.

  (** [self.fragmented_mols = b], the way a caller sets the policy. *)
Definition with_fragmented_mols (self : Pickaxe) (b : bool) : Pickaxe :=
    {| operators := operators self; coreactants := coreactants self;
       _raw_compounds := _raw_compounds self; compounds := compounds self;
       reactions := reactions self;
       generation := generation self; explicit_h := explicit_h self;
       kekulize := kekulize self; neutralise := neutralise self;
       errors := errors self; fragmented_mols := b;
       radical_check := radical_check self;
       structure_field := structure_field self;
       target_smiles := target_smiles self; retro := retro self;
       tani_filter := tani_filter self; target_fps := target_fps self;
       crit_tani := crit_tani self; increasing_tani := increasing_tani self;
       mcs_filter := mcs_filter self; crit_mcs := crit_mcs self |}.

  (** *** Loading *)

  (** A row of the rule file as [csv.DictReader] yields it, for a file that
      opens, whose header has the columns ['Name'], ['Reactants'],
      ['Products'] and ['SMARTS'], and whose lines are complete.  A file
      that cannot be opened, a header without one of the columns and a line
      cut short are not represented. *)
Record rule_row : Type := {
    row_Name : string;
    row_Reactants : string;
    row_Products : string;
    row_SMARTS : string
  }.

  (** The body of the loop of [_load_operators] for one such row.  Whatever
      is raised inside is re-raised as [ValueError] by the handler, whose
      message reads [rule['Name']], which such a row has; the arity test
      only counts and prints, and falls through to the statements after
      it. *)
Definition load_rule (st : Pickaxe * Z) (rule : rule_row) : result (Pickaxe * Z) :=
    let '(self, skipped) := st in
    let Reactants := split_on ";" (row_Reactants rule) in
    let Products := split_on ";" (row_Products rule) in
    let all_rules := (Reactants ++ Products)%list in
    if forallb (fun coreactant_name =>
                  dmem coreactant_name (coreactants self)
                  || bool_decide (coreactant_name = "Any")) all_rules
    then
      match ReactionFromSmarts (row_SMARTS rule) with
      | None => Raise ValueError
      | Some rxn =>
          let rule' := {| Name := row_Name rule; rule_Reactants := Reactants;
                          rule_Products := Products; SMARTS := row_SMARTS rule;
                          rule_id := row_Name rule; Reactions_predicted := 0 |} in
          let skipped :=
            if negb (GetNumReactantTemplates rxn =? Z.of_nat (length Reactants))
               || negb (GetNumProductTemplates rxn =? Z.of_nat (length Products))
            then skipped + 1 else skipped in
          if dmem (row_Name rule) (operators self) then Raise ValueError
          else Ok (with_operators self (dset (operators self) (row_Name rule) (rxn, rule')),
                   skipped)
      end
    else Raise ValueError.

  (** [_load_operators] on the rows of the rule file; also returns the
      local counter [skipped] that the final warning prints. *)
Definition _load_operators (self : Pickaxe) (rows : list rule_row)
    : result (Pickaxe * Z) :=
    for_each load_rule rows (self, 0).

  (** Truth value of an optional string: [None] and [''] are falsy. *)
Definition str_truthy (o : option string) : bool :=
    match o with
    | Some s => negb (bool_decide (s = ""))
    | None => false
    end.

  (** [_mol_from_dict]; [Ok (_, None)] is the bare [return]. *)
Definition _mol_from_dict (self : Pickaxe) (input_dict : dict string)
      (structure_field_arg : option string) : result (Pickaxe * option Mol) :=
    '(self, structure_field_arg) ←!
      (if str_truthy structure_field_arg then Ok (self, structure_field_arg)
       else
         let self :=
           if str_truthy (structure_field self) then self
           else match find (fun field => bool_decide (lower field ∈ ["smiles"; "inchi"; "structure"]))
                           (dkeys input_dict) with
                | Some field => with_structure_field self (Some field)
                | None => self
                end in
         if str_truthy (structure_field self) then Ok (self, structure_field self)
         else Raise ValueError);
    match structure_field_arg ≫= dget input_dict with
    | None => Ok (self, None)
    | Some text =>
        let mol := if str_in "InChI=" text then MolFromInchi text else MolFromSmiles text in
        match mol with
        | None => Ok (self, None)
        | Some mol =>
            if negb (fragmented_mols self) && (1 <? Z.of_nat (length (GetMolFrags mol)))
            then Ok (self, None)
            else Ok (self, Some (if neutralise self then neutralise_charges mol else mol))
        end
    end.

  (** [Pickaxe._gen_compound]; [Ok (_, None)] is the bare [return]. *)
Definition _gen_compound (self : Pickaxe) (cpd_name smi cpd_type : string)
      (mol : option Mol) : result (Pickaxe * option (string * compound)) :=
    match compound_hash smi cpd_type with
    | Some cpd_id =>
        if bool_decide (cpd_id = "") then Ok (self, None)
        else
          let self := with_registry self (dset (_raw_compounds self) smi cpd_id)
                                    (compounds self) (reactions self) in
          match dget (compounds self) cpd_id with
          | None =>
              mol ←! match (match mol with Some m => Some m | None => MolFromSmiles smi end) with
                     | Some m => Ok m
                     | None => Raise ToolkitError
                     end;
              let expand := bool_decide (cpd_type ∈ ["Predicted"; "Starting Compound"]) in
              let has_refs := negb (startswith cpd_id "X") in
              Ok (self,
                  Some (cpd_id,
                        {| ID := Some cpd_name; _id := cpd_id; SMILES := smi;
                           Type_ := cpd_type; Generation := generation self;
                           atom_count := _getatom_count mol (radical_check self);
                           Reactant_in := if has_refs then Some [] else None;
                           Product_of := if has_refs then Some [] else None;
                           Expand := expand; Formula := CalcMolFormula mol;
                           last_tani := 0%Q |}))
          | Some cpd_dict => Ok (self, Some (cpd_id, cpd_dict))
          end
    | None => Ok (self, None)
    end.

  (** [_insert_compound], without the drawing of images. *)
Definition _insert_compound (self : Pickaxe) (cpd_dict : compound) : Pickaxe :=
    with_compounds self (dset (compounds self) (_id cpd_dict) cpd_dict).

  (** [_add_compound]; the second component is the returned id. *)
Definition _add_compound (self : Pickaxe) (cpd_name smi cpd_type : string)
      (mol : option Mol) : result (Pickaxe * option string) :=
    match compound_hash smi cpd_type with
    | Some cpd_id =>
        if bool_decide (cpd_id = "") then Ok (self, None)
        else
          let self := with_registry self (dset (_raw_compounds self) smi cpd_id)
                                    (compounds self) (reactions self) in
          if dmem cpd_id (compounds self) then Ok (self, Some cpd_id)
          else
            '(self, r) ←! _gen_compound self cpd_name smi cpd_type mol;
            match r with
            | Some (_, cpd_dict) => Ok (_insert_compound self cpd_dict, Some cpd_id)
            | None => Raise TypeError          (* unpacking [None] *)
            end
    | None => Ok (self, None)
    end.
End PickaxeObject.

(** [l.remove(x)]: drops the first occurrence. *)
Fixpoint remove_first (x : string) (l : list string) : list string :=
  match l with
  | [] => []
  | y :: l' => if decide (x = y) then l' else y :: remove_first x l'
  end.

(** [del d[k]]: a missing key raises. *)
Definition ddel_checked {V : Type} (d : dict V) (k : string) : result (dict V) :=
  if dmem k d then Ok (ddel d k) else Raise KeyError.

Section Scheduler.
Context `{TK : Toolkit} `{RT : PyRuntime}.

  (** [_transform_helper] for an object on which no partial operators were
      loaded ([self.partial_operators] is empty, so the second phase is
      skipped).  [arrival] is the completion order of the workers. *)
Definition _transform_helper (self : Pickaxe) (compound_smiles : list string)
      (num_workers : Z) (arrival : list string) : result Pickaxe :=
    coreactant_dict ←!
      for_each (fun acc (co : string * (Mol * string)) =>
                  c ←! getitem (dget (compounds self) co.2.2);
                  Ok (dset acc co.2.2 c))
               (coreactants self) [];
    '(new_cpds, new_rxns) ←!
      _transform_all_compounds_with_full compound_smiles (coreactants self)
        coreactant_dict (operators self) (generation self) (explicit_h self)
        num_workers arrival;
    '(cpds, rxns) ←! update_cpds_rxns (compounds self) (reactions self) new_cpds new_rxns;
    Ok (with_network self cpds rxns).

  (** *** The filter engine *)

  (** [_compare_target_fps]: the similarity to the first target, in list
      order, that reaches [crit_tani]; [-1] when there is none or the
      fingerprint cannot be computed. *)
Definition _compare_target_fps (target_fps : list Fingerprint) (crit_tani : Q)
      (compound_info : string * string) : string * Q :=
    match get_fp compound_info.2 with
    | None => (compound_info.1, (-1)%Q)
    | Some fp1 =>
        match find (fun fp2 => Qle_bool crit_tani (FingerprintSimilarity fp1 fp2))
                   target_fps with
        | Some fp2 => (compound_info.1, FingerprintSimilarity fp1 fp2)
        | None => (compound_info.1, (-1)%Q)
        end
    end.

Fixpoint compare_mcs_loop (crit_mcs : Q) (retro : bool) (mol : option Mol)
      (target_smiles : list string) : Q :=
    match target_smiles with
    | [] => (-1)%Q
    | t_smi :: rest =>
        match (m ← mol; t_mol ← MolFromSmiles t_smi;
               if retro then get_mcs_overlap t_mol m else get_mcs_overlap m t_mol) with
        | None => (-1)%Q                                   (* except: pass *)
        | Some mcs_overlap =>
            if Qle_bool crit_mcs mcs_overlap then mcs_overlap
            else compare_mcs_loop crit_mcs retro mol rest
        end
    end.

Definition _compare_target_mcs (target_smiles : list string) (crit_mcs : Q)
      (retro : bool) (compound_info : string * string) : string * Q :=
    (compound_info.1,
     compare_mcs_loop crit_mcs retro (MolFromSmiles compound_info.2) target_smiles).

  (** The two helpers map the comparison over the compounds; with several
      workers the results come in completion order. *)
Definition _filter_by_tani_helper (compounds_info : list (string * string))
      (target_fps : list Fingerprint) (crit_tani : Q) (num_workers : Z) (retro : bool)
      (arrival : list (string * string)) : list (string * Q) :=
    _compare_target_fps target_fps crit_tani
      <$> (if 1 <? num_workers then arrival else compounds_info).

Definition _filter_by_mcs_helper (compounds_info : list (string * string))
      (target_smiles : list string) (crit_mcs : Q) (num_workers : Z) (retro : bool)
      (arrival : list (string * string)) : list (string * Q) :=
    _compare_target_mcs target_smiles crit_mcs retro
      <$> (if 1 <? num_workers then arrival else compounds_info).

  (** The body of [for c_id, current_val in cpds_to_ignore]. *)
Definition apply_filter_result (measure : string) (increasing_tani : bool)
      (compounds : dict compound) (res : string * Q) : result (dict compound) :=
    let '(c_id, current_val) := res in
    c ←! getitem (dget compounds c_id);
    if Qeq_bool current_val (-1) then Ok (dset compounds c_id (set_Expand c false))
    else if bool_decide (measure = "tani") && increasing_tani then
      if Qle_bool (last_tani c) current_val
      then Ok (dset compounds c_id (set_last_tani c current_val))
      else Ok (dset compounds c_id (set_Expand c false))
    else Ok compounds.

  (** [should_delete_reaction] *)
Definition should_delete_reaction (reactions : dict reaction)
      (cpds_to_remove : list string) (rxn_id : string) : result bool :=
    r ←! getitem (dget reactions rxn_id);
    Ok (forallb (fun c_id => negb (startswith c_id "C"
                                   && negb (bool_decide (c_id ∈ cpds_to_remove))))
                (Products r).*2).

Definition strip_product_of (rxn_id : string) (compounds : dict compound)
      (c_id : string) : result (dict compound) :=
    if startswith c_id "C" then
      c ←! getitem (dget compounds c_id);
      l ←! getitem (Product_of c);
      if bool_decide (rxn_id ∈ l)
      then Ok (dset compounds c_id (set_Product_of c (Some (remove_first rxn_id l))))
      else Ok compounds
    else Ok compounds.

Definition strip_reactant_in (rxn_id : string) (compounds : dict compound)
      (c_id : string) : result (dict compound) :=
    if startswith c_id "C" then
      c ←! getitem (dget compounds c_id);
      l ←! getitem (Reactant_in c);
      if bool_decide (rxn_id ∈ l)
      then Ok (dset compounds c_id (set_Reactant_in c (Some (remove_first rxn_id l))))
      else Ok compounds
    else Ok compounds.

  (** The products of a reaction that is kept are taken off the removal
      list. *)
Definition unqueue_products (products : list (Z * string))
      (cpds_to_remove : list string) : list string :=
    fold_left (fun rem c_id =>
                 if bool_decide (c_id ∈ rem) then remove_first c_id rem else rem)
              (products.*2) cpds_to_remove.

  (** The body of [for rxn_id in rxns_to_check]. *)
Definition check_reaction
      (st : dict compound * dict reaction * list string) (rxn_id : string)
    : result (dict compound * dict reaction * list string) :=
    let '(compounds, reactions, cpds_to_remove) := st in
    delete ←! should_delete_reaction reactions cpds_to_remove rxn_id;
    r ←! getitem (dget reactions rxn_id);
    if (delete : bool) then
      compounds ←! for_each (strip_product_of rxn_id) ((Products r).*2) compounds;
      compounds ←! for_each (strip_reactant_in rxn_id) ((Reactants r).*2) compounds;
      reactions ←! ddel_checked reactions rxn_id;
      Ok (compounds, reactions, cpds_to_remove)
    else
      Ok (compounds, reactions, unqueue_products (Products r) cpds_to_remove).

  (** The loop that fills [cpds_to_remove] and [rxns_to_check].  The
      elements of [compounds_to_check] are the dictionaries stored in
      [self.compounds], named here by their keys. *)
Definition queue_compound (compounds : dict compound)
      (st : list string * gset string) (key : string)
    : result (list string * gset string) :=
    cpd_dict ←! getitem (dget compounds key);
    let cpd_id := _id cpd_dict in
    if negb (Expand cpd_dict) && startswith cpd_id "C" then
      c ←! getitem (dget compounds cpd_id);
      po ←! getitem (Product_of c);
      ri ←! getitem (Reactant_in c);
      Ok ((st.1 ++ [cpd_id])%list, st.2 ∪ list_to_set (po ++ ri)%list)
    else Ok st.

  (** The removal pass of [_filter_by]: everything after the loop over
      [cpds_to_ignore]. *)
Definition _filter_by_removal (compounds : dict compound) (reactions : dict reaction)
      (compounds_to_check : list string)
    : result (dict compound * dict reaction) :=
    '(cpds_to_remove, rxns_to_check) ←!
      for_each (queue_compound compounds) compounds_to_check ([], ∅);
    '(compounds, reactions, cpds_to_remove) ←!
      for_each check_reaction (set_order rxns_to_check)
               (compounds, reactions, cpds_to_remove);
    compounds ←! for_each ddel_checked cpds_to_remove compounds;
    Ok (compounds, reactions).

Definition crit_at (c : crit) (generation : Z) : result Q :=
    match c with
    | CritScalar q => Ok q
    | CritList l => py_index l generation
    end.

  (** [_filter_by].  [arrival] is the completion order of the comparisons
      when there are several workers. *)
Definition _filter_by (self : Pickaxe) (measure : string) (num_workers : Z)
      (arrival : list (string * string)) : result Pickaxe :=
    let checked :=
      filter (fun kc : string * compound =>
                Generation kc.2 = generation self
                ∧ Type_ kc.2 ∉ ["Coreactant"; "Target Compound"])
             (compounds self) in
    let compounds_to_check := checked.*1 in
    let cpd_info := (fun kc : string * compound => (_id kc.2, SMILES kc.2)) <$> checked in
    cpds_to_ignore ←!
      (if bool_decide (measure = "tani") then
         crit_val ←! crit_at (crit_tani self) (generation self);
         Ok (_filter_by_tani_helper cpd_info (target_fps self) crit_val num_workers
                                    (retro self) arrival)
       else if bool_decide (measure = "mcs") then
         crit_val ←! crit_at (crit_mcs self) (generation self);
         Ok (_filter_by_mcs_helper cpd_info (target_smiles self) crit_val num_workers
                                   (retro self) arrival)
       else Raise NameError);
    compounds ←! for_each (apply_filter_result measure (increasing_tani self))
                          cpds_to_ignore (compounds self);
    '(compounds, reactions) ←!
      _filter_by_removal compounds (reactions self) compounds_to_check;
    Ok (with_network self compounds reactions).
End Scheduler.

(** ** The network reducer *)

Section Reducer.
Context `{TK : Toolkit} `{RT : PyRuntime}.

  (** *** [remove_cofactor_redundancy] *)

  (** The half reaction with every compound of [cofactors_as_cpds] replaced
      by the coreactant of the same hash. *)
Definition substitute_cofactors (compounds : dict compound)
      (cofactors_as_cpds : list string) (half : list (Z * string))
    : result (list (Z * compound)) :=
    for_each (fun acc (sc : Z * string) =>
                c ←! getitem (dget compounds
                                (if bool_decide (sc.2 ∈ cofactors_as_cpds)
                                 then String.append "X" (tail1 sc.2) else sc.2));
                Ok (acc ++ [(sc.1, c)])%list)
             half [].

Definition append_reactant_in (new_id rxn_id : string) (compounds : dict compound)
      (cpd : string) : result (dict compound) :=
    if startswith cpd "C" then
      c ←! getitem (dget compounds cpd);
      l ←! getitem (Reactant_in c);
      let l := (l ++ [new_id])%list in
      Ok (dset compounds cpd
            (set_Reactant_in c (Some (if bool_decide (rxn_id ∈ l)
                                      then remove_first rxn_id l else l))))
    else Ok compounds.

Definition append_product_of (new_id rxn_id : string) (compounds : dict compound)
      (cpd : string) : result (dict compound) :=
    if startswith cpd "C" then
      c ←! getitem (dget compounds cpd);
      l ←! getitem (Product_of c);
      let l := (l ++ [new_id])%list in
      Ok (dset compounds cpd
            (set_Product_of c (Some (if bool_decide (rxn_id ∈ l)
                                     then remove_first rxn_id l else l))))
    else Ok compounds.

  (** The body of [for rxn_id in rxn_ids]. *)
Definition correct_reaction (cofactors_as_cpds : list string)
      (st : dict compound * dict reaction) (rxn_id : string)
    : result (dict compound * dict reaction) :=
    let '(compounds, reactions) := st in
    rxn ←! getitem (dget reactions rxn_id);
    reactants ←! substitute_cofactors compounds cofactors_as_cpds (Reactants rxn);
    products ←! substitute_cofactors compounds cofactors_as_cpds (Products rxn);
    let '(cofactor_rxn_id, rxn_text) := rxn2hash reactants products in
    match dget reactions cofactor_rxn_id with
    | Some existing =>
        let reactions :=
          dset reactions cofactor_rxn_id
               (set_Operators existing (Operators existing ∪ Operators rxn)) in
        compounds ←! for_each (strip_reactant_in rxn_id) ((Reactants rxn).*2) compounds;
        compounds ←! for_each (strip_product_of rxn_id) ((Products rxn).*2) compounds;
        Ok (compounds, reactions)
    | None =>
        let cofactor_rxn :=
          {| rxn_id := cofactor_rxn_id; Reactants := half_ids reactants;
             Products := half_ids products; Operators := Operators rxn;
             Partial_Operators :=
               match Partial_Operators rxn with
               | Some po => if bool_decide (po = ∅) then None else Some po
               | None => None
               end;
             SMILES_rxn := rxn_text |} in
        let reactions := dset reactions cofactor_rxn_id cofactor_rxn in
        compounds ←! for_each (append_reactant_in cofactor_rxn_id rxn_id)
                              ((Reactants rxn).*2) compounds;
        compounds ←! for_each (append_product_of cofactor_rxn_id rxn_id)
                              ((Products rxn).*2) compounds;
        Ok (compounds, reactions)
    end.

  (** The body of [for cpd_id in cofactors_as_cpds].  The set [rxns] is
      created empty before the loop and never assigned again, so
      [rxns.union(rxn_ids)] is [rxn_ids] of the current compound. *)
Definition collapse_compound (rxns : gset string) (cofactors_as_cpds : list string)
      (st : dict compound * dict reaction * option (gset string)) (cpd_id : string)
    : result (dict compound * dict reaction * option (gset string)) :=
    let '(compounds, reactions, _) := st in
    c ←! getitem (dget compounds cpd_id);
    po ←! getitem (Product_of c);
    ri ←! getitem (Reactant_in c);
    let rxn_ids : gset string := list_to_set (po ++ ri)%list in
    let rxns_to_del := rxns ∪ rxn_ids in
    '(compounds, reactions) ←!
      for_each (correct_reaction cofactors_as_cpds) (set_order rxn_ids)
               (compounds, reactions);
    Ok (compounds, reactions, Some rxns_to_del).

Definition remove_cofactor_redundancy (self : Pickaxe) : result Pickaxe :=
    let cofactor_ids := (fun co : Mol * string => co.2) <$> dvalues (coreactants self) in
    let cofactors_as_cpds :=
      filter (fun cpd_id => String.append "X" (tail1 cpd_id) ∈ cofactor_ids
                            ∧ startswith cpd_id "C" = true)
             (dkeys (compounds self)) in
    let rxns : gset string := ∅ in
    '(compounds, reactions, rxns_to_del) ←!
      for_each (collapse_compound rxns cofactors_as_cpds) cofactors_as_cpds
               (compounds self, reactions self, None);
    match rxns_to_del with
    | Some to_del =>
        if bool_decide (to_del = ∅) then Ok (with_network self compounds reactions)
        else
          reactions ←! for_each ddel_checked (set_order to_del) reactions;
          compounds ←! for_each ddel_checked cofactors_as_cpds compounds;
          Ok (with_network self compounds reactions)
    | None => Ok (with_network self compounds reactions)
    end.

  (** *** [find_minimal_set] and [prune_network] *)

  (** The state of the search: the ids appended to [white_list] while the
      current compound is visited, [white_set], [comp_set] and [rxn_set]. *)
Definition search_state : Type :=
    list string * gset string * gset string * gset string.

Definition visit_reactant (st : search_state) (reactant : Z * string) : search_state :=
    let '(appended, white_set, comp_set, rxn_set) := st in
    let comp_set := comp_set ∪ {[ reactant.2 ]} in
    if startswith reactant.2 "C" && negb (bool_decide (reactant.2 ∈ white_set))
    then ((appended ++ [reactant.2])%list, white_set ∪ {[ reactant.2 ]}, comp_set, rxn_set)
    else (appended, white_set, comp_set, rxn_set).

Definition visit_reaction (reactions : dict reaction) (st : search_state)
      (rxn_id : string) : result search_state :=
    let '(appended, white_set, comp_set, rxn_set) := st in
    let rxn_set := rxn_set ∪ {[ rxn_id ]} in
    r ←! getitem (dget reactions rxn_id);
    let comp_set := comp_set ∪ list_to_set ((Products r).*2) in
    Ok (fold_left visit_reactant (Reactants r) (appended, white_set, comp_set, rxn_set)).

Definition visit_compound (compounds : dict compound) (reactions : dict reaction)
      (st : search_state) (cpd_id : string) : result search_state :=
    match dget compounds cpd_id with
    | None => Ok st                                         (* continue *)
    | Some c =>
        po ←! getitem (Product_of c);
        for_each (visit_reaction reactions) po st
    end.

  (** [for cpd_id in white_list], a list that grows while it is iterated:
      [todo] is the part of [white_list] not yet visited.  [None] means the
      fuel ran out. *)
Fixpoint minimal_set_loop (fuel : nat) (compounds : dict compound)
      (reactions : dict reaction) (todo : list string)
      (white_set comp_set rxn_set : gset string)
    : option (result (gset string * gset string)) :=
    match fuel with
    | O => None
    | S fuel' =>
        match todo with
        | [] => Some (Ok (comp_set, rxn_set))
        | cpd_id :: rest =>
            match visit_compound compounds reactions ([], white_set, comp_set, rxn_set) cpd_id with
            | Raise e => Some (Raise e)
            | Ok (appended, white_set, comp_set, rxn_set) =>
                minimal_set_loop fuel' compounds reactions (rest ++ appended)%list
                                 white_set comp_set rxn_set
            end
        end
    end.

  (** Every id appended to [white_list] is a reactant of a stored reaction
      that was not yet in [white_set]; this bounds the number of visits. *)
Definition all_reactant_ids (reactions : dict reaction) : list string :=
    mjoin ((fun r : reaction => (Reactants r).*2) <$> dvalues reactions).

Definition search_fuel (reactions : dict reaction) (white_list : list string) : nat :=
    S (length white_list + size (list_to_set (all_reactant_ids reactions) : gset string)).

Definition find_minimal_set (self : Pickaxe) (white_set : gset string)
    : option (result (gset string * gset string)) :=
    let white_list := set_order white_set in
    match minimal_set_loop (search_fuel (reactions self) white_list)
                           (compounds self) (reactions self) white_list white_set ∅ ∅ with
    | Some (Ok (comp_set, rxn_set)) =>
        let comp_set :=
          if tani_filter self
          then comp_set ∪ list_to_set (filter (fun cpd_id => startswith cpd_id "T" = true)
                                              (dkeys (compounds self)))
          else comp_set in
        Some (Ok (comp_set, rxn_set))
    | other => other
    end.

Definition prune_network (self : Pickaxe) (white_list : list string)
    : option (result Pickaxe) :=
    let white_list : gset string := list_to_set white_list in
    match find_minimal_set self white_list with
    | Some (Ok (comp_set, rxn_set)) =>
        Some (Ok (with_network self
                    (filter (fun kv : string * compound => kv.1 ∈ comp_set) (compounds self))
                    (filter (fun kv : string * reaction => kv.1 ∈ rxn_set) (reactions self))))
    | Some (Raise e) => Some (Raise e)
    | None => None
    end.
End Reducer.

(** ** The generation loop *)

Section Driver.
Context `{TK : Toolkit} `{RT : PyRuntime}.

  (** [self.generation = g] *)
Definition set_generation (self : Pickaxe) (g : Z) : Pickaxe :=
    {| operators := operators self; coreactants := coreactants self;
       _raw_compounds := _raw_compounds self; compounds := compounds self;
       reactions := reactions self; generation := g;
       explicit_h := explicit_h self; kekulize := kekulize self;
       neutralise := neutralise self; errors := errors self;
       fragmented_mols := fragmented_mols self; radical_check := radical_check self;
       structure_field := structure_field self;
       target_smiles := target_smiles self; retro := retro self;
       tani_filter := tani_filter self; target_fps := target_fps self;
       crit_tani := crit_tani self; increasing_tani := increasing_tani self;
       mcs_filter := mcs_filter self; crit_mcs := crit_mcs self |}.

  (** The orders in which the worker pools complete their tasks, for the
      comparisons and for the expansion of each generation. *)
Record completion_orders : Type := {
    tani_order : Z -> list (string * string);
    mcs_order : Z -> list (string * string);
    expand_order : Z -> list string
  }.

  (** How one round of the [while] loop of [transform_all] ends: with a
      [return], or at the end of the loop body. *)
Inductive round : Type :=
| Return (self : Pickaxe)
| Next (self : Pickaxe).

  (** The block under [if self.tani_filter is True]. *)
Definition tani_round (self : Pickaxe) (num_workers : Z) (orders : completion_orders)
    : result round :=
    if tani_filter self then
      if nonempty (target_fps self) then
        crit_tani ←! crit_at (crit_tani self) (generation self);
        self ←! _filter_by self "tani" num_workers (tani_order orders (generation self));
        Ok (Next self)
      else Ok (Return self)
    else Ok (Next self).

  (** The block under [if self.mcs_filter == True]: both arms of the test on
      the type of [self.crit_mcs] index it. *)
Definition mcs_round (self : Pickaxe) (num_workers : Z) (orders : completion_orders)
    : result round :=
    if mcs_filter self then
      if nonempty (target_smiles self) then
        crit_mcs ←! match crit_mcs self with
                    | CritList l => py_index l (generation self)
                    | CritScalar _ => Raise TypeError
                    end;
        self ←! _filter_by self "mcs" num_workers (mcs_order orders (generation self));
        Ok (Next self)
      else Ok (Return self)
    else Ok (Next self).

  (** The rest of the loop body. *)
Definition expand_round (self : Pickaxe) (num_workers : Z) (orders : completion_orders)
    : result round :=
    let self := set_generation self (generation self + 1) in
    let compound_smiles :=
      SMILES <$> filter (fun cpd => Generation cpd = generation self - 1
                                    ∧ (Type_ cpd ∉ ["Coreactant"; "Target Compound"])
                                    ∧ Expand cpd = true)
                        (dvalues (compounds self)) in
    if nonempty compound_smiles then
      self ←! _transform_helper self compound_smiles num_workers
                                (expand_order orders (generation self));
      Ok (Next self)
    else Ok (Return self).

Definition transform_round (self : Pickaxe) (num_workers : Z) (orders : completion_orders)
    : result round :=
    r ←! tani_round self num_workers orders;
    match r with
    | Return self => Ok (Return self)
    | Next self =>
        r ←! mcs_round self num_workers orders;
        match r with
        | Return self => Ok (Return self)
        | Next self => expand_round self num_workers orders
        end
    end.

  (** [while self.generation < max_generations]; [None] means the fuel ran
      out. *)
Fixpoint transform_all_loop (fuel : nat) (self : Pickaxe)
      (num_workers max_generations : Z) (orders : completion_orders)
    : option (result Pickaxe) :=
    if generation self <? max_generations then
      match fuel with
      | O => None
      | S fuel' =>
          match transform_round self num_workers orders with
          | Raise e => Some (Raise e)
          | Ok (Return self) => Some (Ok self)
          | Ok (Next self) =>
              transform_all_loop fuel' self num_workers max_generations orders
          end
      end
    else Some (Ok self).

  (** [transform_all]: every round that does not return adds one to
      [self.generation]. *)
Definition transform_all (self : Pickaxe) (num_workers max_generations : Z)
      (orders : completion_orders) : option (result Pickaxe) :=
    transform_all_loop (Z.to_nat (max_generations - generation self))
                       self num_workers max_generations orders.
End Driver.

(** ** Loading compounds and targets

    The rows are what [utils.file_to_dict_list] yields for the file; [None]
    stands for a call without a file. *)

Section Loaders.
Context `{TK : Toolkit}.

  (** RDKit's [RDKFingerprint] of a molecule, which the toolkit interface
      above does not have. *)
Variable RDKFingerprint : Mol -> Fingerprint.

  (** The body of the loop of [load_compound_set]. *)
Definition load_compound_row (id_field : string) (st : Pickaxe * list string)
      (cpd_dict : dict string) : result (Pickaxe * list string) :=
    let '(self, compound_smiles) := st in
    '(self, mol) ←! _mol_from_dict self cpd_dict (structure_field self);
    match mol with
    | None => Ok (self, compound_smiles)                  (* continue *)
    | Some mol =>
        let smi := MolToSmiles mol in
        cpd_name ←! getitem (dget cpd_dict id_field);
        if str_in "C" smi || str_in "c" smi then
          mol ←! match SanitizeMol mol with
                 | Some m => Ok m
                 | None => Raise ToolkitError
                 end;
          '(self, _) ←! _add_compound self cpd_name smi "Starting Compound" (Some mol);
          Ok (self, (compound_smiles ++ [smi])%list)
        else Ok (self, compound_smiles)
    end.

Definition load_compound_set (self : Pickaxe) (compound_file : option (list (dict string)))
      (id_field : string) : result (Pickaxe * list string) :=
    let self := with_structure_field self None in
    match compound_file with
    | Some rows => for_each (load_compound_row id_field) rows (self, [])
    | None => Raise ValueError
    end.

  (** The assignments at the head of [load_target_and_filters]. *)
Definition set_filters (self : Pickaxe) (retrosynthesis tani : bool) (crit_t : crit)
      (increasing mcs : bool) (crit_m : crit) : Pickaxe :=
    {| operators := operators self; coreactants := coreactants self;
       _raw_compounds := _raw_compounds self; compounds := compounds self;
       reactions := reactions self; generation := generation self;
       explicit_h := explicit_h self; kekulize := kekulize self;
       neutralise := neutralise self; errors := errors self;
       fragmented_mols := fragmented_mols self; radical_check := radical_check self;
       structure_field := None;
       target_smiles := target_smiles self; retro := retrosynthesis;
       tani_filter := tani; target_fps := target_fps self;
       crit_tani := crit_t; increasing_tani := increasing;
       mcs_filter := mcs; crit_mcs := crit_m |}.

  (** [self.target_smiles.append(smi)], and [self.target_fps.append(fp)] when
      there is a fingerprint. *)
Definition add_target (self : Pickaxe) (smi : string) (fp : option Fingerprint) : Pickaxe :=
    {| operators := operators self; coreactants := coreactants self;
       _raw_compounds := _raw_compounds self; compounds := compounds self;
       reactions := reactions self; generation := generation self;
       explicit_h := explicit_h self; kekulize := kekulize self;
       neutralise := neutralise self; errors := errors self;
       fragmented_mols := fragmented_mols self; radical_check := radical_check self;
       structure_field := structure_field self;
       target_smiles := (target_smiles self ++ [smi])%list; retro := retro self;
       tani_filter := tani_filter self;
       target_fps := match fp with
                     | Some fp => (target_fps self ++ [fp])%list
                     | None => target_fps self
                     end;
       crit_tani := crit_tani self; increasing_tani := increasing_tani self;
       mcs_filter := mcs_filter self; crit_mcs := crit_mcs self |}.

  (** The body of the loop of [load_target_and_filters]. *)
Definition load_target_row (structure_field_arg : option string) (id_field : string)
      (self : Pickaxe) (target_dict : dict string) : result Pickaxe :=
    '(self, mol) ←! _mol_from_dict self target_dict structure_field_arg;
    match mol with
    | None => Ok self                                     (* continue *)
    | Some mol =>
        let smi := MolToSmiles mol in
        cpd_name ←! getitem (dget target_dict id_field);
        if str_in "c" (lower smi) then
          mol ←! match SanitizeMol mol with
                 | Some m => Ok m
                 | None => Raise ToolkitError
                 end;
          '(self, _) ←! _add_compound self cpd_name smi "Target Compound" (Some mol);
          Ok (add_target self smi
                (if tani_filter self then Some (RDKFingerprint mol) else None))
        else Ok self
    end.

Definition load_target_and_filters (self : Pickaxe)
      (target_compound_file : option (list (dict string)))
      (tani : bool) (crit_t : crit) (increasing mcs : bool) (crit_m : crit)
      (retrosynthesis : bool) (structure_field_arg : option string) (id_field : string)
    : result (Pickaxe * list string) :=
    let self := set_filters self retrosynthesis tani crit_t increasing mcs crit_m in
    match target_compound_file with
    | Some rows =>
        self ←! for_each (load_target_row structure_field_arg id_field) rows self;
        Ok (self, target_smiles self)
    | None => Raise ValueError
    end.
End Loaders.

(** ** Pruning to the targets *)

Section TargetPruning.
Context `{TK : Toolkit} `{RT : PyRuntime}.

  (** The set [white_list] of [prune_network_to_targets]: the ids the
      targets have as predicted compounds. *)
Definition target_white_list (self : Pickaxe) : gset string :=
    list_to_set
      (omap (fun target_smi =>
               match compound_hash target_smi "Predicted" with
               | Some target_id =>
                   if bool_decide (target_id = "") then None else Some target_id
               | None => None
               end)
            (target_smiles self)).

  (** [for rxn_id in cpd_dict['Product_of']: if rxn_id in self.reactions:
      del(self.reactions[rxn_id])] *)
Definition delete_producers (reactions : dict reaction) (product_of : list string)
    : dict reaction :=
    fold_left (fun rs rxn_id => if dmem rxn_id rs then ddel rs rxn_id else rs)
              product_of reactions.

  (** The body of the loop over [self.compounds.values()] for generation
      [i]. *)
Definition examine_leaf (white_list : gset string) (i : Z)
      (st : dict reaction * gset string) (cpd_dict : compound)
    : result (dict reaction * gset string) :=
    if startswith (_id cpd_dict) "C" then
      if bool_decide (Generation cpd_dict = i) then
        ri ←! getitem (Reactant_in cpd_dict);
        if negb (nonempty ri) && negb (bool_decide (_id cpd_dict ∈ white_list)) then
          po ←! getitem (Product_of cpd_dict);
          Ok (delete_producers st.1 po, st.2 ∪ {[ _id cpd_dict ]})
        else Ok st
      else Ok st
    else Ok st.

  (** [reversed(range(generation + 1))] *)
Definition generations_down (generation : Z) : list Z :=
    reverse (seqZ 0 (generation + 1)).

Definition prune_network_to_targets (self : Pickaxe) : option (result Pickaxe) :=
    let white_list := target_white_list self in
    match prune_network self (set_order white_list) with
    | Some (Ok self) =>
        Some ('(reactions, cpd_to_del) ←!
                for_each (fun st i =>
                            for_each (examine_leaf white_list i)
                                     (dvalues (compounds self)) st)
                         (generations_down (generation self)) (reactions self, ∅);
              compounds ←! for_each ddel_checked (set_order cpd_to_del) (compounds self);
              Ok (with_network self compounds reactions))
    | Some (Raise e) => Some (Raise e)
    | None => None
    end.
End TargetPruning.

(** ** Partial operators: one compound, then all compounds *)

(** An entry of [self.partial_operators]: the keys ['rule'],
    ['rule_reaction'] and ['reactants']. *)
Record partial_rule : Type := {
  pr_rule : string;
  pr_rule_reaction : string;
  pr_reactants : list string
}.

Section PartialOperators.
Context `{TK : Toolkit}.

  (** RDKit's [QuickSmartsMatch], and [utils.compound_hash] called with the
      SMILES alone; the toolkit interface above has neither. *)
Variable QuickSmartsMatch : string -> string -> bool.
Variable compound_hash_default : string -> option string.

Variable coreactant_mols : dict (Mol * string).
Variable coreactant_dict : dict compound.
Variable operators : dict (ChemicalReaction * rule_dict).
Variable generation : Z.
Variable explicit_h : bool.

  (** [gen_mol]; the same statements prepare [mol] at the head of
      [_transform_ind_compound_with_partial]. *)
Definition gen_mol (smi : string) : result Mol :=
    mol ←! match MolFromSmiles smi with
           | None => Raise ToolkitError
           | Some m => match RemoveHs m with
                       | None => Raise ToolkitError
                       | Some m => Ok m
                       end
           end;
    mol ←! match Kekulize mol with None => Raise ToolkitError | Some m => Ok m end;
    Ok (if explicit_h then AddHs mol else mol).

  (** The loop of [generate_partial_mols]; [Ok None] is its [return
      None]. *)
Fixpoint generate_partial_mols_loop (compound_smiles : string)
      (pairs : list (bool * string)) (reactant_mols : list Mol)
    : result (option (list Mol)) :=
    match pairs with
    | [] => Ok (Some reactant_mols)
    | (is_cofactor, smi) :: pairs' =>
        if (is_cofactor : bool) then
          co ←! getitem (dget coreactant_mols smi);
          generate_partial_mols_loop compound_smiles pairs' (reactant_mols ++ [co.1])%list
        else if bool_decide (smi = "SMARTS_match") then
          mol ←! gen_mol compound_smiles;
          generate_partial_mols_loop compound_smiles pairs' (reactant_mols ++ [mol])%list
        else if bool_decide (compound_hash_default smi
                             <> compound_hash_default compound_smiles) then
          mol ←! gen_mol smi;
          generate_partial_mols_loop compound_smiles pairs' (reactant_mols ++ [mol])%list
        else Ok None
    end.

Definition generate_partial_mols (compound_smiles : string) (partial_rule : partial_rule)
    : result (option (list Mol)) :=
    rule ←! getitem (dget operators (pr_rule partial_rule));
    let cofactor := (fun r => negb (bool_decide (r = "Any"))) <$> rule_Reactants rule.2 in
    generate_partial_mols_loop compound_smiles (zip cofactor (pr_reactants partial_rule)) [].

  (** [for rxn, vals in generated_rxns.items()]: [generated_rxns] is
      [local_rxns] itself, so the loop runs over every reaction of the
      worker. *)
Definition label_reactions (rule_reaction : string) (local_rxns : dict reaction)
    : dict reaction :=
    fold_left (fun rxns (kv : string * reaction) =>
                 match dget rxns kv.1 with
                 | Some r =>
                     dset rxns kv.1
                          (set_Partial_Operators r
                             (Some (match Partial_Operators r with
                                    | Some po => po ∪ {[ rule_reaction ]}
                                    | None => {[ rule_reaction ]}
                                    end)))
                 | None => rxns
                 end)
              local_rxns local_rxns.

  (** The body of [for partial_rule in rules]. *)
Definition apply_partial_rule (compound_smiles : string)
      (st : dict compound * dict reaction) (partial_rule : partial_rule)
    : result (dict compound * dict reaction) :=
    rule_name ←! py_index (split_on "_" (pr_rule_reaction partial_rule)) 0;
    rule ←! getitem (dget operators (pr_rule partial_rule));
    reactant_mols ←! generate_partial_mols compound_smiles partial_rule;
    match reactant_mols with
    | Some (mol :: mols) =>
        '(generated_cpds, generated_rxns) ←!
          _run_reaction coreactant_mols coreactant_dict generation explicit_h
                        rule_name rule (mol :: mols) st.1 st.2;
        Ok (generated_cpds, label_reactions (pr_rule_reaction partial_rule) generated_rxns)
    | _ => Ok st
    end.

Definition _transform_ind_compound_with_partial
      (partial_rules : dict (list partial_rule)) (compound_smiles : string)
    : result (dict compound * dict reaction) :=
    mol ←! gen_mol compound_smiles;
    for_each (fun (st : dict compound * dict reaction)
                  (entry : string * list partial_rule) =>
                if QuickSmartsMatch compound_smiles entry.1
                then for_each (apply_partial_rule compound_smiles) entry.2 st
                else Ok st)
             partial_rules ([], []).

  (** The body of the single-worker loop of
      [_transform_all_compounds_with_partial]. *)
Definition collect_partial_result (master : dict compound * dict reaction)
      (res : dict compound * dict reaction) : result (dict compound * dict reaction) :=
    let new_cpds_master := dupdate master.1 res.1 in
    new_rxns_master ←!
      for_each (fun m (kv : string * reaction) =>
                  match dget m kv.1 with
                  | Some r =>
                      po ←! getitem (Partial_Operators r);
                      po' ←! getitem (Partial_Operators kv.2);
                      Ok (dset m kv.1 (set_Partial_Operators r (Some (po ∪ po'))))
                  | None => Ok (dupdate m [(kv.1, kv.2)])
                  end)
               res.2 master.2;
    Ok (new_cpds_master, new_rxns_master).

  (** [_transform_all_compounds_with_partial]: with several workers the loop
      body is the one of [_transform_all_compounds_with_full], and the
      results come in the completion order [arrival]. *)
Definition _transform_all_compounds_with_partial
      (compound_smiles : list string) (num_workers : Z)
      (partial_rules : dict (list partial_rule)) (arrival : list string)
    : result (dict compound * dict reaction) :=
    let transform_compound_partial := _transform_ind_compound_with_partial partial_rules in
    if 1 <? num_workers then
      for_each (collect_body transform_compound_partial) arrival ([], [])
    else
      for_each (fun master smiles =>
                  res ←! transform_compound_partial smiles;
                  collect_partial_result master res)
               compound_smiles ([], []).
End PartialOperators.

(** ** A small instance of the interfaces

    Molecules are their SMILES text, a reaction template is a list of literal
    reactant texts and a list of literal product texts, a fingerprint is the
    list of characters of the text, and ids are the text behind a one-letter
    prefix.  The instance is only used to run the definitions above on
    concrete inputs. *)

Module Toy.

  (** The canonical text: one alternative spelling of ethanol, and sodium
      acetate written with a covalent bond, which canonicalises to the two
      ions. *)
Definition canonical (s : string) : string :=
    if bool_decide (s = "OCC") then "CCO"
    else if bool_decide (s = "CC(=O)O[Na]") then "CC(=O)[O-].[Na+]"
    else s.

Definition is_upper (c : ascii) : bool :=
    let n := nat_of_ascii c in ((65 <=? n)%nat && (n <=? 90)%nat)%bool.

Fixpoint atoms (s : string) (acc : Counter) : Counter :=
    match s with
    | EmptyString => acc
    | String c s' =>
        atoms s' (if is_upper c then cadd acc (String c EmptyString) 1 else acc)
    end.

Definition prefix_of_type (cpd_type : string) : string :=
    if bool_decide (cpd_type = "Coreactant") then "X"
    else if bool_decide (cpd_type = "Target Compound") then "T"
    else "C".

Fixpoint join (sep : string) (l : list string) : string :=
    match l with
    | [] => ""
    | [x] => x
    | x :: l' => String.append x (String.append sep (join sep l'))
    end.

Fixpoint chars (s : string) : list ascii :=
    match s with
    | EmptyString => []
    | String c s' => c :: chars s'
    end.

  (** The Tanimoto coefficient of two character sets. *)
Definition tanimoto (a b : list ascii) : Q :=
    let a := remove_dups a in
    let b := remove_dups b in
    let both := list_intersection a b in
    let any := list_union a b in
    match any with
    | [] => 0%Q
    | _ => Qmake (Z.of_nat (length both)) (Pos.of_nat (length any))
    end.

#[global] Instance toolkit : Toolkit := {|
    Mol := string;
    ChemicalReaction := list string * list string;
    Fingerprint := list ascii;
    MolFromSmiles := fun s => if bool_decide (s = "") || str_in "?" s then None else Some s;
    MolFromInchi := fun s => if bool_decide (s = "") || str_in "?" s then None else Some s;
    MolToSmiles := canonical;
    RemoveHs := Some;
    SanitizeMol := fun m => if str_in "!" m then None else Some m;
    Kekulize := Some;
    AddHs := fun m => m;
    GetMolFrags := fun m => (fun _ => []) <$> split_on "." (canonical m);
    CalcMolFormula := canonical;
    ReactionFromSmarts := fun s =>
      match split_on ">" s with
      | [lhs; _; rhs] => Some (split_on "." lhs, split_on "." rhs)
      | _ => None
      end;
    GetNumReactantTemplates := fun rxn => Z.of_nat (length rxn.1);
    GetNumProductTemplates := fun rxn => Z.of_nat (length rxn.2);
    RunReactants := fun rxn mols =>
      if bool_decide (length mols = length rxn.1)
      then Some (if bool_decide (mols = rxn.1) then [rxn.2] else [])
      else None;
    FingerprintSimilarity := tanimoto;
    compound_hash := fun smi cpd_type => Some (String.append (prefix_of_type cpd_type) smi);
    rxn2hash := fun reactants products =>
      let side := fun half => join " + " ((fun sc : Z * compound => _id sc.2) <$> half) in
      let text := fun half => join " + " ((fun sc : Z * compound => SMILES sc.2) <$> half) in
      (String.append "R" (String.append (side reactants) (String.append " => " (side products))),
       String.append (text reactants) (String.append " => " (text products)));
    _getatom_count := fun m _ => atoms m [];
    neutralise_charges := fun m => m;
    get_fp := fun s => if str_in "?" s then None else Some (chars s);
    get_mcs_overlap := fun m t =>
      match chars t with
      | [] => None
      | _ => Some (tanimoto (chars m) (chars t))
      end
  |}.

  (** A text seen as a molecule. *)
Definition mol (s : string) : @Mol toolkit := s.

#[global] Instance runtime : PyRuntime := {|
    set_order := elements;
    set_order_perm := fun s => reflexivity (elements s)
  |}.

  (** An object as [Pickaxe.__init__] leaves it. *)
Definition new_pickaxe : Pickaxe := {|
    operators := []; coreactants := []; _raw_compounds := [];
    compounds := []; reactions := []; generation := 0;
    explicit_h := true; kekulize := true; neutralise := true; errors := true;
    fragmented_mols := false; radical_check := false;
    structure_field := None; target_smiles := []; retro := false;
    tani_filter := false; target_fps := []; crit_tani := CritScalar 0;
    increasing_tani := false; mcs_filter := false; crit_mcs := CritScalar 0
  |}.

  (** A rule as [_load_operators] stores it. *)
Definition operator (name lhs rhs : string) (reactants products : list string)
    : string * (ChemicalReaction * rule_dict) :=
    (name, ((split_on "." lhs, split_on "." rhs),
            {| Name := name; rule_Reactants := reactants; rule_Products := products;
               SMARTS := String.append lhs (String.append ">>" rhs);
               rule_id := name; Reactions_predicted := 0 |})).

Definition with_operators_and_flags (self : Pickaxe)
      (ops : dict (ChemicalReaction * rule_dict)) (fragmented : bool) : Pickaxe :=
    {| operators := ops; coreactants := coreactants self;
       _raw_compounds := _raw_compounds self; compounds := compounds self;
       reactions := reactions self; generation := generation self;
       explicit_h := explicit_h self; kekulize := kekulize self;
       neutralise := neutralise self; errors := errors self;
       fragmented_mols := fragmented; radical_check := radical_check self;
       structure_field := structure_field self;
       target_smiles := target_smiles self; retro := retro self;
       tani_filter := tani_filter self; target_fps := target_fps self;
       crit_tani := crit_tani self; increasing_tani := increasing_tani self;
       mcs_filter := mcs_filter self; crit_mcs := crit_mcs self |}.

Definition with_generation (self : Pickaxe) (g : Z) : Pickaxe :=
    {| operators := operators self; coreactants := coreactants self;
       _raw_compounds := _raw_compounds self; compounds := compounds self;
       reactions := reactions self; generation := g;
       explicit_h := explicit_h self; kekulize := kekulize self;
       neutralise := neutralise self; errors := errors self;
       fragmented_mols := fragmented_mols self; radical_check := radical_check self;
       structure_field := structure_field self;
       target_smiles := target_smiles self; retro := retro self;
       tani_filter := tani_filter self; target_fps := target_fps self;
       crit_tani := crit_tani self; increasing_tani := increasing_tani self;
       mcs_filter := mcs_filter self; crit_mcs := crit_mcs self |}.

Definition with_coreactants (self : Pickaxe) (cos : dict (Mol * string)) : Pickaxe :=
    {| operators := operators self; coreactants := cos;
       _raw_compounds := _raw_compounds self; compounds := compounds self;
       reactions := reactions self; generation := generation self;
       explicit_h := explicit_h self; kekulize := kekulize self;
       neutralise := neutralise self; errors := errors self;
       fragmented_mols := fragmented_mols self; radical_check := radical_check self;
       structure_field := structure_field self;
       target_smiles := target_smiles self; retro := retro self;
       tani_filter := tani_filter self; target_fps := target_fps self;
       crit_tani := crit_tani self; increasing_tani := increasing_tani self;
       mcs_filter := mcs_filter self; crit_mcs := crit_mcs self |}.

Definition with_tani (self : Pickaxe) (targets : list string) (crit : crit)
      (increasing : bool) : Pickaxe :=
    {| operators := operators self; coreactants := coreactants self;
       _raw_compounds := _raw_compounds self; compounds := compounds self;
       reactions := reactions self; generation := generation self;
       explicit_h := explicit_h self; kekulize := kekulize self;
       neutralise := neutralise self; errors := errors self;
       fragmented_mols := fragmented_mols self; radical_check := radical_check self;
       structure_field := structure_field self;
       target_smiles := targets; retro := retro self;
       tani_filter := true; target_fps := chars <$> targets;
       crit_tani := crit; increasing_tani := increasing;
       mcs_filter := mcs_filter self; crit_mcs := crit_mcs self |}.

  (** What a successful call returns, and the empty object otherwise. *)
Definition get {A : Type} (m : result (Pickaxe * A)) : Pickaxe :=
    match m with
    | Ok (pk, _) => pk
    | Raise _ => new_pickaxe
    end.

Definition get' (m : result Pickaxe) : Pickaxe :=
    match m with
    | Ok pk => pk
    | Raise _ => new_pickaxe
    end.

  (** *** Ethanol under two spellings, and five rules

      [R1] and [R5] both oxidise "CCO" to "CC=O", [R2] does it on the
      spelling "OCC", [R3] makes the enol and [R4] loses a carbon. *)
Definition ethanol_rules : dict (ChemicalReaction * rule_dict) :=
    [ operator "R1" "CCO" "CC=O" ["Any"] ["Any"];
      operator "R2" "OCC" "CC=O" ["Any"] ["Any"];
      operator "R3" "CCO" "C=CO" ["Any"] ["Any"];
      operator "R4" "CCO" "CO" ["Any"] ["Any"];
      operator "R5" "CCO" "CC=O" ["Any"] ["Any"] ].

Definition ethanol_seeded : Pickaxe :=
    let pk := with_operators_and_flags new_pickaxe ethanol_rules false in
    let pk := get (_add_compound pk "ethanol" "CCO" "Starting Compound" None) in
    get (_add_compound pk "ethanol2" "OCC" "Starting Compound" None).


  (** *** Lactic acid with water and carbon dioxide as coreactants

      [D1] dehydrates and [D2] decarboxylates; both name their small product
      by the wildcard, so the expansion creates generated compounds for
      water and for carbon dioxide. *)
Definition lactate_rules : dict (ChemicalReaction * rule_dict) :=
    [ operator "D1" "CC(O)C(=O)O" "C=CC(=O)O.O" ["Any"] ["Any"; "Any"];
      operator "D2" "CC(O)C(=O)O" "CCO.O=C=O" ["Any"] ["Any"; "Any"] ].

Definition lactate_seeded : Pickaxe :=
    let pk := with_operators_and_flags new_pickaxe lactate_rules false in
    let pk := get (_add_compound pk "WATER" "O" "Coreactant" None) in
    let pk := get (_add_compound pk "CO2" "O=C=O" "Coreactant" None) in
    let pk := with_coreactants pk [("WATER", ("O", "XO")); ("CO2", ("O=C=O", "XO=C=O"))] in
    get (_add_compound pk "lactate" "CC(O)C(=O)O" "Starting Compound" None).

Definition lactate_expanded : Pickaxe :=
    get' (_transform_helper (with_generation lactate_seeded 1) ["CC(O)C(=O)O"] 1 []).

Definition dehydration_rxn : string := "RCCC(O)C(=O)O => CC=CC(=O)O + CO".
Definition decarboxylation_rxn : string := "RCCC(O)C(=O)O => CCCO + CO=C=O".

Definition half_of (m : result (option (list (Z * compound) * Counter)))
    : list (Z * compound) * Counter :=
    match m with
    | Ok (Some h) => h
    | _ => ([], [])
    end.

Definition ethanol_side : list (Z * compound) * Counter :=
    half_of (_make_half_rxn [] [] 1 true [] ["CCO"] ["Any"]).
Definition acetaldehyde_side : list (Z * compound) * Counter :=
    half_of (_make_half_rxn [] [] 1 true [] ["CC=O"] ["Any"]).

Definition ethanol_expanded : Pickaxe :=
    get' (_transform_helper (with_generation ethanol_seeded 1) ["CCO"; "OCC"] 1 []).

  (** *** One compound and two targets

      The compound shares two of its four characters with the first target
      and four of five with the second. *)
Definition tani_seeded : Pickaxe :=
    let pk := get (_add_compound new_pickaxe "seed" "CNOS" "Starting Compound" None) in
    with_tani pk ["CN"; "CNOSP"] (CritScalar (3 # 10)) true.

  (** The same compound after a first filtering against the second target
      alone, and then with both targets loaded. *)
Definition tani_second_round : Pickaxe :=
    let pk := get (_add_compound new_pickaxe "seed" "CNOS" "Starting Compound" None) in
    let pk := get' (_filter_by (with_tani pk ["CNOSP"] (CritScalar (3 # 10)) true) "tani" 1 []) in
    with_tani pk ["CN"; "CNOSP"] (CritScalar (3 # 10)) true.

  (** *** A reaction between two compounds of the current generation

      Both compounds are of generation 1 and the reaction turns the first
      into the second, as happens when a partial operator binds a compound
      made earlier in the same generation.  Against the target "C#N" with
      threshold 1/2 the reactant fails (2 common characters of 6) and the
      product passes. *)
Definition predicted (smiles : string) (gen : Z) (reactant_in product_of : list string)
    : string * compound :=
    (String.append "C" smiles,
     {| ID := None; _id := String.append "C" smiles; SMILES := smiles;
        Type_ := "Predicted"; Generation := gen; atom_count := atoms smiles [];
        Reactant_in := Some reactant_in; Product_of := Some product_of;
        Expand := true; Formula := smiles; last_tani := 0 |}).

Definition isomerisation_rxn : string := "RC[N]=[C] => CC#N".

Definition cascade_network : Pickaxe :=
    let pk := with_tani (with_generation new_pickaxe 1) ["C#N"] (CritScalar (1 # 2)) false in
    with_network pk
      [ predicted "[N]=[C]" 1 [isomerisation_rxn] [];
        predicted "C#N" 1 [] [isomerisation_rxn] ]
      [ (isomerisation_rxn,
         {| rxn_id := isomerisation_rxn; Reactants := [(1, "C[N]=[C]")];
            Products := [(1, "CC#N")]; Operators := {[ "P1" ]};
            Partial_Operators := Some {[ "P1_1" ]};
            SMILES_rxn := "[N]=[C] => C#N" |}) ].

  (** *** A rule file with a rule whose product role list is too long *)
Definition water_declared : Pickaxe :=
    let pk := get (_add_compound new_pickaxe "Water" "O" "Coreactant" None) in
    with_coreactants pk [("Water", ("O", "XO"))].

Definition oxidation_row : rule_row :=
    {| row_Name := "R1"; row_Reactants := "Any"; row_Products := "Any;Water";
       row_SMARTS := "CCO>>CC=O" |}.

Definition hydration_row : rule_row :=
    {| row_Name := "R2"; row_Reactants := "Any;Water"; row_Products := "Any";
       row_SMARTS := "C=C.O>>CCO" |}.

  (** *** A rule whose product canonicalises to two fragments *)
Definition salt_rules : dict (ChemicalReaction * rule_dict) :=
    [ operator "S1" "CC(O)O[Na]" "CC(=O)O[Na]" ["Any"] ["Any"] ].

Definition salt_seeded (fragmented : bool) : Pickaxe :=
    let pk := with_operators_and_flags new_pickaxe salt_rules fragmented in
    with_generation (get (_add_compound pk "seed" "CC(O)O[Na]" "Starting Compound" None)) 1.

  (** *** A half reaction that names water twice *)
Definition hydrate_side : list (Z * compound) * Counter :=
    half_of (_make_half_rxn [] [] 1 true [] [mol "O"; mol "CCO"; mol "O"]
                            ["Any"; "Any"; "Any"]).


  (** *** Merging a second worker result into an expanded network *)
Definition pair_of {A B : Type} (m : result (dict A * dict B)) : dict A * dict B :=
  match m with
  | Ok p => p
  | Raise _ => ([], [])
  end.

Definition second_spelling : dict compound * dict reaction :=
  pair_of (_transform_ind_compound_with_full [] [] ethanol_rules 1 true "OCC").

Definition merged_again : dict compound * dict reaction :=
  pair_of (update_cpds_rxns (compounds ethanol_expanded) (reactions ethanol_expanded)
                            second_spelling.1 second_spelling.2).


  (** *** Running the generation loop *)

  (** Single-worker runs: the completion orders are not consulted. *)
Definition no_orders : completion_orders :=
    {| tani_order := fun _ => []; mcs_order := fun _ => []; expand_order := fun _ => [] |}.

Definition get_run (m : option (result Pickaxe)) : Pickaxe :=
    match m with
    | Some (Ok pk) => pk
    | _ => new_pickaxe
    end.

  (** Ethanol seeded, with the substructure filter switched on against one
      target and a single number as threshold. *)
Definition mcs_seeded : Pickaxe :=
    {| operators := operators ethanol_seeded; coreactants := coreactants ethanol_seeded;
       _raw_compounds := _raw_compounds ethanol_seeded; compounds := compounds ethanol_seeded;
       reactions := reactions ethanol_seeded; generation := 0;
       explicit_h := true; kekulize := true; neutralise := true; errors := true;
       fragmented_mols := false; radical_check := false;
       structure_field := None; target_smiles := ["CC=O"]; retro := false;
       tani_filter := false; target_fps := []; crit_tani := CritScalar 0;
       increasing_tani := false; mcs_filter := true; crit_mcs := CritScalar (1 # 2) |}.


  (** *** A compound file: ethanol, water, and a salt in two fragments *)
Definition compound_rows : list (dict string) :=
    [ [("id", "ethanol"); ("SMILES", "CCO")];
      [("id", "water"); ("SMILES", "O")];
      [("id", "salt"); ("SMILES", "CC(=O)O[Na]")];
      [("id", "acetaldehyde"); ("SMILES", "CC=O")] ].

Definition loaded_compounds : Pickaxe * list string :=
    match load_compound_set new_pickaxe (Some compound_rows) "id" with
    | Ok p => p
    | Raise _ => (new_pickaxe, [])
    end.

  (** The fingerprint of a molecule: the characters of its text. *)
Definition rdk_fingerprint : @Mol toolkit -> @Fingerprint toolkit := chars.

Definition loaded_targets : Pickaxe * list string :=
    match load_target_and_filters rdk_fingerprint new_pickaxe (Some compound_rows)
            true (CritScalar (1 # 2)) false false (CritScalar 0) false None "id" with
    | Ok p => p
    | Raise _ => (new_pickaxe, [])
    end.


  (** *** The expanded lactic acid network with the acrylic acid as target *)
Definition lactate_targeted : Pickaxe :=
    {| operators := operators lactate_expanded; coreactants := coreactants lactate_expanded;
       _raw_compounds := _raw_compounds lactate_expanded;
       compounds := compounds lactate_expanded;
       reactions := reactions lactate_expanded; generation := generation lactate_expanded;
       explicit_h := true; kekulize := true; neutralise := true; errors := true;
       fragmented_mols := false; radical_check := false;
       structure_field := None; target_smiles := ["C=CC(=O)O"]; retro := false;
       tani_filter := false; target_fps := []; crit_tani := CritScalar 0;
       increasing_tani := false; mcs_filter := false; crit_mcs := CritScalar 0 |}.


  (** *** A rule with two wildcards and its two partial operators

      [B1] joins ethanol and acetaldehyde.  The partial operator found at
      ethanol fixes acetaldehyde as the second reactant, the one found at
      acetaldehyde fixes ethanol as the first. *)
Definition smarts_match (smiles smarts : string) : bool := str_in smarts smiles.

Definition default_hash (smi : string) : option string := Some (String.append "C" smi).

Definition hemiacetal_rules : dict (ChemicalReaction * rule_dict) :=
    [ operator "B1" "CCO.CC=O" "CCOC(C)O" ["Any"; "Any"] ["Any"] ].

Definition hemiacetal_partials : dict (list partial_rule) :=
    [ ("CCO", [ {| pr_rule := "B1"; pr_rule_reaction := "B1_r1";
                   pr_reactants := ["SMARTS_match"; "CC=O"] |} ]);
      ("CC=O", [ {| pr_rule := "B1"; pr_rule_reaction := "B1_r2";
                    pr_reactants := ["CCO"; "SMARTS_match"] |} ]) ].

Definition hemiacetal_rxn : string := "RCCCO + CCC=O => CCCOC(C)O".

Definition partial_result (smiles : string) : dict compound * dict reaction :=
    pair_of (_transform_ind_compound_with_partial smarts_match default_hash
               [] [] hemiacetal_rules 1 true hemiacetal_partials smiles).

  (** The state of the worker for acetaldehyde if it had the hemiacetal
      reaction already, and that state after the second partial operator. *)
Definition second_partial_rule : partial_rule :=
    {| pr_rule := "B1"; pr_rule_reaction := "B1_r2";
       pr_reactants := ["CCO"; "SMARTS_match"] |}.

Definition relabelled : dict compound * dict reaction :=
    pair_of (apply_partial_rule default_hash [] [] hemiacetal_rules 1 true "CC=O"
               (partial_result "CCO") second_partial_rule).

Definition reaction_of (res : dict compound * dict reaction) (rid : string) : reaction :=
    match dget res.2 rid with
    | Some r => r
    | None => {| rxn_id := ""; Reactants := []; Products := []; Operators := ∅;
                 Partial_Operators := None; SMILES_rxn := "" |}
    end.

End Toy.

(** ** An instance whose compound ids do not see stereo marks

    As the instance above, except that the id of a compound is made from its
    text without the marks "@": two mirror images share one id, as they do
    when the id is a hash of the connectivity of the structure alone. *)

Module Chiral.

Fixpoint without_marks (s : string) : string :=
    match s with
    | EmptyString => EmptyString
    | String c s' =>
        if Ascii.eqb c "@" then without_marks s' else String c (without_marks s')
    end.

#[local] Instance toolkit : Toolkit := {|
    Mol := string;
    ChemicalReaction := list string * list string;
    Fingerprint := list ascii;
    MolFromSmiles := @MolFromSmiles Toy.toolkit;
    MolFromInchi := @MolFromInchi Toy.toolkit;
    MolToSmiles := @MolToSmiles Toy.toolkit;
    RemoveHs := @RemoveHs Toy.toolkit;
    SanitizeMol := @SanitizeMol Toy.toolkit;
    Kekulize := @Kekulize Toy.toolkit;
    AddHs := @AddHs Toy.toolkit;
    GetMolFrags := @GetMolFrags Toy.toolkit;
    CalcMolFormula := @CalcMolFormula Toy.toolkit;
    ReactionFromSmarts := @ReactionFromSmarts Toy.toolkit;
    GetNumReactantTemplates := @GetNumReactantTemplates Toy.toolkit;
    GetNumProductTemplates := @GetNumProductTemplates Toy.toolkit;
    RunReactants := @RunReactants Toy.toolkit;
    FingerprintSimilarity := @FingerprintSimilarity Toy.toolkit;
    compound_hash := fun smi cpd_type =>
      Some (String.append (Toy.prefix_of_type cpd_type) (without_marks smi));
    rxn2hash := @rxn2hash Toy.toolkit;
    _getatom_count := @_getatom_count Toy.toolkit;
    neutralise_charges := @neutralise_charges Toy.toolkit;
    get_fp := @get_fp Toy.toolkit;
    get_mcs_overlap := @get_mcs_overlap Toy.toolkit
  |}.

  (** *** Two isomers that rearrange to the two mirror images

      [E1] turns the first seed into one mirror image and [E2] the second
      seed into the other; [E3] acts on the first mirror image only. *)
Definition new_pickaxe : @Pickaxe toolkit := {|
    operators := []; coreactants := []; _raw_compounds := [];
    compounds := []; reactions := []; generation := 0;
    explicit_h := true; kekulize := true; neutralise := true; errors := true;
    fragmented_mols := false; radical_check := false;
    structure_field := None; target_smiles := []; retro := false;
    tani_filter := false; target_fps := []; crit_tani := CritScalar 0;
    increasing_tani := false; mcs_filter := false; crit_mcs := CritScalar 0
  |}.

Definition mirror_rules : dict (@ChemicalReaction toolkit * rule_dict) :=
    [ Toy.operator "E1" "CC(=N)OF" "C[C@](O)(F)N" ["Any"] ["Any"];
      Toy.operator "E2" "CC(=O)NF" "C[C@@](O)(F)N" ["Any"] ["Any"];
      Toy.operator "E3" "C[C@](O)(F)N" "CC(O)(N)F" ["Any"] ["Any"] ].

Definition get {A : Type} (m : result (@Pickaxe toolkit * A)) : @Pickaxe toolkit :=
    match m with
    | Ok (pk, _) => pk
    | Raise _ => new_pickaxe
    end.

Definition seeded : @Pickaxe toolkit :=
    let pk := with_operators new_pickaxe mirror_rules in
    let pk := get (_add_compound pk "imidate" "CC(=N)OF" "Starting Compound" None) in
    get (_add_compound pk "amide" "CC(=O)NF" "Starting Compound" None).

  (** The workers of each generation complete in the reverse of the order in
      which the compounds were submitted. *)
Definition reversed : completion_orders :=
    {| tani_order := fun _ => []; mcs_order := fun _ => [];
       expand_order := fun g =>
         if g =? 1 then ["CC(=O)NF"; "CC(=N)OF"]
         else if g =? 2 then ["C[C@](O)(F)N"]
         else [] |}.

Definition get_run (m : option (result (@Pickaxe toolkit))) : @Pickaxe toolkit :=
    match m with
    | Some (Ok pk) => pk
    | _ => new_pickaxe
    end.

End Chiral.

(** ** Specification-level notions used in the statements *)

(** The count of element [e] in the items of a counter.  The keys of a
    dictionary are distinct, and then this is [c[e]] ([count_of_cget]). *)
Fixpoint count_of (c : Counter) (e : string) : Z :=
  match c with
  | [] => 0
  | (a, n) :: c' => (if decide (e = a) then n else 0) + count_of c' e
  end.

(** The number of atoms of element [e] on one side of a reaction: the atom
    counts of its compounds, each weighted by its stoichiometric
    coefficient. *)
Definition weighted_atoms (half : list (Z * compound)) (e : string) : Z :=
  foldr (fun (sc : Z * compound) acc => sc.1 * count_of (atom_count sc.2) e + acc) 0 half.
Arguments weighted_atoms : simpl never.

(** Back-reference lists only ever get longer, and a missing list stays
    missing. *)
Definition refs_grow (o o' : option (list string)) : Prop :=
  match o, o' with
  | Some l, Some l' => l `prefix_of` l'
  | None, None => True
  | _, _ => False
  end.

(** [c'] is [c] with possibly longer back-reference lists. *)
Definition only_refs_grow (c c' : compound) : Prop :=
  ID c' = ID c ∧ _id c' = _id c ∧ SMILES c' = SMILES c ∧ Type_ c' = Type_ c
  ∧ Generation c' = Generation c ∧ atom_count c' = atom_count c
  ∧ Expand c' = Expand c ∧ Formula c' = Formula c ∧ last_tani c' = last_tani c
  ∧ refs_grow (Reactant_in c) (Reactant_in c')
  ∧ refs_grow (Product_of c) (Product_of c').

(** A compound store keeps every compound it had, up to longer
    back-reference lists. *)
Definition extends (cs cs' : dict compound) : Prop :=
  forall k c, dget cs k = Some c -> exists c', dget cs' k = Some c' ∧ only_refs_grow c c'.

(** The best of a list of scores; [-1] when there is none. *)
Definition best_score (scores : list Q) : Q :=
  foldr (fun s acc => if Qle_bool acc s then s else acc) (-1)%Q scores.

(** *** Well-formed registries *)

(** Every compound dictionary is stored under its own ['_id']. *)
Definition keys_are_ids (cs : dict compound) : Prop :=
  forall k c, dget cs k = Some c -> _id c = k.




(** *** Rows of the rule file *)

Section RuleRows.
Context `{TK : Toolkit}.

  (** Every role of the row is ['Any'] or a declared coreactant. *)
Definition roles_declared (coreactants : dict (Mol * string)) (row : rule_row) : bool :=
    forallb (fun coreactant_name =>
               dmem coreactant_name coreactants || bool_decide (coreactant_name = "Any"))
            (split_on ";" (row_Reactants row) ++ split_on ";" (row_Products row))%list.

  (** The template of the row parses, and the number of its reactant or
      product templates differs from the length of the role list. *)
Definition arity_mismatch (row : rule_row) : bool :=
    match ReactionFromSmarts (row_SMARTS row) with
    | Some rxn =>
        negb (GetNumReactantTemplates rxn
              =? Z.of_nat (length (split_on ";" (row_Reactants row))))
        || negb (GetNumProductTemplates rxn
                 =? Z.of_nat (length (split_on ";" (row_Products row))))
    | None => false
    end.
End RuleRows.

(** *** The minimal set *)

(** The compound ids a reaction names. *)
Definition participants (r : reaction) : list string :=
  ((Products r).*2 ++ (Reactants r).*2)%list.

(** What the search maintains: every compound of [comp_set] is named by a
    reaction of [rxn_set], and every reaction of [rxn_set] is stored and has
    all the compounds it names in [comp_set]. *)
Definition closed_sets (reactions : dict reaction) (comp_set rxn_set : gset string) : Prop :=
  (forall x, x ∈ comp_set ->
     exists rid r, rid ∈ rxn_set ∧ dget reactions rid = Some r ∧ x ∈ participants r)
  ∧ (forall rid, rid ∈ rxn_set ->
       exists r, dget reactions rid = Some r ∧ forall x, x ∈ participants r -> x ∈ comp_set).

(** The potential that bounds the search: the reactant ids not yet in
    [white_set], plus the ids waiting in [white_list]. *)
Definition search_inv (reactions : dict reaction) (n : nat) (st : search_state) : Prop :=
  let '(appended, white_set, comp_set, rxn_set) := st in
  (size ((list_to_set (all_reactant_ids reactions) : gset string) ∖ white_set)
   + length appended = n)%nat
  ∧ closed_sets reactions comp_set rxn_set.

(** *** Stoichiometry *)

(** The sum of the stoichiometric coefficients of a half reaction, and the
    sum of the counts of a counter. *)
Definition total_stoich (half : list (Z * compound)) : Z :=
  foldr (fun (sc : Z * compound) acc => sc.1 + acc) 0 half.

Definition counter_total (c : Counter) : Z :=
  foldr (fun (kv : string * Z) acc => kv.2 + acc) 0 c.

(** *** Merging into the registry *)

(** What [update_cpds_rxns] leaves of a reaction that was stored as [r0] and
    arrives again as [r]. *)
Definition merged_reaction (old : option reaction) (r r' : reaction) : Prop :=
  match old with
  | Some r0 =>
      Operators r' = Operators r0 ∪ Operators r
      ∧ rxn_id r' = rxn_id r0 ∧ Reactants r' = Reactants r0
      ∧ Products r' = Products r0 ∧ SMILES_rxn r' = SMILES_rxn r0
  | None => r' = r
  end.

(** Compound [k] is stored with a ['Product_of'] (a ['Reactant_in']) list
    that names reaction [rid]. *)
Definition has_product_ref (cs : dict compound) (k rid : string) : Prop :=
  exists c l, dget cs k = Some c ∧ Product_of c = Some l ∧ rid ∈ l.

Definition has_reactant_ref (cs : dict compound) (k rid : string) : Prop :=
  exists c l, dget cs k = Some c ∧ Reactant_in c = Some l ∧ rid ∈ l.

(** *** Well-formed rows and recognised columns *)

Section RowsAndColumns.
Context `{TK : Toolkit}.

(** A row that [_load_operators] accepts on its own: declared roles and a
    template that parses. *)
Definition row_loads (coreactants : dict (Mol * string)) (row : rule_row) : Prop :=
  roles_declared coreactants row = true ∧ is_Some (ReactionFromSmarts (row_SMARTS row)).

(** A column name that [_mol_from_dict] recognises as the structure. *)
Definition is_structure_column (field : string) : bool :=
  bool_decide (lower field ∈ ["smiles"; "inchi"; "structure"]).
End RowsAndColumns.

(** *** The backward closure of a whitelist *)

(** Reaction [rid] is named in the ['Product_of'] list of the stored
    compound [x]. *)
Definition produced_by (compounds : dict compound) (x rid : string) : Prop :=
  exists c po, dget compounds x = Some c ∧ Product_of c = Some po ∧ rid ∈ po.

(** The compounds the search has to visit: the whitelist, and every reactant
    with a ['C'] id of a stored reaction that produces a compound it has to
    visit. *)
Inductive needed (compounds : dict compound) (reactions : dict reaction)
    (white_set : gset string) : string -> Prop :=
| needed_white x : x ∈ white_set -> needed compounds reactions white_set x
| needed_reactant x rid r q :
    needed compounds reactions white_set x ->
    produced_by compounds x rid ->
    dget reactions rid = Some r ->
    q ∈ (Reactants r).*2 ->
    startswith q "C" = true ->
    needed compounds reactions white_set q.

(** Compound [x] has been visited: the reactions that produce it are in [R]
    and their ['C'] reactants are in [W]. *)
Definition visited (compounds : dict compound) (reactions : dict reaction)
    (x : string) (W R : gset string) : Prop :=
  forall rid, produced_by compounds x rid ->
    rid ∈ R
    ∧ forall r q, dget reactions rid = Some r -> q ∈ (Reactants r).*2 ->
                  startswith q "C" = true -> q ∈ W.

(** What holds while one compound is visited, relative to the sets [W] and
    [R] at the start of the visit: [a] is what was appended to the
    whitelist since. *)
Definition visit_inv (compounds : dict compound) (reactions : dict reaction)
    (white_set W R : gset string) (a : list string) (W1 R1 : gset string) : Prop :=
  W ⊆ W1 ∧ R ⊆ R1
  ∧ (forall y, y ∈ W1 -> needed compounds reactions white_set y)
  ∧ (forall y, y ∈ a -> y ∈ W1)
  ∧ (forall y, y ∈ W1 -> y ∈ W ∨ y ∈ a)
  ∧ (forall rid, rid ∈ R1 ->
       exists x, needed compounds reactions white_set x ∧ produced_by compounds x rid).

(** What holds between two visits: [todo] is the part of the whitelist not
    yet visited. *)
Definition closure_inv (compounds : dict compound) (reactions : dict reaction)
    (white_set : gset string) (todo : list string) (W R : gset string) : Prop :=
  white_set ⊆ W
  ∧ (forall y, y ∈ W -> needed compounds reactions white_set y)
  ∧ (forall y, y ∈ todo -> y ∈ W)
  ∧ (forall y, y ∈ W -> y ∈ todo ∨ visited compounds reactions y W R)
  ∧ (forall rid, rid ∈ R ->
       exists x, needed compounds reactions white_set x ∧ produced_by compounds x rid).

(** *** What an expansion keeps *)

(** Every reaction of [rs] is still stored in [rs'], with the same reactants
    and products and with at least the operators it had. *)
Definition reactions_kept (rs rs' : dict reaction) : Prop :=
  forall rid r, dget rs rid = Some r ->
    exists r', dget rs' rid = Some r'
               ∧ Operators r ⊆ Operators r'
               ∧ Reactants r' = Reactants r ∧ Products r' = Products r.

(** The settings of the object other than the generation counter and the
    network. *)
Definition same_settings `{TK : Toolkit} (self self' : Pickaxe) : Prop :=
  operators self' = operators self ∧ coreactants self' = coreactants self
  ∧ tani_filter self' = tani_filter self ∧ mcs_filter self' = mcs_filter self
  ∧ target_fps self' = target_fps self ∧ target_smiles self' = target_smiles self
  ∧ crit_tani self' = crit_tani self ∧ crit_mcs self' = crit_mcs self.

(** *** Registries keyed by the ids of their entries *)

(** The keys of the dictionary are distinct and every value is stored under
    the id it carries. *)
Definition keyed {V : Type} (f : V -> string) (d : dict V) : Prop :=
  NoDup (dkeys d) ∧ Forall (fun kv : string * V => f kv.2 = kv.1) d.

(** Both dictionaries of the object are keyed: compounds by ['_id'] and
    reactions by ['_id']. *)
Definition well_keyed `{TK : Toolkit} (self : Pickaxe) : Prop :=
  keyed _id (compounds self) ∧ keyed rxn_id (reactions self).

(** *** What the loaders store *)

(** The test of [load_compound_set] for an organic structure. *)
Definition organic (smi : string) : bool := str_in "C" smi || str_in "c" smi.

(** The compound store [cs'] holds every compound of [cs] unchanged, and
    whatever else it holds is of type [cpd_type], of generation [gen],
    expandable as its type says, and has an organic SMILES out of
    [smiles]. *)
Definition loaded_into (cs cs' : dict compound) (cpd_type : string) (gen : Z)
    (smiles : list string) : Prop :=
  (forall k c, dget cs k = Some c -> dget cs' k = Some c)
  ∧ (forall k c, dget cs' k = Some c ->
       dget cs k = Some c
       ∨ (Type_ c = cpd_type ∧ Generation c = gen
          ∧ Expand c = bool_decide (cpd_type ∈ ["Predicted"; "Starting Compound"])
          ∧ organic (SMILES c) = true ∧ SMILES c ∈ smiles)).

(** The fields that [load_target_and_filters] sets before it reads the
    file. *)
Definition filters_are `{TK : Toolkit} (s : Pickaxe) (tani : bool) (crit_t : crit) (increasing mcs : bool)
    (crit_m : crit) (retrosynthesis : bool) : Prop :=
  tani_filter s = tani ∧ crit_tani s = crit_t ∧ increasing_tani s = increasing
  ∧ mcs_filter s = mcs ∧ crit_mcs s = crit_m ∧ retro s = retrosynthesis.

(** *** Leaves of the pruned network *)

(** A compound that the second pass of [prune_network_to_targets] removes:
    a ['C'] id, a generation up to the current one, nothing that consumes
    it, and not a target. *)
Definition childless_non_target (white_list : gset string) (generation : Z) (c : compound)
    : Prop :=
  startswith (_id c) "C" = true
  ∧ 0 <= Generation c <= generation
  ∧ Reactant_in c = Some []
  ∧ _id c ∉ white_list.

(** *** Labels of partial operators *)

(** Reaction [r] carries the label [label] in its ['Partial Operators']. *)
Definition labelled_with (label : string) (r : reaction) : Prop :=
  exists po, Partial_Operators r = Some po ∧ label ∈ po.

(** Every reaction of the dictionary has the key ['Partial Operators']. *)
Definition all_labelled (rs : dict reaction) : Prop :=
  forall rid r, dget rs rid = Some r -> is_Some (Partial_Operators r).

(** Reaction [r] with [label] added to its ['Partial Operators'], the key
    being created when it is missing. *)
Definition relabel (label : string) (r : reaction) : reaction :=
  set_Partial_Operators r (Some (match Partial_Operators r with
                                 | Some po => po ∪ {[ label ]}
                                 | None => {[ label ]}
                                 end)).

Section Submitted.
Context `{TK : Toolkit}.

(** The SMILES that the round of [transform_all] starting at [self] hands
    to the workers. *)
Definition submitted (self : Pickaxe) : list string :=
  SMILES <$> filter (fun cpd => Generation cpd = generation self
                                ∧ (Type_ cpd ∉ ["Coreactant"; "Target Compound"])
                                ∧ Expand cpd = true)
                    (dvalues (compounds self)).
End Submitted.

(** * Properties *)

(** ** Dictionaries *)

Section PyDictFacts.
Context {V : Type}.
Implicit Types (d e : dict V) (k : string) (v : V).

Lemma dget_dset d k v k' :
    dget (dset d k v) k' = if decide (k' = k) then Some v else dget d k'.
  Proof.
    induction d as [|[k0 v0] d IH]; simpl.
    - repeat case_decide; congruence.
    - destruct (decide (k = k0)) as [->|Hne]; simpl.
      + repeat case_decide; congruence.
      + rewrite IH. repeat case_decide; congruence.
  Qed.

Lemma dget_dset_eq d k v : dget (dset d k v) k = Some v.
  Proof. rewrite dget_dset. by case_decide. Qed.

Lemma dget_dset_ne d k v k' : k' ≠ k -> dget (dset d k v) k' = dget d k'.
  Proof. intros. rewrite dget_dset. by case_decide. Qed.

Lemma dget_Some_elem d k v : dget d k = Some v -> (k, v) ∈ d.
  Proof.
    induction d as [|[k0 v0] d IH]; simpl; [done|].
    case_decide; [intros [= ->]; subst; left | intros; right; auto].
  Qed.

Lemma dget_is_Some d k : is_Some (dget d k) <-> k ∈ dkeys d.
  Proof.
    unfold dkeys. induction d as [|[k0 v0] d IH]; simpl.
    - split; [by intros [? ?] | by intros ?%elem_of_nil].
    - rewrite elem_of_cons. case_decide; [naive_solver|].
      rewrite IH. naive_solver.
  Qed.

Lemma dget_None d k : dget d k = None <-> k ∉ dkeys d.
  Proof. rewrite <- dget_is_Some, eq_None_not_Some. done. Qed.

Lemma dmem_true k d : dmem k d = true <-> k ∈ dkeys d.
  Proof. unfold dmem. rewrite bool_decide_eq_true. apply dget_is_Some. Qed.

Lemma dmem_false k d : dmem k d = false <-> k ∉ dkeys d.
  Proof. unfold dmem. rewrite bool_decide_eq_false. by rewrite dget_is_Some. Qed.

Lemma elem_of_dom_set d k : k ∈ dom_set d <-> k ∈ dkeys d.
  Proof. unfold dom_set. apply elem_of_list_to_set. Qed.

Lemma dmem_cons k k0 v0 d :
    dmem k ((k0, v0) :: d) = if decide (k = k0) then true else dmem k d.
  Proof.
    unfold dmem. simpl. case_decide; [|done].
    apply bool_decide_eq_true. by eexists.
  Qed.

Lemma dkeys_dset d k v :
    dkeys (dset d k v) = if dmem k d then dkeys d else (dkeys d ++ [k])%list.
  Proof.
    induction d as [|[k0 v0] d IH]; [done|].
    rewrite dmem_cons. simpl. destruct (decide (k = k0)) as [->|Hne]; [done|].
    change (dkeys ((k0, v0) :: dset d k v)) with (k0 :: dkeys (dset d k v)).
    rewrite IH. by destruct (dmem k d).
  Qed.

Lemma elem_of_dkeys_dset d k v k' :
    k' ∈ dkeys (dset d k v) <-> k' = k ∨ k' ∈ dkeys d.
  Proof.
    rewrite <- !dget_is_Some, dget_dset. case_decide; naive_solver.
  Qed.

Lemma dom_set_dset d k v : dom_set (dset d k v) = dom_set d ∪ {[ k ]}.
  Proof.
    apply set_eq. intros x.
    rewrite elem_of_union, elem_of_singleton, !elem_of_dom_set, elem_of_dkeys_dset.
    naive_solver.
  Qed.

Lemma NoDup_dkeys_dset d k v : NoDup (dkeys d) -> NoDup (dkeys (dset d k v)).
  Proof.
    intros Hnd. rewrite dkeys_dset. destruct (dmem k d) eqn:Hm; [done|].
    apply NoDup_app. split_and!; [done| |apply NoDup_singleton].
    intros x Hx ->%list_elem_of_singleton. by apply dmem_false in Hm.
  Qed.

Lemma dom_set_dupdate d e : dom_set (dupdate d e) = dom_set d ∪ dom_set e.
  Proof.
    unfold dupdate. revert d. induction e as [|[k v] e IH]; intros d; simpl.
    - unfold dom_set at 3. simpl. set_solver.
    - rewrite IH, dom_set_dset. unfold dom_set at 4. simpl. fold (dom_set e). set_solver.
  Qed.

Lemma NoDup_dkeys_dupdate d e : NoDup (dkeys d) -> NoDup (dkeys (dupdate d e)).
  Proof.
    unfold dupdate. revert d. induction e as [|[k v] e IH]; intros d Hnd; simpl; [done|].
    apply IH. by apply NoDup_dkeys_dset.
  Qed.

Lemma elem_of_dkeys_ddel d k k' : k' ∈ dkeys (ddel d k) -> k' ∈ dkeys d.
  Proof.
    unfold dkeys. induction d as [|[k0 v0] d IH]; simpl; [done|].
    case_decide; simpl; rewrite ?elem_of_cons; naive_solver.
  Qed.

Lemma dget_ddel_ne d k k' : k' ≠ k -> dget (ddel d k) k' = dget d k'.
  Proof.
    intros Hne. induction d as [|[k0 v0] d IH]; simpl; [done|].
    destruct (decide (k = k0)) as [->|Hne']; simpl.
    - by case_decide.
    - by rewrite IH.
  Qed.

Lemma dget_ddel_eq d k : NoDup (dkeys d) -> dget (ddel d k) k = None.
  Proof.
    unfold dkeys. induction d as [|[k0 v0] d IH]; simpl; [done|].
    intros [Hnotin Hnd]%NoDup_cons.
    destruct (decide (k = k0)) as [->|Hne]; simpl.
    - by apply dget_None.
    - case_decide; [done|]. by apply IH.
  Qed.

Lemma NoDup_dkeys_ddel d k : NoDup (dkeys d) -> NoDup (dkeys (ddel d k)).
  Proof.
    unfold dkeys. induction d as [|[k0 v0] d IH]; simpl; [done|].
    intros [Hnotin Hnd]%NoDup_cons.
    case_decide; simpl; [done|]. apply NoDup_cons. split; [|by apply IH].
    intros Hin. apply Hnotin. by eapply (elem_of_dkeys_ddel d k).
  Qed.
End PyDictFacts.

(** ** Counters and the atom balance *)

Section CounterFacts.
Implicit Types (c d : Counter) (e a : string) (n : Z).

Lemma dget_elem_NoDup {V : Type} (d : dict V) k v :
    NoDup (dkeys d) -> (k, v) ∈ d -> dget d k = Some v.
  Proof.
    induction d as [|[k0 v0] d IH]; simpl; [by intros _ ?%elem_of_nil|].
    intros [Hnotin Hnd]%NoDup_cons [[= -> ->]|Hin]%elem_of_cons.
    - by case_decide.
    - case_decide as Heq; [|by apply IH].
      subst. exfalso. apply Hnotin. apply (list_elem_of_fmap_2 fst) in Hin. done.
  Qed.

Lemma cget_cadd c a n e :
    cget (cadd c a n) e = cget c e + (if decide (e = a) then n else 0).
  Proof.
    unfold cadd. destruct (decide (e = a)) as [->|Hne].
    - unfold cget at 1. rewrite dget_dset_eq. done.
    - unfold cget. rewrite dget_dset_ne by done. lia.
  Qed.

Lemma count_of_cget c e : NoDup (dkeys c) -> count_of c e = cget c e.
  Proof.
    unfold cget. induction c as [|[a n] c IH]; simpl; [done|].
    intros [Hnotin Hnd]%NoDup_cons. case_decide as Heq.
    - subst. simpl. enough (count_of c a = 0) by lia.
      clear IH Hnd. induction c as [|[a' n'] c IH]; simpl; [done|].
      simpl in Hnotin. apply not_elem_of_cons in Hnotin as [? ?].
      case_decide; [done|]. rewrite IH; [lia|done].
    - rewrite IH; [lia|done].
  Qed.

  (** A fold whose step either leaves the dictionary alone or sets a key
      ends empty exactly when it starts empty and never sets. *)
Lemma dset_not_nil {V : Type} (d : dict V) k v : dset d k v ≠ [].
  Proof. destruct d as [|[k0 v0] d]; simpl; [done|]. by case_decide. Qed.

Lemma fold_dset_nil {A V : Type} (P : A -> bool) (key : A -> string)
      (val : A -> V) (l : list A) (acc : dict V) :
    fold_left (fun res x => if P x then dset res (key x) (val x) else res) l acc = []
    <-> acc = [] ∧ Forall (fun x => P x = false) l.
  Proof.
    revert acc. induction l as [|x l IH]; intros acc; simpl.
    - split; [intros ->; by split | by intros [-> _]].
    - rewrite IH, Forall_cons. destruct (P x); [|naive_solver].
      split; [intros [Hd _]; by apply dset_not_nil in Hd | intros [_ [[=] _]]].
  Qed.

Lemma counter_sub_nil c d :
    counter_sub c d = []
    <-> Forall (fun ec : string * Z => (0 <? ec.2 - cget d ec.1) = false) c
        ∧ Forall (fun ec : string * Z => negb (dmem ec.1 c) && (ec.2 <? 0) = false) d.
  Proof.
    unfold counter_sub.
    rewrite (fold_dset_nil (fun ec : string * Z => negb (dmem ec.1 c) && (ec.2 <? 0))
                           (fun ec => ec.1) (fun ec => 0 - ec.2)).
    rewrite (fold_dset_nil (fun ec : string * Z => 0 <? ec.2 - cget d ec.1)
                           (fun ec => ec.1) (fun ec => ec.2 - cget d ec.1)).
    naive_solver.
  Qed.

Lemma nonempty_false {A : Type} (l : list A) : nonempty l = false <-> l = [].
  Proof. by destruct l. Qed.

  (** One direction of the test: no element has more atoms in [c] than in
      [d]. *)
Lemma counter_sub_nil_le c d e :
    counter_sub c d = [] -> cget c e <= cget d e.
  Proof.
    intros [Hc Hd]%counter_sub_nil.
    unfold cget at 1. destruct (dget c e) as [n|] eqn:Hce; simpl.
    - apply dget_Some_elem in Hce.
      rewrite Forall_forall in Hc. specialize (Hc _ Hce). simpl in Hc.
      apply Z.ltb_ge in Hc. lia.
    - unfold cget. destruct (dget d e) as [m|] eqn:Hde; simpl; [|done].
      apply dget_Some_elem in Hde.
      rewrite Forall_forall in Hd. specialize (Hd _ Hde). simpl in Hd.
      assert (dmem e c = false) as Hm.
      { apply dmem_false. by apply dget_None. }
      rewrite Hm in Hd. simpl in Hd. apply Z.ltb_ge in Hd. done.
  Qed.

  (** The balance test of [_run_reaction] succeeds only on counters that
      agree on every element. *)
Lemma is_atom_balanced_sound c d :
    is_atom_balanced c d = true -> forall e, cget c e = cget d e.
  Proof.
    unfold is_atom_balanced. rewrite negb_true_iff, orb_false_iff.
    rewrite !nonempty_false. intros [Hcd Hdc] e.
    pose proof (counter_sub_nil_le c d e Hcd).
    pose proof (counter_sub_nil_le d c e Hdc). lia.
  Qed.

  (** For dictionaries (distinct keys) the test is exact. *)
Lemma is_atom_balanced_complete c d :
    NoDup (dkeys c) -> NoDup (dkeys d) ->
    (forall e, cget c e = cget d e) -> is_atom_balanced c d = true.
  Proof.
    intros Hc Hd Heq. unfold is_atom_balanced.
    rewrite negb_true_iff, orb_false_iff, !nonempty_false, !counter_sub_nil.
    assert (forall c d, NoDup (dkeys c) -> (forall e, cget c e = cget d e) ->
              Forall (fun ec : string * Z => (0 <? ec.2 - cget d ec.1) = false) c) as H1.
    { clear. intros c d Hc Heq. apply Forall_forall. intros [a n] Hin. simpl.
      apply Z.ltb_ge. rewrite <- Heq. unfold cget.
      rewrite (dget_elem_NoDup c a n Hc Hin). simpl. lia. }
    assert (forall c d, NoDup (dkeys d) -> (forall e, cget c e = cget d e) ->
              Forall (fun ec : string * Z => negb (dmem ec.1 c) && (ec.2 <? 0) = false) d) as H2.
    { clear. intros c d Hd Heq. apply Forall_forall. intros [a n] Hin. simpl.
      destruct (dmem a c) eqn:Hm; [done|]. simpl. apply Z.ltb_ge.
      specialize (Heq a). unfold cget in Heq.
      rewrite (dget_elem_NoDup d a n Hd Hin) in Heq.
      apply dmem_false, dget_None in Hm. rewrite Hm in Heq. simpl in Heq. lia. }
    split_and!; auto.
  Qed.
End CounterFacts.

(** ** The rule application engine: half reactions and the balance check *)

Section RuleApplicationFacts.
Context `{TK : Toolkit}.
Variable coreactant_mols : dict (Mol * string).
Variable coreactant_dict : dict compound.
Variable generation : Z.
Variable explicit_h : bool.

Abbreviation make_half := (_make_half_rxn coreactant_mols coreactant_dict generation explicit_h).
Abbreviation collect := (_make_half_rxn_collect coreactant_mols coreactant_dict generation explicit_h).

Lemma dmem_same_keys {V W : Type} (d1 : dict V) (d2 : dict W) k :
    dkeys d1 = dkeys d2 -> dmem k d1 = dmem k d2.
  Proof.
    intros Hk. destruct (dmem k d2) eqn:Hm.
    - apply dmem_true. rewrite Hk. by apply dmem_true.
    - apply dmem_false. rewrite Hk. by apply dmem_false.
  Qed.

  (** [cpds] and [cpd_counter] are filled in lockstep. *)
Lemma collect_aligned local_cpds pairs cpds counter cpds' counter' :
    collect local_cpds pairs cpds counter = Ok (Some (cpds', counter')) ->
    dkeys cpds = dkeys counter -> NoDup (dkeys cpds) ->
    dkeys cpds' = dkeys counter' ∧ NoDup (dkeys cpds').
  Proof.
    revert cpds counter. induction pairs as [|[mol rule] pairs IH]; intros cpds counter; simpl.
    - intros [= -> ->]. done.
    - assert (forall c : compound,
                 dkeys cpds = dkeys counter -> NoDup (dkeys cpds) ->
                 dkeys (dset cpds (_id c) c) = dkeys (cadd counter (_id c) 1)
                 ∧ NoDup (dkeys (dset cpds (_id c) c))) as Hstep.
      { intros c Hk Hnd. split; [|by apply NoDup_dkeys_dset].
        unfold cadd. rewrite !dkeys_dset, (dmem_same_keys cpds counter) by done.
        by rewrite Hk. }
      case_bool_decide.
      + destruct (_run_reaction_gen_compound _ _ _ _) as [c|]; [|done].
        intros Hc Hk Hnd. destruct (Hstep c Hk Hnd). eapply IH; eauto.
      + destruct (dget coreactant_mols rule) as [co|]; simpl; [|done].
        destruct (dget coreactant_dict co.2) as [c|]; simpl; [|done].
        intros Hc Hk Hnd. destruct (Hstep c Hk Hnd). eapply IH; eauto.
  Qed.

Lemma half_list_aligned (D : dict compound) (lc : Counter) (ld : dict compound)
      (acc : list (Z * compound)) :
    dkeys ld = dkeys lc ->
    (forall k c, (k, c) ∈ ld -> dget D k = Some c) ->
    for_each (fun acc (ic : string * Z) =>
                c ←! getitem (dget D ic.1); Ok (acc ++ [(ic.2, c)])%list) lc acc
    = Ok (acc ++ zip (lc.*2) (ld.*2))%list.
  Proof.
    revert ld acc. induction lc as [|[k s] lc IH]; intros [|[k' c] ld] acc; simpl; try done.
    - intros _ _. by rewrite app_nil_r.
    - intros [= -> Hk] HD. rewrite (HD k c) by left. simpl.
      rewrite (IH ld) by (auto; intros; apply HD; by right).
      by rewrite <- app_assoc.
  Qed.

Lemma cget_fold_cadd (atoms : Counter) (w : Z) (acc : Counter) e :
    cget (fold_left (fun ac (a : string * Z) => cadd ac a.1 (a.2 * w)) atoms acc) e
    = cget acc e + count_of atoms e * w.
  Proof.
    revert acc. induction atoms as [|[a n] atoms IH]; intros acc; simpl; [lia|].
    rewrite IH, cget_cadd. case_decide; lia.
  Qed.

Lemma weighted_atoms_cons s c (half : list (Z * compound)) e :
    weighted_atoms ((s, c) :: half) e
    = s * count_of (atom_count c) e + weighted_atoms half e.
  Proof. done. Qed.

Lemma atom_counts_aligned (C : Counter) (ld : dict compound) (lc : Counter)
      (acc : Counter) e :
    dkeys ld = dkeys lc ->
    (forall k s, (k, s) ∈ lc -> cget C k = s) ->
    cget (fold_left (fun atom_counts (kc : string * compound) =>
                       fold_left (fun atom_counts (a : string * Z) =>
                                    cadd atom_counts a.1 (a.2 * cget C kc.1))
                                 (atom_count kc.2) atom_counts) ld acc) e
    = cget acc e + weighted_atoms (zip (lc.*2) (ld.*2)) e.
  Proof.
    revert lc acc. induction ld as [|[k c] ld IH]; intros [|[k' s] lc] acc Hk HC; try done.
    - unfold weighted_atoms. simpl. lia.
    - injection Hk as <- Hk.
      change (zip ((k, s) :: lc).*2 ((k, c) :: ld).*2) with ((s, c) :: zip (lc.*2) (ld.*2)).
      rewrite weighted_atoms_cons. cbn [fold_left].
      rewrite (IH lc) by (auto; intros; apply HC; by right).
      rewrite cget_fold_cadd. cbn [fst snd]. rewrite (HC k s) by left. lia.
  Qed.

  (** The atom counter of a half reaction is the stoichiometry-weighted sum
      of the atom counts of its compounds. *)
Lemma make_half_rxn_atoms local_cpds mol_list rules half atoms :
    make_half local_cpds mol_list rules = Ok (Some (half, atoms)) ->
    forall e, cget atoms e = weighted_atoms half e.
  Proof.
    unfold _make_half_rxn.
    destruct (collect _ _ _ _) as [[[cpds counter]|]|] eqn:Hc; simpl; try done.
    destruct (collect_aligned _ _ _ _ _ _ Hc eq_refl (NoDup_nil_2 : NoDup (dkeys ([] : dict compound)))) as [Hk Hnd].
    assert (NoDup (dkeys counter)) as Hnd' by by rewrite <- Hk.
    rewrite (half_list_aligned cpds counter cpds []); [|done|].
    2:{ intros k c Hin. by apply dget_elem_NoDup. }
    simpl. intros [= <- <-] e. unfold half_rxn_atom_counts.
    rewrite (atom_counts_aligned counter cpds counter [] e); [done|done|].
    intros k s Hin. unfold cget. by rewrite (dget_elem_NoDup counter k s).
  Qed.

Lemma NoDup_fold_cadd (atoms : Counter) (w : Z) (acc : Counter) :
    NoDup (dkeys acc) ->
    NoDup (dkeys (fold_left (fun ac (a : string * Z) => cadd ac a.1 (a.2 * w)) atoms acc)).
  Proof.
    revert acc. induction atoms as [|[a n] atoms IH]; intros acc Hacc; simpl; [done|].
    apply IH. unfold cadd. by apply NoDup_dkeys_dset.
  Qed.

Lemma NoDup_half_rxn_atom_counts (cpds : dict compound) (counter : Counter) :
    NoDup (dkeys (half_rxn_atom_counts cpds counter)).
  Proof.
    unfold half_rxn_atom_counts.
    generalize (NoDup_nil_2 : NoDup (dkeys ([] : Counter))).
    generalize ([] : Counter).
    induction cpds as [|[k c] cpds IH]; intros acc Hacc; simpl; [done|].
    apply IH. by apply NoDup_fold_cadd.
  Qed.

Lemma make_half_rxn_atoms_NoDup local_cpds mol_list rules half atoms :
    make_half local_cpds mol_list rules = Ok (Some (half, atoms)) ->
    NoDup (dkeys atoms).
  Proof.
    unfold _make_half_rxn.
    destruct (collect _ _ _ _) as [[[cpds counter]|]|]; simpl; try done.
    destruct (for_each _ counter []) as [h|]; simpl; [|done].
    intros [= _ <-]. apply NoDup_half_rxn_atom_counts.
  Qed.
End RuleApplicationFacts.

Section AtomBalance.
Context `{TK : Toolkit}.
Variable coreactant_mols : dict (Mol * string).
Variable coreactant_dict : dict compound.
Variable generation : Z.
Variable explicit_h : bool.

Abbreviation make_half' :=
    (_make_half_rxn coreactant_mols coreactant_dict generation explicit_h).
Abbreviation run_candidate' :=
    (run_candidate coreactant_mols coreactant_dict generation explicit_h).

  (** C2.  A candidate reaction, made of the half reaction [reactants] of the
      rule and of the half reaction [products] of one product set, changes
      the worker's compounds and reactions only if every element has the same
      stoichiometry-weighted atom count on both sides.  A candidate that
      is unbalanced on some element leaves both dictionaries as they were
      (no reaction, no compound), and a balanced one with products is
      admitted. *)
Theorem C2_only_balanced_candidates_admitted
      (rule_name : string) (rule : ChemicalReaction * rule_dict)
      (cpds0 : dict compound) (reactant_mols product_mols : list Mol)
      (reactants products : list (Z * compound)) (reactant_atoms product_atoms : Counter)
      (st : dict compound * dict reaction) :
    make_half' cpds0 reactant_mols (rule_Reactants rule.2)
      = Ok (Some (reactants, reactant_atoms)) ->
    make_half' st.1 product_mols (rule_Products rule.2)
      = Ok (Some (products, product_atoms)) ->
    (run_candidate' rule_name rule reactants reactant_atoms st product_mols <> Ok st ->
       forall e, weighted_atoms reactants e = weighted_atoms products e)
    ∧ ((exists e, weighted_atoms reactants e <> weighted_atoms products e) ->
       run_candidate' rule_name rule reactants reactant_atoms st product_mols = Ok st)
    ∧ ((forall e, weighted_atoms reactants e = weighted_atoms products e) ->
       products <> [] ->
       run_candidate' rule_name rule reactants reactant_atoms st product_mols
       = Ok (admit_reaction rule_name reactants products st.1 st.2)).
  Proof.
    intros Hr Hp.
    pose proof (make_half_rxn_atoms _ _ _ _ _ _ _ _ _ Hr) as Hra.
    pose proof (make_half_rxn_atoms _ _ _ _ _ _ _ _ _ Hp) as Hpa.
    unfold run_candidate. rewrite Hp.
    destruct (is_atom_balanced reactant_atoms product_atoms) eqn:Hbal.
    - pose proof (is_atom_balanced_sound _ _ Hbal) as Heq.
      assert (forall e, weighted_atoms reactants e = weighted_atoms products e) as Hw.
      { intros e. by rewrite <- Hra, <- Hpa. }
      split_and!.
      + done.
      + intros [e He]. by destruct (He (Hw e)).
      + intros _ Hne. by destruct products.
    - split_and!.
      + by destruct (nonempty products).
      + by destruct (nonempty products).
      + intros Hw _. exfalso.
        rewrite is_atom_balanced_complete in Hbal; [done| | |].
        * eapply make_half_rxn_atoms_NoDup, Hr.
        * eapply make_half_rxn_atoms_NoDup, Hp.
        * intros e. by rewrite Hra, Hpa.
  Qed.
End AtomBalance.

(** The theorem at the oxidation of ethanol to acetaldehyde by rule [R1]
    of the small instance. *)
Lemma C2_only_balanced_candidates_admitted_witness :
  (run_candidate [] [] 1 true "R1" (Toy.operator "R1" "CCO" "CC=O" ["Any"] ["Any"]).2
                 Toy.ethanol_side.1 Toy.ethanol_side.2 ([], []) ["CC=O"] <> Ok ([], []) ->
     forall e, weighted_atoms Toy.ethanol_side.1 e = weighted_atoms Toy.acetaldehyde_side.1 e)
  ∧ ((exists e, weighted_atoms Toy.ethanol_side.1 e <> weighted_atoms Toy.acetaldehyde_side.1 e) ->
     run_candidate [] [] 1 true "R1" (Toy.operator "R1" "CCO" "CC=O" ["Any"] ["Any"]).2
                   Toy.ethanol_side.1 Toy.ethanol_side.2 ([], []) ["CC=O"] = Ok ([], []))
  ∧ ((forall e, weighted_atoms Toy.ethanol_side.1 e = weighted_atoms Toy.acetaldehyde_side.1 e) ->
     Toy.acetaldehyde_side.1 <> [] ->
     run_candidate [] [] 1 true "R1" (Toy.operator "R1" "CCO" "CC=O" ["Any"] ["Any"]).2
                   Toy.ethanol_side.1 Toy.ethanol_side.2 ([], []) ["CC=O"]
     = Ok (admit_reaction "R1" Toy.ethanol_side.1 Toy.acetaldehyde_side.1 [] [])).
Proof.
  apply (C2_only_balanced_candidates_admitted [] [] 1 true "R1"
           (Toy.operator "R1" "CCO" "CC=O" ["Any"] ["Any"]).2
           [] ["CCO"] ["CC=O"] Toy.ethanol_side.1 Toy.acetaldehyde_side.1
           Toy.ethanol_side.2 Toy.acetaldehyde_side.2 ([], [])).
  - vm_compute. reflexivity.
  - vm_compute. reflexivity.
Defined.

(** ** Collecting the per-compound results *)

Section Collect.
Implicit Types (master res : dict compound * dict reaction).

Lemma collect_result_cpds_dom master res :
    dom_set (collect_result master res).1 = dom_set master.1 ∪ dom_set res.1.
  Proof. apply dom_set_dupdate. Qed.

Lemma collect_result_rxns_dom master res :
    dom_set (collect_result master res).2 = dom_set master.2 ∪ dom_set res.2.
  Proof.
    unfold collect_result. simpl. generalize (master.2) as m.
    induction (res.2) as [|[k r] l IH]; intros m; simpl.
    - unfold dom_set at 3. simpl. set_solver.
    - rewrite IH. unfold dom_set at 4. simpl. fold (dom_set l).
      destruct (dget m k) as [r0|] eqn:Hk.
      + assert (k ∈ dom_set m).
        { apply elem_of_dom_set, dget_is_Some. by eexists. }
        set_solver.
      + unfold dupdate. simpl. rewrite dom_set_dset. set_solver.
  Qed.

  (** A reaction already collected is left as it is, whatever the later
      result says about it: the union of the operator sets is computed and
      thrown away. *)
Lemma collect_result_keeps_first master res k r :
    dget master.2 k = Some r -> dget (collect_result master res).2 k = Some r.
  Proof.
    unfold collect_result. simpl. generalize (master.2) as m.
    induction (res.2) as [|[k' r'] l IH]; intros m Hm; simpl; [done|].
    apply IH. destruct (dget m k') eqn:Hk'; [done|].
    unfold dupdate. simpl. rewrite dget_dset_ne; [done|]. congruence.
  Qed.
End Collect.


(** ** Loops *)

Section ForEach.
Context {A S : Type}.
Implicit Types (body : S -> A -> result S) (l : list A) (s : S).

Lemma for_each_app body l1 l2 s :
    for_each body (l1 ++ l2) s = (s' ←! for_each body l1 s; for_each body l2 s').
  Proof.
    revert s. induction l1 as [|x l1 IH]; intros s; simpl; [done|].
    destruct (body s x) as [s'|e]; simpl; [apply IH | done].
  Qed.

  (** The invariant rule. *)
Lemma for_each_invariant body (P : S -> Prop) l s s' :
    P s ->
    (forall s x s', x ∈ l -> P s -> body s x = Ok s' -> P s') ->
    for_each body l s = Ok s' -> P s'.
  Proof.
    revert s. induction l as [|x l IH]; intros s Hs Hstep; simpl.
    - by intros [= <-].
    - destruct (body s x) as [s1|e] eqn:Hb; simpl; [|done].
      apply IH.
      + eapply Hstep; [left | done | done].
      + intros s2 y s3 Hy. apply Hstep. by right.
  Qed.

  (** A loop whose body cannot raise on the elements of the list ends. *)
Lemma for_each_total body l s :
    (forall s x, x ∈ l -> is_Ok (body s x)) -> is_Ok (for_each body l s).
  Proof.
    revert s. induction l as [|x l IH]; intros s Hstep; simpl; [done|].
    pose proof (Hstep s x ltac:(left)) as Hx.
    destruct (body s x) as [s1|e]; simpl; [|done].
    apply IH. intros s2 y Hy. apply Hstep. by right.
  Qed.
End ForEach.

(** ** Worker count and completion order *)

Section WorkerOrder.
Context `{TK : Toolkit}.

Section CollectLoop.
Variable f : string -> result (dict compound * dict reaction).

Abbreviation collect_body := (collect_body f).

Lemma collect_loop_is_Ok l init :
      is_Ok (for_each collect_body l init) <-> Forall (fun x => is_Ok (f x)) l.
    Proof.
      revert init. induction l as [|x l IH]; intros init; simpl.
      - split; [by constructor | done].
      - rewrite Forall_cons. unfold collect_body at 1.
        destruct (f x) as [res|e]; simpl; [|naive_solver].
        rewrite IH. naive_solver.
    Qed.

Lemma collect_loop_dom l init m :
      for_each collect_body l init = Ok m ->
      forall k,
        (k ∈ dom_set m.1 <->
           k ∈ dom_set init.1 ∨ exists x res, x ∈ l ∧ f x = Ok res ∧ k ∈ dom_set res.1)
        ∧ (k ∈ dom_set m.2 <->
           k ∈ dom_set init.2 ∨ exists x res, x ∈ l ∧ f x = Ok res ∧ k ∈ dom_set res.2).
    Proof.
      revert init. induction l as [|x l IH]; intros init; simpl.
      - intros [= <-] k. split; (split; [by left | intros [?|(?&?&?%elem_of_nil&_)]; done]).
      - unfold collect_body at 1. destruct (f x) as [res|e] eqn:Hfx; simpl; [|done].
        intros Hm k. destruct (IH _ Hm k) as [IH1 IH2].
        rewrite IH1, IH2, collect_result_cpds_dom, collect_result_rxns_dom.
        rewrite !elem_of_union. setoid_rewrite elem_of_cons.
        split; split.
        + intros [[H|H]|(y & r & Hy & Hf & Hk)];
            [by left | right; exists x, res; auto | right; exists y, r; auto].
        + intros [H|(y & r & [->|Hy] & Hf & Hk)].
          * left. by left.
          * left. right. rewrite Hfx in Hf. by injection Hf as <-.
          * right. exists y, r. auto.
        + intros [[H|H]|(y & r & Hy & Hf & Hk)];
            [by left | right; exists x, res; auto | right; exists y, r; auto].
        + intros [H|(y & r & [->|Hy] & Hf & Hk)].
          * left. by left.
          * left. right. rewrite Hfx in Hf. by injection Hf as <-.
          * right. exists y, r. auto.
    Qed.

    (** The collected id sets do not depend on the order of the results. *)
Lemma collect_loop_perm l1 l2 init :
      l1 ≡ₚ l2 ->
      (is_Ok (for_each collect_body l1 init) <-> is_Ok (for_each collect_body l2 init))
      ∧ (forall m1 m2,
            for_each collect_body l1 init = Ok m1 ->
            for_each collect_body l2 init = Ok m2 ->
            dom_set m1.1 = dom_set m2.1 ∧ dom_set m1.2 = dom_set m2.2).
    Proof.
      intros Hperm. split.
      - rewrite !collect_loop_is_Ok. by rewrite Hperm.
      - intros m1 m2 H1 H2.
        pose proof (collect_loop_dom _ _ _ H1) as D1.
        pose proof (collect_loop_dom _ _ _ H2) as D2.
        split; apply set_eq; intros k;
          destruct (D1 k) as [D11 D12]; destruct (D2 k) as [D21 D22].
        + rewrite D11, D21. by setoid_rewrite Hperm.
        + rewrite D12, D22. by setoid_rewrite Hperm.
    Qed.
End CollectLoop.

Lemma transform_all_unfold compound_smiles coreactants coreactant_dict operators
      generation explicit_h num_workers arrival :
    _transform_all_compounds_with_full compound_smiles coreactants coreactant_dict
      operators generation explicit_h num_workers arrival
    = for_each (collect_body (_transform_ind_compound_with_full coreactants
                                coreactant_dict operators generation explicit_h))
               (if 1 <? num_workers then arrival else compound_smiles) ([], []).
  Proof. done. Qed.

  (** *** [update_cpds_rxns] adds keys and never removes any *)

Lemma update_cpds_dom (compounds new_cpds : dict compound) :
    dom_set (update_cpds compounds new_cpds) = dom_set compounds ∪ dom_set new_cpds.
  Proof.
    unfold update_cpds. revert compounds.
    induction new_cpds as [|[k c] l IH]; intros compounds; simpl.
    - unfold dom_set at 3. simpl. set_solver.
    - rewrite IH. unfold dom_set at 4. simpl. fold (dom_set l).
      destruct (dmem k compounds) eqn:Hm.
      + apply dmem_true, elem_of_dom_set in Hm. set_solver.
      + rewrite dom_set_dset. set_solver.
  Qed.

Lemma dom_set_dset_present {V : Type} (d : dict V) k v :
    is_Some (dget d k) -> dom_set (dset d k v) = dom_set d.
  Proof.
    intros Hk%dget_is_Some%elem_of_dom_set. rewrite dom_set_dset. set_solver.
  Qed.

Lemma add_product_of_dom rxn_id (compounds : dict compound) p compounds' :
    add_product_of rxn_id compounds p = Ok compounds' -> dom_set compounds' = dom_set compounds.
  Proof.
    unfold add_product_of. destruct (dget compounds p) as [c|] eqn:Hp; simpl; [|done].
    destruct (Product_of c) as [l|]; simpl; [|done].
    case_bool_decide; intros [= <-]; [done|].
    apply dom_set_dset_present. by eexists.
  Qed.

Lemma add_reactant_in_dom rxn_id (compounds : dict compound) p compounds' :
    add_reactant_in rxn_id compounds p = Ok compounds' -> dom_set compounds' = dom_set compounds.
  Proof.
    unfold add_reactant_in. destruct (dget compounds p) as [c|] eqn:Hp; simpl; [|done].
    destruct (Reactant_in c) as [l|]; simpl; [|done].
    case_bool_decide; intros [= <-]; [done|].
    apply dom_set_dset_present. by eexists.
  Qed.

Lemma update_rxn_dom st kv st' :
    update_rxn st kv = Ok st' ->
    dom_set st'.1 = dom_set st.1 ∧ dom_set st'.2 = dom_set st.2 ∪ {[ kv.1 ]}.
  Proof.
    destruct st as [cs rs], kv as [rxn_id rxn_dict]. unfold update_rxn. simpl.
    destruct (match dget rs rxn_id with Some _ => _ | None => _ end) as [rs'|] eqn:Hrs;
      simpl; [|done].
    destruct (for_each (add_product_of rxn_id) _ cs) as [cs1|] eqn:H1; simpl; [|done].
    destruct (for_each (add_reactant_in rxn_id) _ cs1) as [cs2|] eqn:H2; simpl; [|done].
    intros [= <-]. simpl. split.
    - transitivity (dom_set cs1).
      + eapply (for_each_invariant _ (fun s => dom_set s = dom_set cs1)); [done| |exact H2].
        intros s x s' _ <-. apply add_reactant_in_dom.
      + eapply (for_each_invariant _ (fun s => dom_set s = dom_set cs)); [done| |exact H1].
        intros s x s' _ <-. apply add_product_of_dom.
    - destruct (dget rs rxn_id) as [r|] eqn:Hr.
      + destruct (Partial_Operators _) as [po|]; simpl in Hrs.
        * destruct (Partial_Operators rxn_dict); simpl in Hrs; [|done].
          injection Hrs as <-. rewrite dom_set_dset. done.
        * injection Hrs as <-. rewrite dom_set_dset. done.
      + injection Hrs as <-. apply dom_set_dset.
  Qed.

Lemma update_cpds_rxns_dom compounds reactions new_cpds new_rxns compounds' reactions' :
    update_cpds_rxns compounds reactions new_cpds new_rxns = Ok (compounds', reactions') ->
    dom_set compounds' = dom_set compounds ∪ dom_set new_cpds
    ∧ dom_set reactions' = dom_set reactions ∪ dom_set new_rxns.
  Proof.
    unfold update_cpds_rxns. rewrite <- update_cpds_dom.
    generalize (update_cpds compounds new_cpds) as cs. revert reactions.
    induction new_rxns as [|kv l IH]; intros rs cs; simpl.
    - intros [= <- <-]. unfold dom_set at 4. simpl. set_solver.
    - destruct (update_rxn (cs, rs) kv) as [[cs1 rs1]|] eqn:Hu; simpl; [|done].
      intros Hl. destruct (IH _ _ Hl) as [-> ->].
      destruct (update_rxn_dom _ _ _ Hu) as [Hc Hr]. simpl in Hc, Hr.
      rewrite Hc, Hr. split; [done|].
      unfold dom_set at 4. simpl. fold (dom_set l). set_solver.
  Qed.
End WorkerOrder.

(** C3 (as the code has it).  One expansion step ([_transform_helper]: the
    parallel map over the compounds, the collection of the results and their
    merge into the Registry) run with one worker, and run with
    [num_workers > 1] workers whose results arrive in any order [arrival]:
    the collection of the results completes in one run exactly when it does
    in the other, and when both steps succeed they end with the same compound
    ids and the same reaction ids.  Nothing is said of the records stored
    under these ids, nor of the generations that follow. *)
Theorem C3_worker_count_and_completion_order `{TK : Toolkit}
    (self : Pickaxe) (compound_smiles arrival : list string) (num_workers : Z) :
  arrival ≡ₚ compound_smiles ->
  1 < num_workers ->
  (forall coreactant_dict,
      is_Ok (_transform_all_compounds_with_full compound_smiles (coreactants self)
               coreactant_dict (operators self) (generation self) (explicit_h self)
               1 arrival)
      <-> is_Ok (_transform_all_compounds_with_full compound_smiles (coreactants self)
                   coreactant_dict (operators self) (generation self) (explicit_h self)
                   num_workers arrival))
  ∧ (forall pk1 pk2,
        _transform_helper self compound_smiles 1 arrival = Ok pk1 ->
        _transform_helper self compound_smiles num_workers arrival = Ok pk2 ->
        dom_set (compounds pk1) = dom_set (compounds pk2)
        ∧ dom_set (reactions pk1) = dom_set (reactions pk2)).
Proof.
  intros Hperm Hn. apply Z.ltb_lt in Hn. split.
  - intros cd. rewrite !transform_all_unfold, Hn. simpl.
    symmetry. by apply collect_loop_perm.
  - intros pk1 pk2. unfold _transform_helper.
    match goal with
    | |- context [for_each ?b (coreactants self) ?i] =>
        destruct (for_each b (coreactants self) i) as [cd|]; simpl; [|done]
    end.
    rewrite !transform_all_unfold, Hn. simpl.
    match goal with
    | |- context [for_each ?b compound_smiles ?i] =>
        destruct (for_each b compound_smiles i) as [[c1 r1]|] eqn:H1; simpl; [|done]
    end.
    match goal with
    | |- context [for_each ?b arrival ?i] =>
        destruct (for_each b arrival i) as [[c2 r2]|] eqn:H2; simpl; [|done]
    end.
    destruct (update_cpds_rxns _ _ c1 r1) as [[c1' r1']|] eqn:U1; simpl; [|done].
    destruct (update_cpds_rxns _ _ c2 r2) as [[c2' r2']|] eqn:U2; simpl; [|done].
    intros [= <-] [= <-]. simpl.
    destruct (update_cpds_rxns_dom _ _ _ _ _ _ U1) as [-> ->].
    destruct (update_cpds_rxns_dom _ _ _ _ _ _ U2) as [-> ->].
    destruct (collect_loop_perm
                (_transform_ind_compound_with_full (coreactants self) cd
                   (operators self) (generation self) (explicit_h self))
                _ _ ([], []) Hperm) as [_ Hdom].
    destruct (Hdom _ _ H2 H1) as [Hc Hr]. simpl in Hc, Hr.
    by rewrite Hc, Hr.
Qed.

(** The theorem at the two spellings of ethanol: four workers that complete
    in the reverse order. *)
Lemma C3_worker_count_and_completion_order_witness :
  (forall coreactant_dict,
      is_Ok (_transform_all_compounds_with_full ["CCO"; "OCC"] [] coreactant_dict
               Toy.ethanol_rules 1 true 1 ["OCC"; "CCO"])
      <-> is_Ok (_transform_all_compounds_with_full ["CCO"; "OCC"] [] coreactant_dict
                   Toy.ethanol_rules 1 true 4 ["OCC"; "CCO"]))
  ∧ (forall pk1 pk2,
        _transform_helper (Toy.with_generation Toy.ethanol_seeded 1)
                          ["CCO"; "OCC"] 1 ["OCC"; "CCO"] = Ok pk1 ->
        _transform_helper (Toy.with_generation Toy.ethanol_seeded 1)
                          ["CCO"; "OCC"] 4 ["OCC"; "CCO"] = Ok pk2 ->
        dom_set (compounds pk1) = dom_set (compounds pk2)
        ∧ dom_set (reactions pk1) = dom_set (reactions pk2)).
Proof.
  apply (C3_worker_count_and_completion_order
           (Toy.with_generation Toy.ethanol_seeded 1) ["CCO"; "OCC"] ["OCC"; "CCO"] 4).
  - apply perm_swap.
  - lia.
Defined.

Section RunKeys.
Context `{TK : Toolkit}.

Lemma finished_run_keys (m : option (result Pickaxe)) (cs rs : list string) :
  (r ← m; pk ← returned r; Some (dkeys (compounds pk), dkeys (reactions pk))) = Some (cs, rs) ->
  exists pk, m = Some (Ok pk) ∧ dkeys (compounds pk) = cs ∧ dkeys (reactions pk) = rs.
Proof.
  destruct m as [[pk|]|]; simpl; [|done|done]. intros [= <- <-]. by exists pk.
Qed.

Lemma dom_set_differs {V : Type} (d1 d2 : dict V) (k : string) :
  k ∉ dkeys d1 -> k ∈ dkeys d2 -> dom_set d1 <> dom_set d2.
Proof.
  intros H1 H2 Heq. apply H1. rewrite <- elem_of_dom_set, Heq. by apply elem_of_dom_set.
Qed.
End RunKeys.

(** C3, as stated, fails.  Two seeds, three rules, two generations, and ids
    that do not see the stereo marks.  Both products of the first generation
    get the same id, and the record that arrives last is the one stored
    under it.  With one worker that is the product of the second seed, which
    no rule transforms; with two workers that complete in the reverse order
    it is the product of the first seed, which the second generation
    transforms.  The two runs end with different compound ids and different
    reaction ids. *)
Lemma C3_two_generations_counterexample :
  expand_order Chiral.reversed 1 ≡ₚ submitted Chiral.seeded
  ∧ expand_order Chiral.reversed 2
      ≡ₚ submitted (Chiral.get_run (transform_all Chiral.seeded 2 1 Chiral.reversed))
  ∧ exists pk1 pk2,
      transform_all Chiral.seeded 1 2 Chiral.reversed = Some (Ok pk1)
      ∧ transform_all Chiral.seeded 2 2 Chiral.reversed = Some (Ok pk2)
      ∧ dkeys (compounds pk1) = ["CCC(=N)OF"; "CCC(=O)NF"; "CC[C](O)(F)N"]
      ∧ dkeys (compounds pk2)
        = ["CCC(=N)OF"; "CCC(=O)NF"; "CC[C](O)(F)N"; "CCC(O)(N)F"]
      ∧ dom_set (compounds pk1) <> dom_set (compounds pk2)
      ∧ dom_set (reactions pk1) <> dom_set (reactions pk2).
Proof.
  split; [vm_compute; apply perm_swap|].
  split; [vm_compute; reflexivity|].
  destruct (finished_run_keys (transform_all Chiral.seeded 1 2 Chiral.reversed)
              ["CCC(=N)OF"; "CCC(=O)NF"; "CC[C](O)(F)N"]
              ["RCCC(=N)OF => CC[C](O)(F)N"; "RCCC(=O)NF => CC[C](O)(F)N"])
    as (pk1 & H1 & Kc1 & Kr1); [vm_compute; reflexivity|].
  destruct (finished_run_keys (transform_all Chiral.seeded 2 2 Chiral.reversed)
              ["CCC(=N)OF"; "CCC(=O)NF"; "CC[C](O)(F)N"; "CCC(O)(N)F"]
              ["RCCC(=O)NF => CC[C](O)(F)N"; "RCCC(=N)OF => CC[C](O)(F)N";
               "RCC[C](O)(F)N => CCC(O)(N)F"])
    as (pk2 & H2 & Kc2 & Kr2); [vm_compute; reflexivity|].
  exists pk1, pk2. split; [exact H1|]. split; [exact H2|].
  split; [exact Kc1|]. split; [exact Kc2|]. split.
  - apply (dom_set_differs _ _ "CCC(O)(N)F"); [rewrite Kc1|rewrite Kc2];
      apply (bool_decide_unpack _); vm_compute; exact I.
  - apply (dom_set_differs _ _ "RCC[C](O)(F)N => CCC(O)(N)F"); [rewrite Kr1|rewrite Kr2];
      apply (bool_decide_unpack _); vm_compute; exact I.
Qed.

(** ** Inserting a compound that is already stored *)

Section Reinsert.
Context `{TK : Toolkit}.

Lemma refs_grow_refl o : refs_grow o o.
  Proof. destruct o; simpl; [reflexivity | done]. Qed.

Lemma refs_grow_trans o1 o2 o3 : refs_grow o1 o2 -> refs_grow o2 o3 -> refs_grow o1 o3.
  Proof.
    destruct o1, o2, o3; simpl; try done. intros. by etransitivity.
  Qed.

Lemma refs_grow_append l x : refs_grow (Some l) (Some (l ++ [x])%list).
  Proof. simpl. by apply prefix_app_r. Qed.

Lemma only_refs_grow_refl c : only_refs_grow c c.
  Proof. unfold only_refs_grow. split_and!; auto using refs_grow_refl. Qed.

Lemma only_refs_grow_trans c1 c2 c3 :
    only_refs_grow c1 c2 -> only_refs_grow c2 c3 -> only_refs_grow c1 c3.
  Proof.
    unfold only_refs_grow. intros (?&?&?&?&?&?&?&?&?&?&?) (?&?&?&?&?&?&?&?&?&?&?).
    split_and!; try congruence; by eapply refs_grow_trans.
  Qed.

Lemma extends_refl cs : extends cs cs.
  Proof. intros k c Hk. exists c. auto using only_refs_grow_refl. Qed.

Lemma extends_trans cs1 cs2 cs3 : extends cs1 cs2 -> extends cs2 cs3 -> extends cs1 cs3.
  Proof.
    intros H12 H23 k c Hk. destruct (H12 k c Hk) as (c2 & Hk2 & Hg2).
    destruct (H23 k c2 Hk2) as (c3 & Hk3 & Hg3).
    exists c3. split; [done|]. by eapply only_refs_grow_trans.
  Qed.

Lemma extends_dset cs k c c' :
    dget cs k = Some c -> only_refs_grow c c' -> extends cs (dset cs k c').
  Proof.
    intros Hk Hg k0 c0 Hk0. rewrite dget_dset. case_decide as Heq.
    - subst. exists c'. split; [done|]. congruence.
    - exists c0. auto using only_refs_grow_refl.
  Qed.

Lemma update_cpds_extends cs new_cpds : extends cs (update_cpds cs new_cpds).
  Proof.
    unfold update_cpds. revert cs. induction new_cpds as [|[k v] l IH]; intros cs; simpl.
    - apply extends_refl.
    - eapply extends_trans; [|apply IH].
      destruct (dmem k cs) eqn:Hm; [apply extends_refl|].
      intros k0 c0 Hk0. exists c0. split; [|apply only_refs_grow_refl].
      rewrite dget_dset_ne; [done|]. intros ->.
      apply dmem_false, dget_None in Hm. congruence.
  Qed.

Lemma add_product_of_extends rxn_id cs p cs' :
    add_product_of rxn_id cs p = Ok cs' -> extends cs cs'.
  Proof.
    unfold add_product_of. destruct (dget cs p) as [c|] eqn:Hp; simpl; [|done].
    destruct (Product_of c) as [l|] eqn:Hl; simpl; [|done].
    case_bool_decide; intros [= <-]; [apply extends_refl|].
    eapply extends_dset; [done|].
    unfold only_refs_grow, set_Product_of. simpl. rewrite Hl.
    split_and!; auto using refs_grow_refl, refs_grow_append.
  Qed.

Lemma add_reactant_in_extends rxn_id cs p cs' :
    add_reactant_in rxn_id cs p = Ok cs' -> extends cs cs'.
  Proof.
    unfold add_reactant_in. destruct (dget cs p) as [c|] eqn:Hp; simpl; [|done].
    destruct (Reactant_in c) as [l|] eqn:Hl; simpl; [|done].
    case_bool_decide; intros [= <-]; [apply extends_refl|].
    eapply extends_dset; [done|].
    unfold only_refs_grow, set_Reactant_in. simpl. rewrite Hl.
    split_and!; auto using refs_grow_refl, refs_grow_append.
  Qed.

Lemma update_rxn_extends st kv st' : update_rxn st kv = Ok st' -> extends st.1 st'.1.
  Proof.
    destruct st as [cs rs], kv as [rxn_id rxn_dict]. unfold update_rxn. simpl.
    destruct (match dget rs rxn_id with Some _ => _ | None => _ end) as [rs'|]; simpl; [|done].
    destruct (for_each (add_product_of rxn_id) _ cs) as [cs1|] eqn:H1; simpl; [|done].
    destruct (for_each (add_reactant_in rxn_id) _ cs1) as [cs2|] eqn:H2; simpl; [|done].
    intros [= <-]. simpl. apply (extends_trans _ cs1).
    - eapply (for_each_invariant _ (extends cs)); [apply extends_refl| |exact H1].
      intros s x s' _ Hs Hx. eapply extends_trans; [exact Hs|]. by eapply add_product_of_extends.
    - eapply (for_each_invariant _ (extends cs1)); [apply extends_refl| |exact H2].
      intros s x s' _ Hs Hx. eapply extends_trans; [exact Hs|]. by eapply add_reactant_in_extends.
  Qed.

Lemma update_cpds_rxns_extends compounds reactions new_cpds new_rxns compounds' reactions' :
    update_cpds_rxns compounds reactions new_cpds new_rxns = Ok (compounds', reactions') ->
    extends compounds compounds'.
  Proof.
    unfold update_cpds_rxns. intros Hu.
    eapply extends_trans; [apply (update_cpds_extends _ new_cpds)|].
    apply (for_each_invariant update_rxn
             (fun st => extends (update_cpds compounds new_cpds) st.1)
             new_rxns (update_cpds compounds new_cpds, reactions) (compounds', reactions')
             (extends_refl _)) in Hu; [exact Hu|].
    intros s x s' _ Hs Hx. eapply extends_trans; [exact Hs|]. by eapply update_rxn_extends.
  Qed.
End Reinsert.

(** C4.  A compound with the same structure and role class as one already in
    the compound store hashes to the id [cpd_id] of the stored dictionary
    [c].  [_add_compound] then leaves the compound and reaction stores as
    they are, in whatever generation it is called; and when a merge
    ([update_cpds_rxns]) brings in new compounds and reactions, among them
    possibly one under [cpd_id], the stored dictionary keeps its ['_id'],
    ['SMILES'], ['Generation'] and every other field, except that
    ['Product_of'] and ['Reactant_in'] may have grown at the end. *)
Theorem C4_reinsert_keeps_identity `{TK : Toolkit}
    (self : Pickaxe) (cpd_name smi cpd_type : string) (mol : option Mol)
    (cpd_id : string) (c : compound) :
  compound_hash smi cpd_type = Some cpd_id ->
  cpd_id <> "" ->
  dget (compounds self) cpd_id = Some c ->
  (exists self',
      _add_compound self cpd_name smi cpd_type mol = Ok (self', Some cpd_id)
      ∧ compounds self' = compounds self ∧ reactions self' = reactions self)
  ∧ (forall new_cpds new_rxns compounds' reactions',
        update_cpds_rxns (compounds self) (reactions self) new_cpds new_rxns
          = Ok (compounds', reactions') ->
        exists c', dget compounds' cpd_id = Some c' ∧ only_refs_grow c c').
Proof.
  intros Hhash Hne Hc. split.
  - unfold _add_compound. rewrite Hhash. rewrite bool_decide_eq_false_2 by done.
    simpl. replace (dmem cpd_id (compounds self)) with true.
    + eexists. split; [done|]. done.
    + symmetry. apply dmem_true, dget_is_Some. by eexists.
  - intros new_cpds new_rxns compounds' reactions' Hu.
    by apply (update_cpds_rxns_extends _ _ _ _ _ _ Hu).
Qed.

(** The theorem at ethanol, inserted again after the first expansion. *)
Lemma C4_reinsert_keeps_identity_witness :
  exists c,
    dget (compounds Toy.ethanol_expanded) "CCCO" = Some c
    ∧ (exists self',
          _add_compound Toy.ethanol_expanded "again" "CCO" "Starting Compound" None
            = Ok (self', Some "CCCO")
          ∧ compounds self' = compounds Toy.ethanol_expanded
          ∧ reactions self' = reactions Toy.ethanol_expanded)
    ∧ (forall new_cpds new_rxns compounds' reactions',
          update_cpds_rxns (compounds Toy.ethanol_expanded) (reactions Toy.ethanol_expanded)
                           new_cpds new_rxns = Ok (compounds', reactions') ->
          exists c', dget compounds' "CCCO" = Some c' ∧ only_refs_grow c c').
Proof.
  eexists. split; [vm_compute; reflexivity|].
  apply (C4_reinsert_keeps_identity Toy.ethanol_expanded "again" "CCO"
           "Starting Compound" None "CCCO").
  - vm_compute. reflexivity.
  - done.
  - vm_compute. reflexivity.
Defined.

(** ** The filter engine: the monotonic Tanimoto policy *)

Section IncreasingTani.
Context `{TK : Toolkit}.

Lemma find_first {A : Type} (P : A -> bool) (pre : list A) (x : A) (post : list A) :
    Forall (fun y => P y = false) pre -> P x = true ->
    find P (pre ++ x :: post) = Some x.
  Proof.
    intros Hpre Hx. induction Hpre as [|y pre Hy _ IH]; simpl.
    - by rewrite Hx.
    - by rewrite Hy.
  Qed.

Lemma Qle_bool_false (a b : Q) : ~ (a <= b)%Q -> Qle_bool a b = false.
  Proof.
    intros Hn. destruct (Qle_bool a b) eqn:Hb; [|done].
    by apply Qle_bool_iff in Hb.
  Qed.

  (** [_compare_target_fps] reports the similarity to the first target, in
      list order, that reaches the threshold. *)
Lemma compare_target_fps_first (target_fps : list Fingerprint) (crit_tani : Q)
      (c_id smiles : string) (fp1 : Fingerprint) pre fp2 post :
    get_fp smiles = Some fp1 ->
    target_fps = (pre ++ fp2 :: post)%list ->
    Forall (fun t => ~ (crit_tani <= FingerprintSimilarity fp1 t)%Q) pre ->
    (crit_tani <= FingerprintSimilarity fp1 fp2)%Q ->
    _compare_target_fps target_fps crit_tani (c_id, smiles)
    = (c_id, FingerprintSimilarity fp1 fp2).
  Proof.
    intros Hfp -> Hpre Hfp2. unfold _compare_target_fps. simpl. rewrite Hfp.
    rewrite (find_first _ pre fp2 post); [done| |by apply Qle_bool_iff].
    eapply Forall_impl; [exact Hpre|]. intros t Ht. by apply Qle_bool_false.
  Qed.
End IncreasingTani.

(** C5 (as the code has it).  With increasing-similarity filtering enabled,
    take a compound for which some target reaches the generation's
    threshold.  The score [current_val] that decides is the similarity to the
    first such target in list order, not the best one.  If [current_val] is
    greater than or equal to the stored ['last_tani'], the stored value
    becomes [current_val] and ['Expand'] is left as it was; if it is strictly
    below, ['Expand'] is set to false and ['last_tani'] is left as it was. *)
Theorem C5_increasing_tani_first_match `{TK : Toolkit}
    (compounds : dict compound) (c_id smiles : string) (c : compound)
    (target_fps : list Fingerprint) (crit_tani : Q)
    (fp1 : Fingerprint) (pre : list Fingerprint) (fp2 : Fingerprint)
    (post : list Fingerprint) :
  dget compounds c_id = Some c ->
  get_fp smiles = Some fp1 ->
  target_fps = (pre ++ fp2 :: post)%list ->
  Forall (fun t => ~ (crit_tani <= FingerprintSimilarity fp1 t)%Q) pre ->
  (crit_tani <= FingerprintSimilarity fp1 fp2)%Q ->
  ~ (FingerprintSimilarity fp1 fp2 == -1)%Q ->
  let current_val := FingerprintSimilarity fp1 fp2 in
  _compare_target_fps target_fps crit_tani (c_id, smiles) = (c_id, current_val)
  ∧ ((last_tani c <= current_val)%Q ->
     apply_filter_result "tani" true compounds (c_id, current_val)
     = Ok (dset compounds c_id (set_last_tani c current_val)))
  ∧ ((current_val < last_tani c)%Q ->
     apply_filter_result "tani" true compounds (c_id, current_val)
     = Ok (dset compounds c_id (set_Expand c false))).
Proof.
  intros Hc Hfp Htargets Hpre Hfp2 Hsentinel current_val.
  split; [by eapply compare_target_fps_first|].
  assert (Qeq_bool current_val (-1) = false) as Hne.
  { destruct (Qeq_bool current_val (-1)) eqn:Hb; [|done].
    by apply Qeq_bool_iff in Hb. }
  unfold apply_filter_result. rewrite Hc. simpl. rewrite Hne.
  split.
  - intros Hle. apply Qle_bool_iff in Hle. by rewrite Hle.
  - intros Hlt. rewrite Qle_bool_false; [done|]. by apply Qlt_not_le.
Qed.

(** The theorem at the compound "CNOS" with the targets "CN" and "CNOSP"
    and the threshold 3/10: the first target already reaches it. *)
Lemma C5_increasing_tani_first_match_witness :
  exists c,
    dget (compounds Toy.tani_seeded) "CCNOS" = Some c
    ∧ _compare_target_fps (target_fps Toy.tani_seeded) (3 # 10) ("CCNOS", "CNOS")
      = ("CCNOS", Toy.tanimoto (Toy.chars "CNOS") (Toy.chars "CN"))
    ∧ ((last_tani c <= Toy.tanimoto (Toy.chars "CNOS") (Toy.chars "CN"))%Q ->
       apply_filter_result "tani" true (compounds Toy.tani_seeded)
         ("CCNOS", Toy.tanimoto (Toy.chars "CNOS") (Toy.chars "CN"))
       = Ok (dset (compounds Toy.tani_seeded) "CCNOS"
               (set_last_tani c (Toy.tanimoto (Toy.chars "CNOS") (Toy.chars "CN")))))
    ∧ ((Toy.tanimoto (Toy.chars "CNOS") (Toy.chars "CN") < last_tani c)%Q ->
       apply_filter_result "tani" true (compounds Toy.tani_seeded)
         ("CCNOS", Toy.tanimoto (Toy.chars "CNOS") (Toy.chars "CN"))
       = Ok (dset (compounds Toy.tani_seeded) "CCNOS" (set_Expand c false))).
Proof.
  eexists. split; [vm_compute; reflexivity|].
  apply (C5_increasing_tani_first_match (compounds Toy.tani_seeded) "CCNOS" "CNOS" _
           (target_fps Toy.tani_seeded) (3 # 10) (Toy.chars "CNOS") []
           (Toy.chars "CN") [Toy.chars "CNOSP"]).
  - vm_compute. reflexivity.
  - reflexivity.
  - reflexivity.
  - constructor.
  - vm_compute. discriminate.
  - vm_compute. discriminate.
Defined.

(** C5, as stated, fails.  The best Tanimoto score of "CNOS" against the
    targets "CN" and "CNOSP" is 4/5, above the threshold 3/10 and above the
    stored ['last_tani'] 0, but [_filter_by] stores 2/4, the score of the
    first target.  In a second round that starts from the stored value 4/5
    the best score still equals the stored value, yet the flag loop sets
    ['Expand'] to false (the first target scores 2/4) and the removal pass
    then deletes the compound. *)
Lemma C5_best_score_counterexample :
  increasing_tani Toy.tani_seeded = true
  ∧ (best_score (FingerprintSimilarity (Toy.chars "CNOS") <$> target_fps Toy.tani_seeded)
     == 4 # 5)%Q
  ∧ (3 # 10 <= 4 # 5)%Q
  ∧ last_tani <$> dget (compounds Toy.tani_seeded) "CCNOS" = Some 0%Q
  ∧ (pk' ← returned (_filter_by Toy.tani_seeded "tani" 1 []);
     last_tani <$> dget (compounds pk') "CCNOS") = Some (2 # 4)
  ∧ ~ (2 # 4 == 4 # 5)%Q
  ∧ last_tani <$> dget (compounds Toy.tani_second_round) "CCNOS" = Some (4 # 5)
  ∧ (cs ← returned (for_each (apply_filter_result "tani" true)
                      (_filter_by_tani_helper [("CCNOS", "CNOS")]
                         (target_fps Toy.tani_second_round) (3 # 10) 1 false [])
                      (compounds Toy.tani_second_round));
     Expand <$> dget cs "CCNOS") = Some false
  ∧ (pk' ← returned (_filter_by Toy.tani_second_round "tani" 1 []);
     Some (dkeys (compounds pk'))) = Some [].
Proof.
  split_and!; try (vm_compute; reflexivity); vm_compute; discriminate.
Qed.

(** ** The filter engine: the removal pass *)

Section RemovalPass.
Context `{TK : Toolkit} `{RT : PyRuntime}.


Lemma elem_of_remove_first x l y : y ∈ remove_first x l -> y ∈ l.
  Proof.
    induction l as [|z l IH]; simpl; [done|].
    case_decide; rewrite ?elem_of_cons; naive_solver.
  Qed.



  (** *** Stripping back-references keeps the keys *)

Lemma dkeys_dset_present {V : Type} (d : dict V) k v :
    is_Some (dget d k) -> dkeys (dset d k v) = dkeys d.
  Proof.
    intros Hk. rewrite dkeys_dset. replace (dmem k d) with true; [done|].
    symmetry. by apply dmem_true, dget_is_Some.
  Qed.

Lemma strip_product_of_keys rxn_id cs p cs' :
    strip_product_of rxn_id cs p = Ok cs' -> dkeys cs' = dkeys cs.
  Proof.
    unfold strip_product_of. destruct (startswith p "C"); [|by intros [= <-]].
    destruct (dget cs p) as [c|] eqn:Hp; simpl; [|done].
    destruct (Product_of c) as [l|]; simpl; [|done].
    case_bool_decide; intros [= <-]; [|done].
    apply dkeys_dset_present. by eexists.
  Qed.

Lemma strip_reactant_in_keys rxn_id cs p cs' :
    strip_reactant_in rxn_id cs p = Ok cs' -> dkeys cs' = dkeys cs.
  Proof.
    unfold strip_reactant_in. destruct (startswith p "C"); [|by intros [= <-]].
    destruct (dget cs p) as [c|] eqn:Hp; simpl; [|done].
    destruct (Reactant_in c) as [l|]; simpl; [|done].
    case_bool_decide; intros [= <-]; [|done].
    apply dkeys_dset_present. by eexists.
  Qed.

Lemma for_each_keys (step : dict compound -> string -> result (dict compound)) l cs cs' :
    (forall s x s', step s x = Ok s' -> dkeys s' = dkeys s) ->
    for_each step l cs = Ok cs' -> dkeys cs' = dkeys cs.
  Proof.
    intros Hstep. apply (for_each_invariant step (fun s => dkeys s = dkeys cs)); [done|].
    intros s x s' _ <-. apply Hstep.
  Qed.

  (** *** The state of the loop over [rxns_to_check] *)


  (** *** The loop that queues the compounds *)


  (** *** Deleting the queue *)

Lemma delete_queue_keeps (cs : dict compound) Q (cs' : dict compound) k :
    for_each ddel_checked Q cs = Ok cs' -> k ∈ dkeys cs -> k ∉ Q -> k ∈ dkeys cs'.
  Proof.
    revert cs. induction Q as [|q Q IH]; intros cs; simpl.
    - by intros [= <-].
    - unfold ddel_checked at 1. destruct (dmem q cs); simpl; [|done].
      intros HQ Hk [Hne Hnotin]%not_elem_of_cons.
      apply (IH _ HQ); [|done].
      apply dget_is_Some. rewrite dget_ddel_ne by done. by apply dget_is_Some.
  Qed.

End RemovalPass.

Section FilterBy.
Context `{TK : Toolkit} `{RT : PyRuntime}.

  (** The loop over [cpds_to_ignore] only writes ['Expand'] and
      ['last_tani']. *)
Lemma apply_filter_result_fields measure increasing cs res cs' :
    apply_filter_result measure increasing cs res = Ok cs' ->
    dkeys cs' = dkeys cs
    ∧ (forall k c', dget cs' k = Some c' ->
         exists c, dget cs k = Some c ∧ _id c' = _id c ∧ Product_of c' = Product_of c).
  Proof.
    destruct res as [c_id v]. unfold apply_filter_result.
    destruct (dget cs c_id) as [c|] eqn:Hc; simpl; [|done].
    assert (forall c1, _id c1 = _id c -> Product_of c1 = Product_of c ->
              dkeys (dset cs c_id c1) = dkeys cs
              ∧ (forall k c', dget (dset cs c_id c1) k = Some c' ->
                   exists c0, dget cs k = Some c0 ∧ _id c' = _id c0
                              ∧ Product_of c' = Product_of c0)) as Hset.
    { intros c1 Hid Hpo. split; [apply dkeys_dset_present; by eexists|].
      intros k c'. rewrite dget_dset. case_decide as Heq.
      - intros [= <-]. subst. by exists c.
      - intros Hk. by exists c'. }
    assert (dkeys cs = dkeys cs
            ∧ (forall k c', dget cs k = Some c' ->
                 exists c0, dget cs k = Some c0 ∧ _id c' = _id c0
                            ∧ Product_of c' = Product_of c0)) as Hsame.
    { split; [done|]. intros k c' Hk. by exists c'. }
    destruct (Qeq_bool v (-1)); [intros [= <-]; by apply Hset|].
    destruct (bool_decide (measure = "tani") && increasing); [|by intros [= <-]].
    destruct (Qle_bool (last_tani c) v); intros [= <-]; by apply Hset.
  Qed.

Lemma flag_loop_fields measure increasing l cs cs' :
    for_each (apply_filter_result measure increasing) l cs = Ok cs' ->
    dkeys cs' = dkeys cs
    ∧ (forall k c', dget cs' k = Some c' ->
         exists c, dget cs k = Some c ∧ _id c' = _id c ∧ Product_of c' = Product_of c).
  Proof.
    apply (for_each_invariant (apply_filter_result measure increasing)
             (fun s => dkeys s = dkeys cs
                       ∧ (forall k c', dget s k = Some c' ->
                            exists c, dget cs k = Some c ∧ _id c' = _id c
                                      ∧ Product_of c' = Product_of c))).
    - split; [done|]. intros k c' Hk. by exists c'.
    - intros s x s' _ [Hk Hf] Hstep.
      destruct (apply_filter_result_fields _ _ _ _ _ Hstep) as [Hk' Hf'].
      split; [congruence|]. intros k c' Hc'.
      destruct (Hf' k c' Hc') as (c1 & Hc1 & ? & ?).
      destruct (Hf k c1 Hc1) as (c0 & Hc0 & ? & ?).
      exists c0. split_and!; congruence.
  Qed.
End FilterBy.


(** Closed decidable facts are settled by evaluation. *)
Ltac by_compute := apply (bool_decide_unpack _); vm_compute; exact I.

(** Checking the well-formedness conditions on a concrete Registry. *)
Lemma keys_are_ids_check (cs : dict compound) :
  Forall (fun kc : string * compound => _id kc.2 = kc.1) cs -> keys_are_ids cs.
Proof.
  intros Hall k c Hk%dget_Some_elem.
  rewrite Forall_forall in Hall. apply (Hall _ Hk).
Qed.




(** ** Loading the rule file *)

Section LoadOperators.
Context `{TK : Toolkit}.

Lemma load_rule_ok (self : Pickaxe) (skipped : Z) (row : rule_row) :
    roles_declared (coreactants self) row = true ->
    is_Some (ReactionFromSmarts (row_SMARTS row)) ->
    row_Name row ∉ dkeys (operators self) ->
    exists self',
      load_rule (self, skipped) row
      = Ok (self', if arity_mismatch row then skipped + 1 else skipped)
      ∧ coreactants self' = coreactants self
      ∧ compounds self' = compounds self
      ∧ dkeys (operators self') = (dkeys (operators self) ++ [row_Name row])%list.
  Proof.
    intros Hroles [rxn Hrxn] Hfresh. unfold load_rule, arity_mismatch.
    unfold roles_declared in Hroles. rewrite Hroles, Hrxn.
    apply dmem_false in Hfresh. rewrite Hfresh.
    eexists. split; [reflexivity|]. simpl. split_and!; [done|done|].
    by rewrite dkeys_dset, Hfresh.
  Qed.

Lemma load_rules_ok (rows : list rule_row) (self : Pickaxe) (skipped : Z) :
    Forall (fun row => roles_declared (coreactants self) row = true
                       ∧ is_Some (ReactionFromSmarts (row_SMARTS row))) rows ->
    NoDup (row_Name <$> rows) ->
    (forall row, row ∈ rows -> row_Name row ∉ dkeys (operators self)) ->
    exists self',
      for_each load_rule rows (self, skipped)
      = Ok (self', skipped + Z.of_nat (length (List.filter arity_mismatch rows)))
      ∧ coreactants self' = coreactants self
      ∧ compounds self' = compounds self.
  Proof.
    revert self skipped. induction rows as [|row rows IH]; intros self skipped Hall Hnd Hfresh.
    - exists self. simpl. split; [by rewrite Z.add_0_r|done].
    - apply Forall_cons in Hall as [[Hroles Hparse] Hall].
      rewrite fmap_cons in Hnd. apply NoDup_cons in Hnd as [Hname Hnd].
      destruct (load_rule_ok self skipped row Hroles Hparse) as (self1 & Hstep & Hco & Hcs & Hops).
      { apply Hfresh. left. }
      destruct (IH self1 (if arity_mismatch row then skipped + 1 else skipped))
        as (self' & Hrest & Hco' & Hcs').
      + rewrite Hco. done.
      + done.
      + intros row' Hin. rewrite Hops. rewrite elem_of_app, list_elem_of_singleton.
        intros [Hold|Heq].
        * by apply (Hfresh row'); [right|].
        * apply Hname. rewrite <- Heq. by apply list_elem_of_fmap_2.
      + exists self'.
        change (for_each load_rule (row :: rows) (self, skipped))
          with (rbind (load_rule (self, skipped) row)
                      (fun s' => for_each load_rule rows s')).
        rewrite Hstep. cbn [rbind]. rewrite Hrest.
        split; [|split; congruence]. do 2 f_equal.
        cbn [List.filter]. destruct (arity_mismatch row); cbn [length]; lia.
  Qed.
End LoadOperators.

(** C7 (as the code has it).  A rule whose reactant or product role list
    disagrees in length with the arity of its template does not make the
    load fail.  When every role of every row is declared, every template
    parses and the names are distinct and new, [_load_operators] returns
    normally, and its counter [skipped], which the final warning prints, is
    the number of rows with an arity mismatch; the coreactants and the
    compound store are as before. *)
Theorem C7_arity_mismatch_is_counted_not_fatal `{TK : Toolkit}
    (self : Pickaxe) (rows : list rule_row) :
  Forall (fun row => roles_declared (coreactants self) row = true
                     ∧ is_Some (ReactionFromSmarts (row_SMARTS row))) rows ->
  NoDup (row_Name <$> rows) ->
  (forall row, row ∈ rows -> row_Name row ∉ dkeys (operators self)) ->
  exists self',
    _load_operators self rows
    = Ok (self', Z.of_nat (length (List.filter arity_mismatch rows)))
    ∧ coreactants self' = coreactants self
    ∧ compounds self' = compounds self.
Proof.
  intros Hall Hnd Hfresh. unfold _load_operators.
  destruct (load_rules_ok rows self 0 Hall Hnd Hfresh) as (self' & Hload & ? & ?).
  exists self'. by rewrite Hload.
Qed.

(** The theorem at a rule file of two rows, the first with one product
    template and two product roles. *)
Lemma C7_arity_mismatch_is_counted_not_fatal_witness :
  exists self',
    _load_operators Toy.water_declared [Toy.oxidation_row; Toy.hydration_row]
    = Ok (self', Z.of_nat (length (List.filter arity_mismatch
                                     [Toy.oxidation_row; Toy.hydration_row])))
    ∧ coreactants self' = coreactants Toy.water_declared
    ∧ compounds self' = compounds Toy.water_declared.
Proof.
  apply (C7_arity_mismatch_is_counted_not_fatal Toy.water_declared
           [Toy.oxidation_row; Toy.hydration_row]).
  - repeat constructor; vm_compute; eauto.
  - by_compute.
  - intros row _. vm_compute. by intros ?%elem_of_nil.
Defined.

(** C7, as stated, fails.  The first row has an arity mismatch, and the load
    returns normally, with the mismatched rule stored in the operator table
    and counted once. *)
Lemma C7_mismatched_rule_loaded_counterexample :
  arity_mismatch Toy.oxidation_row = true
  ∧ (r ← returned (_load_operators Toy.water_declared [Toy.oxidation_row]);
     Some (dkeys (operators r.1), r.2)) = Some (["R1"], 1).
Proof. split; vm_compute; reflexivity. Qed.

(** ** Disconnected structures *)

Section Fragments.
Context `{TK : Toolkit} `{RT : PyRuntime}.

  (** A half reaction with a wildcard slot whose compound cannot be
      generated is never built. *)
Lemma collect_rejects coreactant_mols coreactant_dict generation explicit_h
      local_cpds (pairs : list (Mol * string)) (mol : Mol) cpds counter r :
    (mol, "Any") ∈ pairs ->
    _run_reaction_gen_compound generation explicit_h local_cpds mol = None ->
    _make_half_rxn_collect coreactant_mols coreactant_dict generation explicit_h
                           local_cpds pairs cpds counter <> Ok (Some r).
  Proof.
    intros Hin Hgen. revert cpds counter.
    induction pairs as [|[m rule] pairs IH]; intros cpds counter; simpl.
    - by apply elem_of_nil in Hin.
    - apply elem_of_cons in Hin as [[= <- <-]|Hin].
      + rewrite bool_decide_eq_true_2 by done. by rewrite Hgen.
      + case_bool_decide.
        * destruct (_run_reaction_gen_compound _ _ _ m); [by apply IH|done].
        * destruct (dget coreactant_mols rule) as [co|]; simpl; [|done].
          destruct (dget coreactant_dict co.2) as [c|]; simpl; [|done].
          by apply IH.
  Qed.

Lemma transform_helper_ignores_flag (self : Pickaxe) (b : bool)
      (compound_smiles : list string) (num_workers : Z) (arrival : list string) :
    _transform_helper (with_fragmented_mols self b) compound_smiles num_workers arrival
    = match _transform_helper self compound_smiles num_workers arrival with
      | Ok pk => Ok (with_fragmented_mols pk b)
      | Raise e => Raise e
      end.
  Proof.
    unfold _transform_helper. simpl.
    match goal with
    | |- context [for_each ?f (coreactants self) ?i] =>
        destruct (for_each f (coreactants self) i) as [cd|]; simpl; [|done]
    end.
    destruct (_transform_all_compounds_with_full _ _ _ _ _ _ _ _) as [[c r]|]; simpl; [|done].
    destruct (update_cpds_rxns _ _ _ _) as [[c' r']|]; simpl; done.
  Qed.
End Fragments.

(** C8 (as the code has it).  During rule application a candidate product
    whose canonical SMILES has several fragments (contains a dot) is always
    rejected: [_gen_compound] returns nothing for it, a candidate with such a
    product in a wildcard slot leaves the worker's compounds and reactions as
    they were, and the expansion step computes the same network whatever
    [fragmented_mols] is set to.  The flag is read by [_mol_from_dict] only:
    an input structure with several fragments is skipped when the flag is
    disabled and returned (neutralised if asked) when it is enabled. *)
Theorem C8_fragmented_products_always_rejected `{TK : Toolkit} `{RT : PyRuntime}
    (coreactant_mols : dict (Mol * string)) (coreactant_dict : dict compound)
    (generation : Z) (explicit_h : bool)
    (mol mol' : Mol) :
  (m ← (if explicit_h then RemoveHs mol else Some mol); SanitizeMol m) = Some mol' ->
  str_in "." (MolToSmiles mol') = true ->
  (forall local_cpds,
      _run_reaction_gen_compound generation explicit_h local_cpds mol = None)
  ∧ (forall rule_name rule reactants reactant_atoms st product_mols st',
        (mol, "Any") ∈ zip product_mols (rule_Products rule.2) ->
        run_candidate coreactant_mols coreactant_dict generation explicit_h
                      rule_name rule reactants reactant_atoms st product_mols = Ok st' ->
        st' = st)
  ∧ (forall self b compound_smiles num_workers arrival,
        _transform_helper (with_fragmented_mols self b) compound_smiles num_workers arrival
        = match _transform_helper self compound_smiles num_workers arrival with
          | Ok pk => Ok (with_fragmented_mols pk b)
          | Raise e => Raise e
          end)
  ∧ (forall self input_dict field text parsed,
        str_truthy (Some field) = true ->
        dget input_dict field = Some text ->
        (if str_in "InChI=" text then MolFromInchi text else MolFromSmiles text)
          = Some parsed ->
        (1 < length (GetMolFrags parsed))%nat ->
        _mol_from_dict self input_dict (Some field)
        = Ok (self,
              if fragmented_mols self
              then Some (if neutralise self then neutralise_charges parsed else parsed)
              else None)).
Proof.
  intros Hprep Hdot.
  assert (forall local_cpds,
             _run_reaction_gen_compound generation explicit_h local_cpds mol = None) as Hgen.
  { intros local_cpds. unfold _run_reaction_gen_compound. rewrite Hprep. by rewrite Hdot. }
  split_and!.
  - exact Hgen.
  - intros rule_name rule reactants reactant_atoms st product_mols st' Hin.
    unfold run_candidate, _make_half_rxn.
    pose proof (collect_rejects coreactant_mols coreactant_dict generation explicit_h
                  st.1 (zip product_mols (rule_Products rule.2)) mol [] []) as Hrej.
    destruct (_make_half_rxn_collect _ _ _ _ _ _ _ _) as [[r|]|e] eqn:Hc; simpl.
    + by destruct (Hrej r Hin (Hgen _)).
    + by intros [= <-].
    + destruct e; by intros [= <-].
  - intros. apply transform_helper_ignores_flag.
  - intros self input_dict field text parsed Htruthy Hget Hparse Hfrags.
    unfold _mol_from_dict. rewrite Htruthy. simpl. rewrite Hget, Hparse.
    assert ((1 <? Z.of_nat (length (GetMolFrags parsed))) = true) as ->
      by (apply Z.ltb_lt; lia).
    by destruct (fragmented_mols self).
Qed.

(** The theorem at sodium acetate, whose canonical text is the pair of
    ions. *)
Lemma C8_fragmented_products_always_rejected_witness :
  (forall local_cpds,
      _run_reaction_gen_compound 1 true local_cpds (Toy.mol "CC(=O)O[Na]") = None)
  ∧ (forall rule_name rule reactants reactant_atoms st product_mols st',
        ((Toy.mol "CC(=O)O[Na]"), "Any") ∈ zip product_mols (rule_Products rule.2) ->
        run_candidate [] [] 1 true
                      rule_name rule reactants reactant_atoms st product_mols = Ok st' ->
        st' = st)
  ∧ (forall self b compound_smiles num_workers arrival,
        _transform_helper (with_fragmented_mols self b) compound_smiles num_workers arrival
        = match _transform_helper self compound_smiles num_workers arrival with
          | Ok pk => Ok (with_fragmented_mols pk b)
          | Raise e => Raise e
          end)
  ∧ (forall self input_dict field text parsed,
        str_truthy (Some field) = true ->
        dget input_dict field = Some text ->
        (if str_in "InChI=" text then MolFromInchi text else MolFromSmiles text)
          = Some parsed ->
        (1 < length (GetMolFrags parsed))%nat ->
        _mol_from_dict self input_dict (Some field)
        = Ok (self,
              if fragmented_mols self
              then Some (if neutralise self then neutralise_charges parsed else parsed)
              else None)).
Proof.
  apply (C8_fragmented_products_always_rejected [] [] 1 true
           (Toy.mol "CC(=O)O[Na]") (Toy.mol "CC(=O)O[Na]")).
  - vm_compute. reflexivity.
  - vm_compute. reflexivity.
Defined.

(** C8, as stated, fails.  With [fragmented_mols] enabled, rule [S1] offers
    one candidate product, whose canonical form has two fragments; the
    expansion step rejects it all the same and adds no compound and no
    reaction. *)
Lemma C8_flag_enabled_counterexample :
  fragmented_mols (Toy.salt_seeded true) = true
  ∧ RunReactants (Toy.operator "S1" "CC(O)O[Na]" "CC(=O)O[Na]" ["Any"] ["Any"]).2.1
                 [(Toy.mol "CC(O)O[Na]")] = Some [[(Toy.mol "CC(=O)O[Na]")]]
  ∧ MolToSmiles (Toy.mol "CC(=O)O[Na]") = "CC(=O)[O-].[Na+]"
  ∧ length (GetMolFrags (Toy.mol "CC(=O)O[Na]")) = 2%nat
  ∧ (pk' ← returned (_transform_helper (Toy.salt_seeded true) ["CC(O)O[Na]"] 1 []);
     Some (dkeys (compounds pk'), dkeys (reactions pk')))
    = Some (["CCC(O)O[Na]"], []).
Proof. split_and!; vm_compute; reflexivity. Qed.

(** ** The network reducer: cofactor redundancy *)

(** C9 (code bug).  Lactic acid is expanded by a dehydration and a
    decarboxylation whose small products, water and carbon dioxide, are
    named by wildcards, so the network holds the generated compounds [CO] and
    [CO=C=O] beside the coreactants [XO] and [XO=C=O].
    [remove_cofactor_redundancy] writes the two corrected reactions and
    deletes both generated compounds, but [rxns_to_del] is rebuilt from the
    always-empty set [rxns] for each compound, so only the reactions of the
    last compound are deleted: the original dehydration survives and still
    names the deleted compound [CO]. *)
Theorem C9_first_original_reaction_survives :
  dkeys (compounds Toy.lactate_expanded)
    = ["XO"; "XO=C=O"; "CCC(O)C(=O)O"; "CC=CC(=O)O"; "CO"; "CCCO"; "CO=C=O"]
  ∧ dkeys (reactions Toy.lactate_expanded)
    = [Toy.dehydration_rxn; Toy.decarboxylation_rxn]
  ∧ (pk' ← returned (remove_cofactor_redundancy Toy.lactate_expanded);
     Some (dkeys (compounds pk'), dkeys (reactions pk')))
    = Some (["XO"; "XO=C=O"; "CCC(O)C(=O)O"; "CC=CC(=O)O"; "CCCO"],
            [Toy.dehydration_rxn;
             "RCCC(O)C(=O)O => CC=CC(=O)O + XO";
             "RCCC(O)C(=O)O => CCCO + XO=C=O"])
  ∧ (pk' ← returned (remove_cofactor_redundancy Toy.lactate_expanded);
     Products <$> dget (reactions pk') Toy.dehydration_rxn)
    = Some [(1, "CC=CC(=O)O"); (1, "CO")].
Proof. split_and!; vm_compute; reflexivity. Qed.

(** ** The network reducer: the minimal set *)

Section MinimalSet.
Context `{TK : Toolkit} `{RT : PyRuntime}.
Variable compounds : dict compound.
Variable reactions : dict reaction.

Abbreviation universe := (list_to_set (all_reactant_ids reactions) : gset string).

Lemma reactant_in_universe rid r x :
    dget reactions rid = Some r -> x ∈ (Reactants r).*2 -> x ∈ universe.
  Proof.
    intros Hr%dget_Some_elem Hx. apply elem_of_list_to_set.
    unfold all_reactant_ids. apply list_elem_of_join.
    exists ((Reactants r).*2). split; [done|].
    apply list_elem_of_fmap. exists r. split; [done|].
    unfold dvalues. apply list_elem_of_fmap. by exists (rid, r).
  Qed.

Lemma potential_step (W : gset string) x :
    x ∈ universe -> x ∉ W ->
    (size (universe ∖ (W ∪ {[ x ]})) + 1 = size (universe ∖ W))%nat.
  Proof.
    intros HU HW.
    assert (universe ∖ W = (universe ∖ (W ∪ {[ x ]})) ∪ {[ x ]}) as ->.
    { apply set_eq. intros y. destruct (decide (y = x)); set_solver. }
    rewrite (size_union (universe ∖ (W ∪ {[ x ]})) ({[ x ]} : gset string)) by set_solver.
    by rewrite size_singleton.
  Qed.

  (** The loop over the reactants of one reaction. *)
Lemma visit_reactants_spec (reactants : list (Z * string)) a W C R :
    (forall x, x ∈ reactants.*2 -> x ∈ universe) ->
    exists a' W',
      fold_left visit_reactant reactants (a, W, C, R)
      = (a', W', C ∪ list_to_set (reactants.*2), R)
      ∧ (size (universe ∖ W') + length a' = size (universe ∖ W) + length a)%nat.
  Proof.
    revert a W C. induction reactants as [|[s x] l IH]; intros a W C HU; simpl.
    - exists a, W. split; [|done]. f_equal. f_equal. set_solver.
    - assert (x ∈ universe) as Hx by (apply HU; simpl; left).
      assert (forall y, y ∈ l.*2 -> y ∈ universe) as Hl by (intros y Hy; apply HU; simpl; by right).
      destruct (startswith x "C" && negb (bool_decide (x ∈ W))) eqn:Hc.
      + apply andb_true_iff in Hc as [_ Hc]. apply negb_true_iff, bool_decide_eq_false in Hc.
        destruct (IH (a ++ [x])%list (W ∪ {[ x ]}) (C ∪ {[ x ]}) Hl) as (a' & W' & -> & Hpot).
        exists a', W'. split.
        * f_equal. f_equal. set_solver.
        * rewrite Hpot, length_app. simpl. pose proof (potential_step W x Hx Hc). lia.
      + destruct (IH a W (C ∪ {[ x ]}) Hl) as (a' & W' & -> & Hpot).
        exists a', W'. split; [|done]. f_equal. f_equal. set_solver.
  Qed.

Lemma closed_sets_add C R rid r :
    closed_sets reactions C R -> dget reactions rid = Some r ->
    closed_sets reactions (C ∪ list_to_set ((Products r).*2) ∪ list_to_set ((Reactants r).*2))
                (R ∪ {[ rid ]}).
  Proof.
    intros [H1 H2] Hr. split.
    - intros x. rewrite !elem_of_union, !elem_of_list_to_set.
      intros [[Hx|Hx]|Hx].
      + destruct (H1 x Hx) as (rid' & r' & ? & ? & ?).
        exists rid', r'. split_and!; [set_solver|done|done].
      + exists rid, r. split_and!; [set_solver|done|]. apply elem_of_app. by left.
      + exists rid, r. split_and!; [set_solver|done|]. apply elem_of_app. by right.
    - intros rid'. rewrite elem_of_union, elem_of_singleton. intros [Hin| ->].
      + destruct (H2 rid' Hin) as (r' & ? & Hall).
        exists r'. split; [done|]. intros x Hx. specialize (Hall x Hx). set_solver.
      + exists r. split; [done|]. intros x [Hx|Hx]%elem_of_app.
        * apply elem_of_union. left. apply elem_of_union. right. by apply elem_of_list_to_set.
        * apply elem_of_union. right. by apply elem_of_list_to_set.
  Qed.

Lemma visit_reaction_inv n st rid st' :
    search_inv reactions n st -> visit_reaction reactions st rid = Ok st' ->
    search_inv reactions n st'.
  Proof.
    destruct st as [[[a W] C] R]. intros [Hpot Hclosed]. unfold visit_reaction.
    destruct (dget reactions rid) as [r|] eqn:Hr; simpl; [|done].
    destruct (visit_reactants_spec (Reactants r) a W (C ∪ list_to_set ((Products r).*2))
                (R ∪ {[ rid ]})) as (a' & W' & -> & Hpot').
    { intros x Hx. by eapply reactant_in_universe. }
    intros [= <-]. split; [lia|]. by apply closed_sets_add.
  Qed.

Lemma visit_compound_inv n st cpd_id st' :
    search_inv reactions n st -> visit_compound compounds reactions st cpd_id = Ok st' ->
    search_inv reactions n st'.
  Proof.
    intros Hinv. unfold visit_compound.
    destruct (dget compounds cpd_id) as [c|]; [|by intros [= <-]].
    destruct (Product_of c) as [po|]; simpl; [|done].
    apply (for_each_invariant (visit_reaction reactions) (search_inv reactions n)); [done|].
    intros s x s' _. apply visit_reaction_inv.
  Qed.

  (** With fuel above the potential the search ends, and it ends in closed
      sets or in a [KeyError]. *)
Lemma minimal_set_loop_ends fuel todo W C R :
    (size (universe ∖ W) + length todo < fuel)%nat ->
    closed_sets reactions C R ->
    exists res,
      minimal_set_loop fuel compounds reactions todo W C R = Some res
      ∧ forall C' R', res = Ok (C', R') -> closed_sets reactions C' R'.
  Proof.
    revert todo W C R. induction fuel as [|fuel IH]; intros todo W C R Hfuel Hclosed; [lia|].
    simpl. destruct todo as [|cpd_id rest].
    - eexists. split; [done|]. by intros C' R' [= <- <-].
    - destruct (visit_compound compounds reactions ([], W, C, R) cpd_id)
        as [[[[a W'] C'] R']|e] eqn:Hv.
      + apply (visit_compound_inv (size (universe ∖ W))) in Hv as [Hpot Hclosed'].
        2:{ split; [simpl; lia|done]. }
        apply IH; [|done]. rewrite length_app. simpl in Hfuel. lia.
      + eexists. split; [done|]. by intros ? ? [=].
  Qed.

Lemma search_fuel_enough (white_list : list string) (W : gset string) :
    (size (universe ∖ W) + length white_list < search_fuel reactions white_list)%nat.
  Proof.
    unfold search_fuel.
    assert (size (universe ∖ W) <= size universe)%nat by (apply subseteq_size; set_solver).
    lia.
  Qed.
End MinimalSet.

Section PruneFacts.
Context `{TK : Toolkit} `{RT : PyRuntime}.

Lemma set_order_singleton (x : string) : set_order {[ x ]} = [x].
  Proof.
    pose proof (set_order_perm {[ x ]}) as Hp. rewrite elements_singleton in Hp.
    by apply Permutation_singleton_r in Hp.
  Qed.

Lemma elem_of_dkeys_filter {V : Type} (d : dict V) (C : gset string) k :
    k ∈ dkeys (filter (fun kv : string * V => kv.1 ∈ C) d) <-> k ∈ dkeys d ∧ k ∈ C.
  Proof.
    unfold dkeys. rewrite !list_elem_of_fmap. split.
    - intros ([k' v] & -> & [Hin Hd]%list_elem_of_filter). simpl in *.
      split; [|done]. by exists (k', v).
    - intros [([k' v] & -> & Hd) HC]. exists (k', v). split; [done|].
      by apply list_elem_of_filter.
  Qed.

Lemma filter_none {A : Type} (P : A -> Prop) `{!forall x, Decision (P x)} (l : list A) :
    (forall x, ~ P x) -> filter P l = [].
  Proof.
    intros Hnone. induction l as [|a l IH]; [done|].
    rewrite filter_cons_False; [exact IH|apply Hnone].
  Qed.

  (** The search always ends, and the sets it returns are closed. *)
Lemma find_minimal_set_ends (self : Pickaxe) (white_set : gset string) :
    find_minimal_set self white_set <> None
    ∧ forall comp_set rxn_set,
        find_minimal_set self white_set = Some (Ok (comp_set, rxn_set)) ->
        exists comp_set0,
          closed_sets (reactions self) comp_set0 rxn_set
          ∧ comp_set
            = if tani_filter self
              then comp_set0 ∪ list_to_set (filter (fun cpd_id => startswith cpd_id "T" = true)
                                                   (dkeys (compounds self)))
              else comp_set0.
  Proof.
    unfold find_minimal_set.
    destruct (minimal_set_loop_ends (compounds self) (reactions self)
                (search_fuel (reactions self) (set_order white_set))
                (set_order white_set) white_set ∅ ∅) as (res & -> & Hres).
    { apply search_fuel_enough. }
    { split; [set_solver|set_solver]. }
    destruct res as [[C R]|e]; [|done].
    split; [done|]. intros comp_set rxn_set [= <- <-].
    exists C. split; [by apply Hres|done].
  Qed.
End PruneFacts.

(** C10 (as the code has it).  Let [x] be a compound of the store with an
    empty ['Product_of'] list.  For every whitelist that contains [x],
    [find_minimal_set] ends, and when it returns, [x] is in the returned
    compound set exactly if some reaction of the returned reaction set names
    [x] among its reactants or products, or [x] is a target id kept for the
    Tanimoto filter; being whitelisted adds nothing.  For the whitelist made
    of [x] alone the returned reaction set is empty and the compound set holds
    at most the kept targets, so [prune_network] deletes [x] itself (unless it
    is such a target) together with every reaction. *)
Theorem C10_whitelisted_compound_without_producer `{TK : Toolkit} `{RT : PyRuntime}
    (self : Pickaxe) (x : string) (c : compound) :
  dget (compounds self) x = Some c ->
  Product_of c = Some [] ->
  (forall white_set : gset string,
      x ∈ white_set ->
      find_minimal_set self white_set <> None
      ∧ forall comp_set rxn_set,
          find_minimal_set self white_set = Some (Ok (comp_set, rxn_set)) ->
          (x ∈ comp_set <->
             (exists rid r, rid ∈ rxn_set ∧ dget (reactions self) rid = Some r
                            ∧ x ∈ participants r)
             ∨ (tani_filter self = true ∧ startswith x "T" = true)))
  ∧ find_minimal_set self {[ x ]}
    = Some (Ok (if tani_filter self
                then ∅ ∪ list_to_set (filter (fun cpd_id => startswith cpd_id "T" = true)
                                             (dkeys (compounds self)))
                else ∅, ∅))
  ∧ (tani_filter self = false ∨ startswith x "T" = false ->
     exists self',
       prune_network self [x] = Some (Ok self')
       ∧ (x ∉ dkeys (compounds self')) ∧ reactions self' = []).
Proof.
  intros Hx Hpo.
  assert (find_minimal_set self {[ x ]}
          = Some (Ok (if tani_filter self
                      then ∅ ∪ list_to_set (filter (fun cpd_id => startswith cpd_id "T" = true)
                                                   (dkeys (compounds self)))
                      else ∅, ∅))) as Hsingle.
  { unfold find_minimal_set. rewrite set_order_singleton.
    unfold search_fuel. simpl. unfold visit_compound. rewrite Hx. simpl. rewrite Hpo.
    simpl. done. }
  split_and!.
  - intros white_set Hin. destruct (find_minimal_set_ends self white_set) as [Hends Hclosed].
    split; [done|]. intros comp_set rxn_set Hres.
    destruct (Hclosed _ _ Hres) as (C0 & [H1 H2] & ->).
    split.
    + intros HxC.
      assert (x ∈ C0 ∨ (tani_filter self = true ∧ startswith x "T" = true)) as [HC0|HT].
      { destruct (tani_filter self); [|by left].
        apply elem_of_union in HxC as [?|HT]; [by left|right].
        apply elem_of_list_to_set, list_elem_of_filter in HT as [? _]. done. }
      * left. by apply H1.
      * by right.
    + intros [(rid & r & Hrid & Hr & Hp)|[HT HxT]].
      * assert (x ∈ C0) as HC0.
        { destruct (H2 rid Hrid) as (r' & Hr' & Hall). rewrite Hr in Hr'.
          injection Hr' as <-. by apply Hall. }
        destruct (tani_filter self); [|done]. apply elem_of_union. by left.
      * rewrite HT. apply elem_of_union. right.
        apply elem_of_list_to_set, list_elem_of_filter. split; [done|].
        apply dget_is_Some. by eexists.
  - exact Hsingle.
  - intros Hnot. unfold prune_network.
    assert ((list_to_set [x] : gset string) = {[ x ]}) as -> by set_solver.
    rewrite Hsingle. eexists. split; [done|]. simpl. split.
    + rewrite elem_of_dkeys_filter. intros [_ HC].
      destruct Hnot as [Hoff|HnT].
      * rewrite Hoff in HC. set_solver.
      * destruct (tani_filter self); [|set_solver].
        apply elem_of_union in HC as [?|HT]; [set_solver|].
        apply elem_of_list_to_set, list_elem_of_filter in HT as [HT _]. congruence.
    + apply filter_none. set_solver.
Qed.

(** The theorem at ethanol, a starting compound of the expanded network. *)
Lemma C10_whitelisted_compound_without_producer_witness :
  exists c,
    dget (compounds Toy.ethanol_expanded) "CCCO" = Some c
    ∧ Product_of c = Some []
    ∧ (forall white_set : gset string,
          "CCCO" ∈ white_set ->
          find_minimal_set Toy.ethanol_expanded white_set <> None
          ∧ forall comp_set rxn_set,
              find_minimal_set Toy.ethanol_expanded white_set = Some (Ok (comp_set, rxn_set)) ->
              ("CCCO" ∈ comp_set <->
                 (exists rid r, rid ∈ rxn_set
                                ∧ dget (reactions Toy.ethanol_expanded) rid = Some r
                                ∧ "CCCO" ∈ participants r)
                 ∨ (tani_filter Toy.ethanol_expanded = true ∧ startswith "CCCO" "T" = true)))
    ∧ find_minimal_set Toy.ethanol_expanded {[ "CCCO" ]}
      = Some (Ok (if tani_filter Toy.ethanol_expanded
                  then ∅ ∪ list_to_set (filter (fun cpd_id => startswith cpd_id "T" = true)
                                               (dkeys (compounds Toy.ethanol_expanded)))
                  else ∅, ∅))
    ∧ (tani_filter Toy.ethanol_expanded = false ∨ startswith "CCCO" "T" = false ->
       exists self',
         prune_network Toy.ethanol_expanded ["CCCO"] = Some (Ok self')
         ∧ ("CCCO" ∉ dkeys (compounds self')) ∧ reactions self' = []).
Proof.
  eexists. split; [vm_compute; reflexivity|]. split; [reflexivity|].
  eapply (C10_whitelisted_compound_without_producer Toy.ethanol_expanded "CCCO").
  - vm_compute. reflexivity.
  - reflexivity.
Defined.

(** C10, as stated, fails.  Ethanol is whitelisted, stored, and produced by
    no reaction; with acetaldehyde whitelisted as well, the reaction that
    produces acetaldehyde brings ethanol in as its reactant, so the returned
    compound set contains ethanol and [prune_network] keeps it. *)
Lemma C10_reactant_of_whitelisted_counterexample :
  (Product_of <$> dget (compounds Toy.ethanol_expanded) "CCCO") = Some (Some [])
  ∧ (r ← find_minimal_set Toy.ethanol_expanded {[ "CCCO"; "CCC=O" ]};
     res ← returned r; Some (bool_decide ("CCCO" ∈ res.1))) = Some true
  ∧ (r ← prune_network Toy.ethanol_expanded ["CCCO"; "CCC=O"];
     pk' ← returned r; Some (dkeys (compounds pk'))) = Some ["CCCO"; "CCC=O"].
Proof. split_and!; vm_compute; reflexivity. Qed.

(** * Further properties of the engine *)

(** ** The balance test and the half reactions of [_run_reaction] *)

(** X1.  On counters with distinct keys (Python dictionaries) the balance
    test of [_run_reaction], [a - b or b - a] being falsy, succeeds exactly
    when the two counters give every element the same count, negative and
    zero counts included. *)
Theorem atom_balance_test_exact (c d : Counter) :
  NoDup (dkeys c) -> NoDup (dkeys d) ->
  (is_atom_balanced c d = true <-> forall e, cget c e = cget d e).
Proof.
  intros Hc Hd. split.
  - apply is_atom_balanced_sound.
  - by apply is_atom_balanced_complete.
Qed.

(** The theorem at two counters that list the same elements in different
    orders. *)
Lemma atom_balance_test_exact_witness :
  is_atom_balanced [("C", 2); ("H", 6); ("O", 1)] [("O", 1); ("C", 2); ("H", 6)] = true
  <-> forall e, cget [("C", 2); ("H", 6); ("O", 1)] e = cget [("O", 1); ("C", 2); ("H", 6)] e.
Proof. apply atom_balance_test_exact; by_compute. Defined.

Section HalfReaction.
Context `{TK : Toolkit}.
Variable coreactant_mols : dict (Mol * string).
Variable coreactant_dict : dict compound.
Variable generation : Z.
Variable explicit_h : bool.

Lemma counter_total_cadd (c : Counter) k n :
  counter_total (cadd c k n) = counter_total c + n.
Proof.
  unfold cadd. induction c as [|[k' v'] c IH]; simpl.
  - unfold cget. simpl. lia.
  - unfold cget in *. simpl. case_decide; simpl.
    + lia.
    + rewrite IH. lia.
Qed.

Lemma Forall_dset {V : Type} (P : string * V -> Prop) (d : dict V) k v :
  Forall P d -> P (k, v) -> Forall P (dset d k v).
Proof.
  intros Hd Hkv. induction d as [|[k' v'] d IH]; simpl.
  - by constructor.
  - apply Forall_cons in Hd as [? ?]. case_decide; constructor; auto.
Qed.

Lemma positive_cadd (c : Counter) k :
  Forall (fun kv : string * Z => 1 <= kv.2) c ->
  Forall (fun kv : string * Z => 1 <= kv.2) (cadd c k 1).
Proof.
  intros Hc. unfold cadd. apply Forall_dset; [done|]. simpl.
  unfold cget. destruct (dget c k) as [v|] eqn:Hk; simpl; [|lia].
  apply dget_Some_elem in Hk. rewrite Forall_forall in Hc. specialize (Hc _ Hk). simpl in Hc. lia.
Qed.

Lemma collect_counts local_cpds pairs cpds counter cpds' counter' :
  _make_half_rxn_collect coreactant_mols coreactant_dict generation explicit_h
                         local_cpds pairs cpds counter = Ok (Some (cpds', counter')) ->
  Forall (fun kc : string * compound => _id kc.2 = kc.1) cpds ->
  Forall (fun kv : string * Z => 1 <= kv.2) counter ->
  Forall (fun kc : string * compound => _id kc.2 = kc.1) cpds'
  ∧ Forall (fun kv : string * Z => 1 <= kv.2) counter'
  ∧ counter_total counter' = counter_total counter + Z.of_nat (length pairs).
Proof.
  revert cpds counter. induction pairs as [|[mol rule] pairs IH]; intros cpds counter; simpl.
  - intros [= -> ->] ? ?. split_and!; [done|done|lia].
  - assert (forall c : compound,
               _make_half_rxn_collect coreactant_mols coreactant_dict generation explicit_h
                 local_cpds pairs (dset cpds (_id c) c) (cadd counter (_id c) 1)
               = Ok (Some (cpds', counter')) ->
               Forall (fun kc : string * compound => _id kc.2 = kc.1) cpds ->
               Forall (fun kv : string * Z => 1 <= kv.2) counter ->
               Forall (fun kc : string * compound => _id kc.2 = kc.1) cpds'
               ∧ Forall (fun kv : string * Z => 1 <= kv.2) counter'
               ∧ counter_total counter' = counter_total counter + Z.of_nat (S (length pairs))) as Hstep.
    { intros c Hc Hids Hpos. apply IH in Hc as (? & ? & Hsum).
      - split_and!; [done|done|]. rewrite Hsum, counter_total_cadd. lia.
      - by apply Forall_dset.
      - by apply positive_cadd. }
    case_bool_decide.
    + destruct (_run_reaction_gen_compound _ _ _ _) as [c|]; [|done]. apply Hstep.
    + destruct (dget coreactant_mols rule) as [co|]; simpl; [|done].
      destruct (dget coreactant_dict co.2) as [c|]; simpl; [|done]. apply Hstep.
Qed.

Lemma zip_fst_values {V W : Type} (lc : dict V) (ld : dict W) :
  dkeys ld = dkeys lc -> (zip (lc.*2) (ld.*2)).*1 = lc.*2.
Proof.
  revert ld. induction lc as [|[k s] lc IH]; intros [|[k' c] ld]; simpl; try done.
  intros [= _ Hk]. f_equal. by apply IH.
Qed.

Lemma total_stoich_zip (lc : Counter) (ld : dict compound) :
  dkeys ld = dkeys lc -> total_stoich (zip (lc.*2) (ld.*2)) = counter_total lc.
Proof.
  revert ld. induction lc as [|[k s] lc IH]; intros [|[k' c] ld]; simpl; try done.
  intros [= _ Hk]. f_equal. by apply IH.
Qed.

(** X2.  A half reaction returned by [_make_half_rxn] lists every compound
    once, under its own id, with a coefficient of at least one, and the
    coefficients add up to the number of (molecule, role) pairs that were
    zipped: a compound that fills two roles appears once with coefficient
    two. *)
Theorem half_rxn_stoichiometry local_cpds mol_list rules half atoms :
  _make_half_rxn coreactant_mols coreactant_dict generation explicit_h
                 local_cpds mol_list rules = Ok (Some (half, atoms)) ->
  NoDup (half_ids half).*2
  ∧ Forall (fun sc : Z * compound => 1 <= sc.1) half
  ∧ total_stoich half = Z.of_nat (length (zip mol_list rules)).
Proof.
  unfold _make_half_rxn.
  destruct (_make_half_rxn_collect _ _ _ _ _ _ _ _) as [[[cpds counter]|]|] eqn:Hc;
    simpl; try done.
  destruct (collect_aligned _ _ _ _ _ _ _ _ _ _ Hc eq_refl
              (NoDup_nil_2 : NoDup (dkeys ([] : dict compound)))) as [Hk Hnd].
  destruct (collect_counts _ _ _ _ _ _ Hc) as (Hids & Hpos & Hsum); [constructor|constructor|].
  rewrite (half_list_aligned cpds counter cpds []); [|done|].
  2:{ intros k c Hin. by apply dget_elem_NoDup. }
  simpl. intros [= <- _]. split_and!.
  - assert ((half_ids (zip counter.*2 cpds.*2)).*2 = dkeys cpds) as ->; [|done].
    unfold half_ids. clear Hc Hnd Hpos Hsum. revert counter Hk.
    induction cpds as [|[k c] cpds IH]; intros [|[k' s] counter]; simpl; try done.
    apply Forall_cons in Hids as [Hid Hids]. simpl in Hid.
    intros [= <- Hk]. f_equal; [done|]. by apply IH.
  - apply Forall_forall. intros [s c] Hin.
    apply (list_elem_of_fmap_2 fst) in Hin. rewrite zip_fst_values in Hin by done.
    apply list_elem_of_fmap in Hin as ([k s'] & -> & Hin).
    rewrite Forall_forall in Hpos. by apply (Hpos (k, s')).
  - rewrite total_stoich_zip by done. rewrite Hsum. simpl. lia.
Qed.
End HalfReaction.

(** The theorem at the molecules water, ethanol, water. *)
Lemma half_rxn_stoichiometry_witness :
  NoDup (half_ids Toy.hydrate_side.1).*2
  ∧ Forall (fun sc : Z * compound => 1 <= sc.1) Toy.hydrate_side.1
  ∧ total_stoich Toy.hydrate_side.1
    = Z.of_nat (length (zip [Toy.mol "O"; Toy.mol "CCO"; Toy.mol "O"] ["Any"; "Any"; "Any"])).
Proof.
  apply (half_rxn_stoichiometry [] [] 1 true [] [Toy.mol "O"; Toy.mol "CCO"; Toy.mol "O"]
           ["Any"; "Any"; "Any"] Toy.hydrate_side.1 Toy.hydrate_side.2).
  vm_compute. reflexivity.
Defined.

(** ** Merging worker results into the registry *)


Section RegistryMerge.
Context `{TK : Toolkit}.

Lemma update_rxn_reactions st rid r st' :
  update_rxn st (rid, r) = Ok st' ->
  (exists r', dget st'.2 rid = Some r' ∧ merged_reaction (dget st.2 rid) r r')
  ∧ (forall k, k <> rid -> dget st'.2 k = dget st.2 k).
Proof.
  unfold update_rxn.
  destruct (dget st.2 rid) as [r0|] eqn:Hr0; simpl.
  - destruct (Partial_Operators r0) as [po|]; simpl.
    + destruct (Partial_Operators r) as [po'|]; simpl; [|done].
      destruct (for_each (add_product_of rid) _ _) as [cs1|]; simpl; [|done].
      destruct (for_each (add_reactant_in rid) _ _) as [cs2|]; simpl; [|done].
      intros [= <-]. simpl. split.
      * eexists. rewrite dget_dset_eq. split; [done|]. unfold merged_reaction. simpl. by split_and!.
      * intros k Hk. by rewrite dget_dset_ne.
    + destruct (for_each (add_product_of rid) _ _) as [cs1|]; simpl; [|done].
      destruct (for_each (add_reactant_in rid) _ _) as [cs2|]; simpl; [|done].
      intros [= <-]. simpl. split.
      * eexists. rewrite dget_dset_eq. split; [done|]. unfold merged_reaction. simpl. by split_and!.
      * intros k Hk. by rewrite dget_dset_ne.
  - destruct (for_each (add_product_of rid) _ _) as [cs1|]; simpl; [|done].
    destruct (for_each (add_reactant_in rid) _ _) as [cs2|]; simpl; [|done].
    intros [= <-]. simpl. split.
    + eexists. rewrite dget_dset_eq. done.
    + intros k Hk. by rewrite dget_dset_ne.
Qed.

Lemma update_rxns_reactions (new_rxns : dict reaction) st st' :
  NoDup (dkeys new_rxns) ->
  for_each update_rxn new_rxns st = Ok st' ->
  (forall rid r, dget new_rxns rid = Some r ->
     exists r', dget st'.2 rid = Some r' ∧ merged_reaction (dget st.2 rid) r r')
  ∧ (forall rid, dget new_rxns rid = None -> dget st'.2 rid = dget st.2 rid).
Proof.
  revert st. induction new_rxns as [|[k r] l IH]; intros st Hnd; cbn [for_each].
  - intros [= <-]. split; [done|done].
  - apply NoDup_cons in Hnd as [Hk Hnd].
    destruct (update_rxn st (k, r)) as [st1|] eqn:H1; cbn [rbind]; [|done].
    intros Hrest. apply update_rxn_reactions in H1 as [(r1 & Hr1 & Hm1) Hother].
    destruct (IH st1 Hnd Hrest) as [IH1 IH2]. split.
    + intros rid r2. cbn [dget]. case_decide as Heq.
      * subst rid. intros [= <-]. exists r1. split; [|done].
        rewrite IH2; [done|]. apply dget_None. done.
      * intros Hl. destruct (IH1 rid r2 Hl) as (r' & Hr' & Hm).
        exists r'. split; [done|]. by rewrite Hother in Hm.
    + intros rid. cbn [dget]. case_decide as Heq; [done|]. intros Hl.
      rewrite IH2 by done. by apply Hother.
Qed.

(** X3.  When [update_cpds_rxns] succeeds on worker results with distinct
    reaction ids, a reaction that was already stored ends with the union of
    the stored and the arriving operator sets and keeps its stored reactants,
    products and text; a reaction that was not stored is stored as it
    arrives; every other stored reaction is left as it was. *)
Theorem registry_merge_unions_operators
    (compounds : dict compound) (reactions : dict reaction)
    (new_cpds : dict compound) (new_rxns : dict reaction)
    (compounds' : dict compound) (reactions' : dict reaction) :
  NoDup (dkeys new_rxns) ->
  update_cpds_rxns compounds reactions new_cpds new_rxns = Ok (compounds', reactions') ->
  (forall rid r, dget new_rxns rid = Some r ->
     exists r', dget reactions' rid = Some r' ∧ merged_reaction (dget reactions rid) r r')
  ∧ (forall rid, dget new_rxns rid = None -> dget reactions' rid = dget reactions rid).
Proof.
  intros Hnd Hup. unfold update_cpds_rxns in Hup.
  apply (update_rxns_reactions new_rxns _ _ Hnd Hup).
Qed.

Lemma has_product_ref_extends cs cs' k rid :
  extends cs cs' -> has_product_ref cs k rid -> has_product_ref cs' k rid.
Proof.
  intros Hext (c & l & Hc & Hl & Hin).
  destruct (Hext k c Hc) as (c' & Hc' & Hg).
  destruct Hg as (_ & _ & _ & _ & _ & _ & _ & _ & _ & _ & Hpo).
  rewrite Hl in Hpo. unfold refs_grow in Hpo.
  destruct (Product_of c') as [l'|] eqn:Hl'; [|done].
  exists c', l'. split_and!; [done|done|]. destruct Hpo as [t ->]. set_solver.
Qed.

Lemma has_reactant_ref_extends cs cs' k rid :
  extends cs cs' -> has_reactant_ref cs k rid -> has_reactant_ref cs' k rid.
Proof.
  intros Hext (c & l & Hc & Hl & Hin).
  destruct (Hext k c Hc) as (c' & Hc' & Hg).
  destruct Hg as (_ & _ & _ & _ & _ & _ & _ & _ & _ & Hri & _).
  rewrite Hl in Hri. unfold refs_grow in Hri.
  destruct (Reactant_in c') as [l'|] eqn:Hl'; [|done].
  exists c', l'. split_and!; [done|done|]. destruct Hri as [t ->]. set_solver.
Qed.

Lemma add_product_of_ref rid cs p cs' :
  add_product_of rid cs p = Ok cs' -> has_product_ref cs' p rid.
Proof.
  unfold add_product_of.
  destruct (dget cs p) as [c|] eqn:Hc; simpl; [|done].
  destruct (Product_of c) as [l|] eqn:Hl; simpl; [|done].
  case_bool_decide as Hin; intros [= <-].
  - by exists c, l.
  - eexists _, _. rewrite dget_dset_eq. split_and!; [done|done|]. set_solver.
Qed.

Lemma add_reactant_in_ref rid cs p cs' :
  add_reactant_in rid cs p = Ok cs' -> has_reactant_ref cs' p rid.
Proof.
  unfold add_reactant_in.
  destruct (dget cs p) as [c|] eqn:Hc; simpl; [|done].
  destruct (Reactant_in c) as [l|] eqn:Hl; simpl; [|done].
  case_bool_decide as Hin; intros [= <-].
  - by exists c, l.
  - eexists _, _. rewrite dget_dset_eq. split_and!; [done|done|]. set_solver.
Qed.

Lemma add_product_of_loop rid ps cs cs' :
  for_each (add_product_of rid) ps cs = Ok cs' ->
  extends cs cs' ∧ forall p, p ∈ ps -> has_product_ref cs' p rid.
Proof.
  revert cs. induction ps as [|p ps IH]; intros cs; simpl.
  - intros [= <-]. split; [apply extends_refl|]. by intros p ?%elem_of_nil.
  - destruct (add_product_of rid cs p) as [cs1|] eqn:H1; simpl; [|done].
    intros Hrest. destruct (IH cs1 Hrest) as [Hext Hall]. split.
    + eapply extends_trans; [|done]. by eapply add_product_of_extends.
    + intros q [->|Hq]%elem_of_cons; [|by apply Hall].
      eapply has_product_ref_extends; [done|]. by eapply add_product_of_ref.
Qed.

Lemma add_reactant_in_loop rid ps cs cs' :
  for_each (add_reactant_in rid) ps cs = Ok cs' ->
  extends cs cs' ∧ forall p, p ∈ ps -> has_reactant_ref cs' p rid.
Proof.
  revert cs. induction ps as [|p ps IH]; intros cs; simpl.
  - intros [= <-]. split; [apply extends_refl|]. by intros p ?%elem_of_nil.
  - destruct (add_reactant_in rid cs p) as [cs1|] eqn:H1; simpl; [|done].
    intros Hrest. destruct (IH cs1 Hrest) as [Hext Hall]. split.
    + eapply extends_trans; [|done]. by eapply add_reactant_in_extends.
    + intros q [->|Hq]%elem_of_cons; [|by apply Hall].
      eapply has_reactant_ref_extends; [done|]. by eapply add_reactant_in_ref.
Qed.

Lemma update_rxn_refs st rid r st' :
  update_rxn st (rid, r) = Ok st' ->
  (forall p, p ∈ C_ids (Products r) -> has_product_ref st'.1 p rid)
  ∧ (forall q, q ∈ C_ids (Reactants r) -> has_reactant_ref st'.1 q rid).
Proof.
  unfold update_rxn.
  destruct (match dget st.2 rid with Some _ => _ | None => _ end) as [rs|]; simpl; [|done].
  destruct (for_each (add_product_of rid) _ _) as [cs1|] eqn:H1; simpl; [|done].
  destruct (for_each (add_reactant_in rid) _ _) as [cs2|] eqn:H2; simpl; [|done].
  intros [= <-]. simpl.
  apply add_product_of_loop in H1 as [_ Hp].
  apply add_reactant_in_loop in H2 as [Hext Hq]. split; [|done].
  intros p Hin. eapply has_product_ref_extends; [done|]. by apply Hp.
Qed.

(** X4.  When [update_cpds_rxns] succeeds, every arriving reaction is named
    in the ['Product_of'] list of each of its products whose id starts with
    ['C'] and in the ['Reactant_in'] list of each such reactant. *)
Theorem registry_merge_records_back_references
    (compounds : dict compound) (reactions : dict reaction)
    (new_cpds : dict compound) (new_rxns : dict reaction)
    (compounds' : dict compound) (reactions' : dict reaction) :
  update_cpds_rxns compounds reactions new_cpds new_rxns = Ok (compounds', reactions') ->
  forall rid r, (rid, r) ∈ new_rxns ->
    (forall p, p ∈ C_ids (Products r) -> has_product_ref compounds' p rid)
    ∧ (forall q, q ∈ C_ids (Reactants r) -> has_reactant_ref compounds' q rid).
Proof.
  unfold update_cpds_rxns. generalize (update_cpds compounds new_cpds, reactions).
  induction new_rxns as [|[k r0] l IH]; intros st; cbn [for_each].
  - intros _ rid r ?%elem_of_nil. done.
  - destruct (update_rxn st (k, r0)) as [st1|] eqn:H1; cbn [rbind]; [|done].
    intros Hrest rid r [[= -> ->]|Hin]%elem_of_cons.
    + apply update_rxn_refs in H1 as [Hp Hq].
      assert (extends st1.1 compounds') as Hext.
      { apply (for_each_invariant update_rxn (fun s => extends st1.1 s.1) l st1 _
                 (extends_refl _)) in Hrest; [done|].
        intros s x s' _ Hs Hx. eapply extends_trans; [exact Hs|]. by eapply update_rxn_extends. }
      split.
      * intros p Hin. eapply has_product_ref_extends; [done|]. by apply Hp.
      * intros q Hin. eapply has_reactant_ref_extends; [done|]. by apply Hq.
    + by apply (IH st1).
Qed.
End RegistryMerge.

(** The theorem at the expanded ethanol network and the result for the
    second spelling of ethanol. *)
Lemma registry_merge_unions_operators_witness :
  (forall rid r, dget Toy.second_spelling.2 rid = Some r ->
     exists r', dget Toy.merged_again.2 rid = Some r'
                ∧ merged_reaction (dget (reactions Toy.ethanol_expanded) rid) r r')
  ∧ (forall rid, dget Toy.second_spelling.2 rid = None ->
       dget Toy.merged_again.2 rid = dget (reactions Toy.ethanol_expanded) rid).
Proof.
  apply (registry_merge_unions_operators (compounds Toy.ethanol_expanded)
           (reactions Toy.ethanol_expanded) Toy.second_spelling.1 Toy.second_spelling.2
           Toy.merged_again.1 Toy.merged_again.2).
  - by_compute.
  - vm_compute. reflexivity.
Defined.

(** The theorem at the same merge. *)
Lemma registry_merge_records_back_references_witness :
  update_cpds_rxns (compounds Toy.ethanol_expanded) (reactions Toy.ethanol_expanded)
    Toy.second_spelling.1 Toy.second_spelling.2
  = Ok (Toy.merged_again.1, Toy.merged_again.2)
  ∧ (forall rid r, (rid, r) ∈ Toy.second_spelling.2 ->
      (forall p, p ∈ C_ids (Products r) -> has_product_ref Toy.merged_again.1 p rid)
      ∧ (forall q, q ∈ C_ids (Reactants r) -> has_reactant_ref Toy.merged_again.1 q rid)).
Proof.
  split; [vm_compute; reflexivity|].
  apply (registry_merge_records_back_references (compounds Toy.ethanol_expanded)
           (reactions Toy.ethanol_expanded) Toy.second_spelling.1 Toy.second_spelling.2
           Toy.merged_again.1 Toy.merged_again.2).
  vm_compute. reflexivity.
Defined.

(** ** The registry: inserting a compound *)

Section AddCompound.
Context `{TK : Toolkit}.

Lemma dset_dset_same {V : Type} (d : dict V) k v : dset (dset d k v) k v = dset d k v.
Proof.
  induction d as [|[k' v'] d IH]; simpl.
  - by case_decide.
  - case_decide; simpl; case_decide; try done. by rewrite IH.
Qed.

Lemma dkeys_dset_absent {V : Type} (d : dict V) k v :
  k ∉ dkeys d -> dkeys (dset d k v) = (dkeys d ++ [k])%list.
Proof.
  intros Hk. rewrite dkeys_dset. by rewrite (proj2 (dmem_false _ _) Hk).
Qed.

(** X5.  Adding a compound whose id is not yet stored: [_add_compound]
    returns the id, records the SMILES under it in [_raw_compounds], and
    appends the compound to the store with the given name, type and the
    current generation; it is expandable exactly for the types ['Predicted']
    and ['Starting Compound'], and it has empty back-reference lists unless
    its id starts with ['X'], in which case it has none.  No other compound
    and no reaction changes, and adding the same compound again changes
    nothing at all. *)
Theorem add_compound_then_lookup
    (self : Pickaxe) (cpd_name smi cpd_type : string) (mol : option Mol)
    (cpd_id : string) (m : Mol) :
  compound_hash smi cpd_type = Some cpd_id ->
  cpd_id <> "" ->
  cpd_id ∉ dkeys (compounds self) ->
  match mol with Some m => Some m | None => MolFromSmiles smi end = Some m ->
  exists self' c,
    _add_compound self cpd_name smi cpd_type mol = Ok (self', Some cpd_id)
    ∧ dget (_raw_compounds self') smi = Some cpd_id
    ∧ dkeys (compounds self') = (dkeys (compounds self) ++ [cpd_id])%list
    ∧ dget (compounds self') cpd_id = Some c
    ∧ ID c = Some cpd_name ∧ _id c = cpd_id ∧ SMILES c = smi ∧ Type_ c = cpd_type
    ∧ Generation c = generation self
    ∧ Expand c = bool_decide (cpd_type ∈ ["Predicted"; "Starting Compound"])
    ∧ (Reactant_in c, Product_of c)
      = (if startswith cpd_id "X" then (None, None) else (Some [], Some []))
    ∧ (forall k, k <> cpd_id -> dget (compounds self') k = dget (compounds self) k)
    ∧ reactions self' = reactions self
    ∧ _add_compound self' cpd_name smi cpd_type mol = Ok (self', Some cpd_id).
Proof.
  intros Hhash Hne Hnew Hmol.
  assert (dget (compounds self) cpd_id = None) as Hnone by by apply dget_None.
  assert (dmem cpd_id (compounds self) = false) as Hmem by by apply dmem_false.
  set (c := {| ID := Some cpd_name; _id := cpd_id; SMILES := smi; Type_ := cpd_type;
               Generation := generation self;
               atom_count := _getatom_count m (radical_check self);
               Reactant_in := if negb (startswith cpd_id "X") then Some [] else None;
               Product_of := if negb (startswith cpd_id "X") then Some [] else None;
               Expand := bool_decide (cpd_type ∈ ["Predicted"; "Starting Compound"]);
               Formula := CalcMolFormula m; last_tani := 0%Q |}).
  set (self' := with_registry self (dset (_raw_compounds self) smi cpd_id)
                              (dset (compounds self) cpd_id c) (reactions self)).
  exists self', c.
  assert (_add_compound self cpd_name smi cpd_type mol = Ok (self', Some cpd_id)) as Hadd.
  { unfold _add_compound, _gen_compound. rewrite Hhash.
    rewrite (bool_decide_eq_false_2 _ Hne). simpl. rewrite Hmem, Hnone, Hmol. simpl.
    unfold _insert_compound, with_compounds, with_registry, self'. simpl.
    by rewrite dset_dset_same. }
  split_and!; try done.
  - simpl. by rewrite dget_dset_eq.
  - simpl. by apply dkeys_dset_absent.
  - simpl. by rewrite dget_dset_eq.
  - simpl. by destruct (startswith cpd_id "X").
  - intros k Hk. simpl. by rewrite dget_dset_ne.
  - unfold _add_compound. rewrite Hhash, (bool_decide_eq_false_2 _ Hne). simpl.
    assert (dmem cpd_id (dset (compounds self) cpd_id c) = true) as ->.
    { apply dmem_true. rewrite elem_of_dkeys_dset. by left. }
    unfold with_registry, self'. simpl. by rewrite !dset_dset_same.
Qed.
End AddCompound.

(** The theorem at acetic acid added to an empty object. *)
Lemma add_compound_then_lookup_witness :
  exists self' c,
    _add_compound Toy.new_pickaxe "acetate" "CC(=O)O" "Starting Compound" None
      = Ok (self', Some "CCC(=O)O")
    ∧ dget (_raw_compounds self') "CC(=O)O" = Some "CCC(=O)O"
    ∧ dkeys (compounds self') = (dkeys (compounds Toy.new_pickaxe) ++ ["CCC(=O)O"])%list
    ∧ dget (compounds self') "CCC(=O)O" = Some c
    ∧ ID c = Some "acetate" ∧ _id c = "CCC(=O)O" ∧ SMILES c = "CC(=O)O"
    ∧ Type_ c = "Starting Compound"
    ∧ Generation c = generation Toy.new_pickaxe
    ∧ Expand c = bool_decide ("Starting Compound" ∈ ["Predicted"; "Starting Compound"])
    ∧ (Reactant_in c, Product_of c)
      = (if startswith "CCC(=O)O" "X" then (None, None) else (Some [], Some []))
    ∧ (forall k, k <> "CCC(=O)O" ->
         dget (compounds self') k = dget (compounds Toy.new_pickaxe) k)
    ∧ reactions self' = reactions Toy.new_pickaxe
    ∧ _add_compound self' "acetate" "CC(=O)O" "Starting Compound" None
      = Ok (self', Some "CCC(=O)O").
Proof.
  apply (add_compound_then_lookup Toy.new_pickaxe "acetate" "CC(=O)O" "Starting Compound"
           None "CCC(=O)O" (Toy.mol "CC(=O)O")).
  - reflexivity.
  - done.
  - by_compute.
  - reflexivity.
Defined.

(** ** Loading the rule file: when it succeeds and how it fails *)

Section LoadOutcome.
Context `{TK : Toolkit}.

Lemma load_rule_inv (self : Pickaxe) (skipped : Z) (row : rule_row) :
  match load_rule (self, skipped) row with
  | Ok (self', _) =>
      row_loads (coreactants self) row
      ∧ (row_Name row ∉ dkeys (operators self))
      ∧ coreactants self' = coreactants self
      ∧ dkeys (operators self') = (dkeys (operators self) ++ [row_Name row])%list
  | Raise e =>
      e = ValueError
      ∧ ~ (row_loads (coreactants self) row ∧ row_Name row ∉ dkeys (operators self))
  end.
Proof.
  unfold load_rule, row_loads, roles_declared.
  destruct (forallb _ _) eqn:Hroles.
  - destruct (ReactionFromSmarts (row_SMARTS row)) as [rxn|] eqn:Hrxn.
    + destruct (dmem (row_Name row) (operators self)) eqn:Hmem.
      * split; [done|]. intros [_ Hn]. apply dmem_true in Hmem. done.
      * apply dmem_false in Hmem. split_and!; try done.
        simpl. by apply dkeys_dset_absent.
    + split; [done|]. intros [[_ [? [=]]] _].
  - split; [done|]. intros [[[=] _] _].
Qed.

Lemma load_rules_inv (rows : list rule_row) (self : Pickaxe) (skipped : Z) :
  match for_each load_rule rows (self, skipped) with
  | Ok (self', _) =>
      Forall (row_loads (coreactants self)) rows
      ∧ NoDup (row_Name <$> rows)
      ∧ (forall row, row ∈ rows -> row_Name row ∉ dkeys (operators self))
      ∧ dkeys (operators self') = (dkeys (operators self) ++ (row_Name <$> rows))%list
  | Raise e => e = ValueError
  end.
Proof.
  revert self skipped. induction rows as [|row rows IH]; intros self skipped; cbn [for_each].
  - split_and!; [constructor|constructor|by intros ? ?%elem_of_nil|by rewrite app_nil_r].
  - pose proof (load_rule_inv self skipped row) as Hrow.
    destruct (load_rule (self, skipped) row) as [[self1 sk1]|e]; cbn [rbind].
    + destruct Hrow as (Hloads & Hfresh & Hco & Hkeys).
      specialize (IH self1 sk1).
      destruct (for_each load_rule rows (self1, sk1)) as [[self2 sk2]|e]; [|done].
      destruct IH as (Hall & Hnd & Hfresh' & Hkeys').
      rewrite Hco in Hall. rewrite Hkeys in Hfresh', Hkeys'.
      split_and!.
      * by constructor.
      * cbn [fmap list_fmap]. apply NoDup_cons. split; [|done].
        intros (row' & Heq & Hin)%list_elem_of_fmap.
        apply (Hfresh' row' Hin). rewrite <- Heq. set_solver.
      * intros row' [->|Hin]%elem_of_cons; [done|].
        intros Hk. apply (Hfresh' row' Hin). set_solver.
      * rewrite Hkeys'. cbn [fmap list_fmap]. by rewrite <- app_assoc.
    + by destruct Hrow.
Qed.

(** X6.  On a rule file that opens and whose rows all carry the four columns
    ['Name'], ['Reactants'], ['Products'] and ['SMARTS'], [_load_operators]
    succeeds exactly when every row names only declared coreactants (or
    ['Any']) and has a template that parses, the rule names are pairwise
    distinct, and none of them is already loaded.  Whatever goes wrong on
    such a file is reported as [ValueError], and on success the rules are
    appended to the operator table in the order of the file. *)
Theorem load_operators_outcome (self : Pickaxe) (rows : list rule_row) :
  (is_Ok (_load_operators self rows)
   <-> Forall (row_loads (coreactants self)) rows
       ∧ NoDup (row_Name <$> rows)
       ∧ (forall row, row ∈ rows -> row_Name row ∉ dkeys (operators self)))
  ∧ (forall e, _load_operators self rows = Raise e -> e = ValueError)
  ∧ (forall self' skipped,
        _load_operators self rows = Ok (self', skipped) ->
        dkeys (operators self') = (dkeys (operators self) ++ (row_Name <$> rows))%list).
Proof.
  unfold _load_operators. pose proof (load_rules_inv rows self 0) as Hinv.
  split_and!.
  - split.
    + destruct (for_each load_rule rows (self, 0)) as [[self' sk]|e]; [|done].
      intros _. destruct Hinv as (? & ? & ? & _). done.
    + intros (Hall & Hnd & Hfresh).
      destruct (load_rules_ok rows self 0) as (self' & -> & _); [|done|done|done].
      eapply Forall_impl; [exact Hall|]. by intros row [? ?].
  - intros e He. rewrite He in Hinv. done.
  - intros self' skipped He. rewrite He in Hinv. by destruct Hinv as (_ & _ & _ & ?).
Qed.
End LoadOutcome.

(** ** Finding the structure column *)

Section StructureField.
Context `{TK : Toolkit}.

Lemma structure_column_truthy field :
  is_structure_column field = true -> str_truthy (Some field) = true.
Proof.
  unfold is_structure_column. intros Hin%bool_decide_eq_true.
  simpl. apply negb_true_iff, bool_decide_eq_false. intros ->.
  simpl in Hin. set_solver.
Qed.

(** X7.  On an object whose structure field is not set, [_mol_from_dict]
    without an explicit field raises [ValueError] exactly when no column
    name of the row is, ignoring case, [smiles], [inchi] or [structure].
    Otherwise it remembers the first such column, and from then on a row
    that lacks this very column yields no molecule, whatever other columns
    it has. *)
Theorem mol_from_dict_structure_column (self : Pickaxe) (input_dict : dict string) :
  str_truthy (structure_field self) = false ->
  (_mol_from_dict self input_dict None = Raise ValueError
   <-> Forall (fun field => is_structure_column field = false) (dkeys input_dict))
  ∧ (forall pre field post,
       dkeys input_dict = (pre ++ field :: post)%list ->
       Forall (fun f => is_structure_column f = false) pre ->
       is_structure_column field = true ->
       (exists mol,
           _mol_from_dict self input_dict None
           = Ok (with_structure_field self (Some field), mol))
       ∧ (forall later_row,
             dget later_row field = None ->
             _mol_from_dict (with_structure_field self (Some field)) later_row None
             = Ok (with_structure_field self (Some field), None))).
Proof.
  intros Hunset. split.
  - unfold _mol_from_dict. simpl. rewrite Hunset.
    fold is_structure_column.
    destruct (find _ (dkeys input_dict)) as [field|] eqn:Hfind.
    + apply find_some in Hfind as [Hin Hcol].
      fold (is_structure_column field) in Hcol.
      change (structure_field (with_structure_field self (Some field))) with (Some field).
      rewrite (structure_column_truthy field Hcol). simpl.
      split.
      * destruct (dget input_dict field) as [text|]; [|done].
        destruct (if str_in "InChI=" text then _ else _) as [mol|]; [|done].
        by destruct (_ && _).
      * intros Hall. rewrite Forall_forall in Hall.
        apply list_elem_of_In in Hin. rewrite (Hall _ Hin) in Hcol. done.
    + rewrite Hunset. simpl. split; [|done]. intros _.
      apply Forall_forall. intros f Hf.
      apply list_elem_of_In in Hf.
      apply (find_none _ _ Hfind f Hf).
  - intros pre field post Hkeys Hpre Hcol. split.
    + unfold _mol_from_dict. simpl. rewrite Hunset.
      fold is_structure_column. rewrite Hkeys.
      rewrite (find_first is_structure_column pre field post Hpre Hcol).
      change (structure_field (with_structure_field self (Some field))) with (Some field).
      rewrite (structure_column_truthy field Hcol). simpl.
      destruct (dget input_dict field) as [text|]; [|by eexists].
      destruct (if str_in "InChI=" text then _ else _) as [mol|]; [|by eexists].
      destruct (_ && _); by eexists.
    + intros later_row Hmissing.
      pose proof (structure_column_truthy field Hcol) as Ht. simpl in Ht.
      unfold _mol_from_dict. simpl. rewrite Ht. simpl. rewrite Ht. simpl.
      by rewrite Hmissing.
Qed.
End StructureField.

(** The theorem at an empty object and a row with an id and a SMILES
    column. *)
Lemma mol_from_dict_structure_column_witness :
  (_mol_from_dict Toy.new_pickaxe [("id", "1"); ("SMILES", "CCO")] None = Raise ValueError
   <-> Forall (fun field => is_structure_column field = false)
              (dkeys [("id", "1"); ("SMILES", "CCO")]))
  ∧ (forall pre field post,
       dkeys [("id", "1"); ("SMILES", "CCO")] = (pre ++ field :: post)%list ->
       Forall (fun f => is_structure_column f = false) pre ->
       is_structure_column field = true ->
       (exists mol,
           _mol_from_dict Toy.new_pickaxe [("id", "1"); ("SMILES", "CCO")] None
           = Ok (with_structure_field Toy.new_pickaxe (Some field), mol))
       ∧ (forall later_row,
             dget later_row field = None ->
             _mol_from_dict (with_structure_field Toy.new_pickaxe (Some field)) later_row None
             = Ok (with_structure_field Toy.new_pickaxe (Some field), None))).
Proof. apply (mol_from_dict_structure_column Toy.new_pickaxe). reflexivity. Defined.

(** ** The filter engine: the threshold *)

Section Threshold.
Context `{TK : Toolkit}.

(** X8.  The plain Tanimoto filter on one compound whose fingerprint can be
    computed, when no similarity is negative: the compound is left as it is
    if some target reaches the threshold, and it is marked as not expandable
    if none does. *)
Theorem plain_filter_threshold
    (compounds : dict compound) (c_id smiles : string) (c : compound)
    (target_fps : list Fingerprint) (crit_tani : Q) (fp1 : Fingerprint) :
  dget compounds c_id = Some c ->
  get_fp smiles = Some fp1 ->
  Forall (fun t => (0 <= FingerprintSimilarity fp1 t)%Q) target_fps ->
  (Exists (fun t => (crit_tani <= FingerprintSimilarity fp1 t)%Q) target_fps ->
     apply_filter_result "tani" false compounds
       (_compare_target_fps target_fps crit_tani (c_id, smiles)) = Ok compounds)
  ∧ (Forall (fun t => ~ (crit_tani <= FingerprintSimilarity fp1 t)%Q) target_fps ->
     apply_filter_result "tani" false compounds
       (_compare_target_fps target_fps crit_tani (c_id, smiles))
     = Ok (dset compounds c_id (set_Expand c false))).
Proof.
  intros Hc Hfp Hpos. unfold _compare_target_fps. cbn [fst snd]. rewrite Hfp.
  destruct (find _ target_fps) as [fp2|] eqn:Hfind.
  - apply find_some in Hfind as [Hin Hle]. apply Qle_bool_iff in Hle.
    apply list_elem_of_In in Hin.
    split.
    + intros _. unfold apply_filter_result. rewrite Hc. simpl.
      rewrite Forall_forall in Hpos. specialize (Hpos _ Hin).
      destruct (Qeq_bool (FingerprintSimilarity fp1 fp2) (-1)) eqn:Heq; [|done].
      apply Qeq_bool_iff in Heq. rewrite Heq in Hpos. done.
    + intros Hall. rewrite Forall_forall in Hall. by destruct (Hall _ Hin).
  - split.
    + intros (t & Hin & Hle)%Exists_exists. apply list_elem_of_In in Hin.
      apply (find_none _ _ Hfind) in Hin. simpl in Hin.
      apply Qle_bool_iff in Hle. congruence.
    + intros _. unfold apply_filter_result. by rewrite Hc.
Qed.
End Threshold.

(** The theorem at the seed of the small instance and its two targets. *)
Lemma plain_filter_threshold_witness :
  exists c,
    dget (compounds Toy.tani_seeded) "CCNOS" = Some c
    ∧ (Exists (fun t => (3 # 10 <= FingerprintSimilarity (Toy.chars "CNOS") t)%Q)
              (target_fps Toy.tani_seeded) ->
       apply_filter_result "tani" false (compounds Toy.tani_seeded)
         (_compare_target_fps (target_fps Toy.tani_seeded) (3 # 10) ("CCNOS", "CNOS"))
       = Ok (compounds Toy.tani_seeded))
    ∧ (Forall (fun t => ~ (3 # 10 <= FingerprintSimilarity (Toy.chars "CNOS") t)%Q)
              (target_fps Toy.tani_seeded) ->
       apply_filter_result "tani" false (compounds Toy.tani_seeded)
         (_compare_target_fps (target_fps Toy.tani_seeded) (3 # 10) ("CCNOS", "CNOS"))
       = Ok (dset (compounds Toy.tani_seeded) "CCNOS" (set_Expand c false))).
Proof.
  eexists. split; [vm_compute; reflexivity|].
  apply (plain_filter_threshold (compounds Toy.tani_seeded) "CCNOS" "CNOS" _
           (target_fps Toy.tani_seeded) (3 # 10) (Toy.chars "CNOS")).
  - vm_compute. reflexivity.
  - reflexivity.
  - repeat constructor; vm_compute; discriminate.
Defined.

(** ** The filter engine: what the removal pass may delete *)

Section RemovalScope.
Context `{TK : Toolkit} `{RT : PyRuntime}.

Lemma unqueue_products_subset (products : list (Z * string)) (Q : list string) y :
  y ∈ unqueue_products products Q -> y ∈ Q.
Proof.
  unfold unqueue_products. revert Q.
  induction (products.*2) as [|p ps IH]; intros Q; simpl; [done|].
  intros Hy%IH. case_bool_decide; [|done]. by eapply elem_of_remove_first.
Qed.

Lemma check_reaction_shrinks st rid st' :
  check_reaction st rid = Ok st' ->
  (forall q, q ∈ st'.2 -> q ∈ st.2) ∧ dkeys st'.1.1 = dkeys st.1.1.
Proof.
  destruct st as [[cs rs] Q]. unfold check_reaction.
  destruct (should_delete_reaction rs Q rid) as [delete|]; simpl; [|done].
  destruct (dget rs rid) as [r|]; simpl; [|done].
  destruct delete.
  - destruct (for_each (strip_product_of rid) _ cs) as [cs1|] eqn:H1; simpl; [|done].
    destruct (for_each (strip_reactant_in rid) _ cs1) as [cs2|] eqn:H2; simpl; [|done].
    destruct (ddel_checked rs rid) as [rs'|]; simpl; [|done].
    intros [= <-]. simpl. split; [done|].
    apply (for_each_keys (strip_product_of rid)) in H1; [|apply strip_product_of_keys].
    apply (for_each_keys (strip_reactant_in rid)) in H2; [|apply strip_reactant_in_keys].
    congruence.
  - intros [= <-]. simpl. split; [|done]. intros q. apply unqueue_products_subset.
Qed.

Lemma queue_compounds_scope (cs : dict compound) to_check Q S :
  for_each (queue_compound cs) to_check ([], ∅) = Ok (Q, S) ->
  forall q, q ∈ Q ->
    exists key c, key ∈ to_check ∧ dget cs key = Some c ∧ q = _id c
                  ∧ Expand c = false ∧ startswith q "C" = true.
Proof.
  intros Hq.
  refine (for_each_invariant (queue_compound cs)
           (fun st => forall q, q ∈ st.1 ->
              exists key c, key ∈ to_check ∧ dget cs key = Some c ∧ q = _id c
                            ∧ Expand c = false ∧ startswith q "C" = true)
           to_check ([], ∅) (Q, S) _ _ Hq); [by intros q ?%elem_of_nil|].
  intros [Q1 S1] key [Q2 S2] Hkey HI. unfold queue_compound.
  destruct (dget cs key) as [c|] eqn:Hc; simpl; [|done].
  destruct (negb (Expand c) && startswith (_id c) "C") eqn:Hcond.
  - destruct (dget cs (_id c)) as [c'|]; simpl; [|done].
    destruct (Product_of c') as [po|]; simpl; [|done].
    destruct (Reactant_in c') as [ri|]; simpl; [|done].
    intros [= <- _] q [Hin| ->%list_elem_of_singleton]%elem_of_app; [by apply HI|].
    apply andb_true_iff in Hcond as [Hexp Hstart]. apply negb_true_iff in Hexp.
    by exists key, c.
  - intros [= <- _]. done.
Qed.

Lemma delete_queue_shrinks (cs : dict compound) Q (cs' : dict compound) k :
  for_each ddel_checked Q cs = Ok cs' -> k ∈ dkeys cs' -> k ∈ dkeys cs.
Proof.
  revert cs. induction Q as [|q Q IH]; intros cs; simpl.
  - by intros [= <-].
  - unfold ddel_checked at 1. destruct (dmem q cs); simpl; [|done].
    intros Hrest Hk. eapply elem_of_dkeys_ddel. by eapply IH.
Qed.

(** X9.  [_filter_by] adds no compound, and a compound it deletes was stored
    under an id that starts with ['C'], belongs to the current generation
    and is neither a coreactant nor a target: compounds of earlier
    generations, coreactants and targets always survive the filter. *)
Theorem filter_deletes_only_current_generation
    (self self' : Pickaxe) (measure : string) (num_workers : Z)
    (arrival : list (string * string)) :
  NoDup (dkeys (compounds self)) ->
  keys_are_ids (compounds self) ->
  _filter_by self measure num_workers arrival = Ok self' ->
  (forall k, k ∈ dkeys (compounds self') -> k ∈ dkeys (compounds self))
  ∧ (forall k, k ∈ dkeys (compounds self) -> k ∉ dkeys (compounds self') ->
       exists c, dget (compounds self) k = Some c
                 ∧ Generation c = generation self
                 ∧ (Type_ c ∉ ["Coreactant"; "Target Compound"])
                 ∧ startswith k "C" = true).
Proof.
  intros Hnd Hids. unfold _filter_by.
  set (checked := filter _ (compounds self)).
  destruct (if bool_decide (measure = "tani") then _ else _) as [ignore|]; simpl; [|done].
  destruct (for_each (apply_filter_result measure (increasing_tani self)) ignore
                     (compounds self)) as [cs1|] eqn:Hflag; simpl; [|done].
  apply flag_loop_fields in Hflag as [Hkeys1 Hfields1].
  unfold _filter_by_removal.
  destruct (for_each (queue_compound cs1) checked.*1 ([], ∅)) as [[Q S]|] eqn:Hq;
    simpl; [|done].
  destruct (for_each check_reaction (set_order S) (cs1, reactions self, Q))
    as [[[cs2 rs2] Q2]|] eqn:Hcheck; simpl; [|done].
  destruct (for_each ddel_checked Q2 cs2) as [cs3|] eqn:Hdel; simpl; [|done].
  intros [= <-]. simpl.
  assert ((forall q, q ∈ Q2 -> q ∈ Q) ∧ dkeys cs2 = dkeys cs1) as [HQ2 Hkeys2].
  { refine (for_each_invariant check_reaction
              (fun st => (forall q, q ∈ st.2 -> q ∈ Q) ∧ dkeys st.1.1 = dkeys cs1)
              (set_order S) (cs1, reactions self, Q) (cs2, rs2, Q2) _ _ Hcheck); [done|].
    intros st rid st' _ [HQ Hk] Hstep. apply check_reaction_shrinks in Hstep as [HQ' Hk'].
    split; [intros q Hin; by apply HQ, HQ'|congruence]. }
  split.
  - intros k Hk. apply (delete_queue_shrinks _ _ _ _ Hdel) in Hk. congruence.
  - intros k Hk Hgone.
    destruct (decide (k ∈ Q2)) as [HinQ|HnotQ].
    2:{ exfalso. apply Hgone. apply (delete_queue_keeps _ _ _ _ Hdel); [congruence|done]. }
    apply HQ2 in HinQ.
    destruct (queue_compounds_scope _ _ _ _ Hq k HinQ) as (key & c1 & Hkey & Hc1 & -> & _ & Hstart).
    destruct (Hfields1 key c1 Hc1) as (c0 & Hc0 & Hid & _).
    pose proof (Hids key c0 Hc0) as Hkey0.
    apply list_elem_of_fmap in Hkey as ([key' c] & -> & Hin). simpl in *.
    apply list_elem_of_filter in Hin as [[Hgen Hty] Hin]. simpl in *.
    pose proof (dget_elem_NoDup _ _ _ Hnd Hin) as Hc. rewrite Hc0 in Hc. injection Hc as <-.
    rewrite Hid, Hkey0 in Hstart |- *. exists c0. by split_and!.
Qed.
End RemovalScope.

(** The theorem at the two-compound network of the small instance. *)
Lemma filter_deletes_only_current_generation_witness :
  (forall k, k ∈ dkeys (compounds (Toy.get' (_filter_by Toy.cascade_network "tani" 1 []))) ->
             k ∈ dkeys (compounds Toy.cascade_network))
  ∧ (forall k, k ∈ dkeys (compounds Toy.cascade_network) ->
       k ∉ dkeys (compounds (Toy.get' (_filter_by Toy.cascade_network "tani" 1 []))) ->
       exists c, dget (compounds Toy.cascade_network) k = Some c
                 ∧ Generation c = generation Toy.cascade_network
                 ∧ (Type_ c ∉ ["Coreactant"; "Target Compound"])
                 ∧ startswith k "C" = true).
Proof.
  apply (filter_deletes_only_current_generation Toy.cascade_network _ "tani" 1 []).
  - by_compute.
  - apply keys_are_ids_check. by_compute.
  - vm_compute. reflexivity.
Defined.

(** ** The network reducer: what the search returns *)

Section Closure.
Context `{TK : Toolkit} `{RT : PyRuntime}.
Variable compounds : dict compound.
Variable reactions : dict reaction.
Variable white_set : gset string.

Abbreviation needed' := (needed compounds reactions white_set).
Abbreviation visit_inv' := (visit_inv compounds reactions white_set).
Abbreviation closure_inv' := (closure_inv compounds reactions white_set).

Lemma visited_mono x (W R W' R' : gset string) :
  W ⊆ W' -> R ⊆ R' ->
  visited compounds reactions x W R -> visited compounds reactions x W' R'.
Proof.
  intros HW HR Hv rid Hp. destruct (Hv rid Hp) as [? Hq]. split; [set_solver|].
  intros r q ? ? ?. apply HW. by eapply Hq.
Qed.

Lemma visit_reactants_closure (W R : gset string) (l : list (Z * string)) a W1 C1 R1 :
  visit_inv' W R a W1 R1 ->
  (forall q, q ∈ l.*2 -> startswith q "C" = true -> needed' q) ->
  exists a' W' C',
    fold_left visit_reactant l (a, W1, C1, R1) = (a', W', C', R1)
    ∧ visit_inv' W R a' W' R1
    ∧ W1 ⊆ W'
    ∧ (forall q, q ∈ l.*2 -> startswith q "C" = true -> q ∈ W').
Proof.
  revert a W1 C1. induction l as [|[s q] l IH]; intros a W1 C1 HJ Hneed; simpl.
  - exists a, W1, C1. split_and!; [done|done|done|]. by intros q ?%elem_of_nil.
  - assert (forall q', q' ∈ l.*2 -> startswith q' "C" = true -> needed' q') as Hneed'.
    { intros q' Hq'. apply Hneed. simpl. by right. }
    destruct (startswith q "C" && negb (bool_decide (q ∈ W1))) eqn:Hc.
    + apply andb_true_iff in Hc as [Hstart Hnew].
      apply negb_true_iff, bool_decide_eq_false in Hnew.
      destruct (IH (a ++ [q])%list (W1 ∪ {[ q ]}) (C1 ∪ {[ q ]})) as (a' & W' & C' & -> & HJ' & HW' & Hall);
        [|done|].
      { destruct HJ as (H1 & H2 & H3 & H4 & H5 & H6). split_and!; try done.
        - set_solver.
        - intros y [Hy|Hy]%elem_of_union; [by apply H3|].
          apply elem_of_singleton in Hy. subst. apply Hneed; [simpl; by left|done].
        - intros y [Hy| ->%list_elem_of_singleton]%elem_of_app; set_solver.
        - intros y [Hy|Hy]%elem_of_union.
          + destruct (H5 y Hy); [by left|right]. apply elem_of_app. by left.
          + apply elem_of_singleton in Hy. subst.
            right. apply elem_of_app. right. by apply list_elem_of_singleton. }
      exists a', W', C'. split_and!; [done|done|set_solver|].
      intros q' [->|Hq']%elem_of_cons Hs; [set_solver|by apply Hall].
    + destruct (IH a W1 (C1 ∪ {[ q ]})) as (a' & W' & C' & -> & HJ' & HW' & Hall); [done|done|].
      exists a', W', C'. split_and!; [done|done|done|].
      intros q' [->|Hq']%elem_of_cons Hs; [|by apply Hall].
      rewrite Hs in Hc. simpl in Hc. apply negb_false_iff, bool_decide_eq_true in Hc.
      set_solver.
Qed.

Lemma visit_reaction_closure (W R : gset string) x a W1 C1 R1 rid st' :
  visit_inv' W R a W1 R1 -> needed' x -> produced_by compounds x rid ->
  visit_reaction reactions (a, W1, C1, R1) rid = Ok st' ->
  exists a' W' C',
    st' = (a', W', C', R1 ∪ {[ rid ]})
    ∧ visit_inv' W R a' W' (R1 ∪ {[ rid ]})
    ∧ W1 ⊆ W'
    ∧ (forall r q, dget reactions rid = Some r -> q ∈ (Reactants r).*2 ->
                   startswith q "C" = true -> q ∈ W').
Proof.
  intros HJ Hx Hprod. unfold visit_reaction.
  destruct (dget reactions rid) as [r|] eqn:Hr; simpl; [|done].
  intros [= <-].
  destruct (visit_reactants_closure W R (Reactants r) a W1
              (C1 ∪ list_to_set (Products r).*2) (R1 ∪ {[ rid ]}))
    as (a' & W' & C' & -> & HJ' & HW' & Hall).
  { destruct HJ as (H1 & H2 & H3 & H4 & H5 & H6). split_and!; try done; [set_solver|].
    intros rid' [Hin|Hin]%elem_of_union; [by apply H6|].
    apply elem_of_singleton in Hin. subst. by exists x. }
  { intros q Hq Hs. by eapply (needed_reactant _ _ _ x rid r q). }
  exists a', W', C'. split_and!; [done|done|done|].
  intros r' q [= <-]. apply Hall.
Qed.

Lemma visit_reactions_closure (W R : gset string) x (l : list string) a W1 C1 R1 st' :
  visit_inv' W R a W1 R1 -> needed' x ->
  (forall rid, rid ∈ l -> produced_by compounds x rid) ->
  for_each (visit_reaction reactions) l (a, W1, C1, R1) = Ok st' ->
  exists a' W' C' R',
    st' = (a', W', C', R')
    ∧ visit_inv' W R a' W' R'
    ∧ W1 ⊆ W' ∧ R1 ⊆ R'
    ∧ (forall rid, rid ∈ l ->
         rid ∈ R'
         ∧ forall r q, dget reactions rid = Some r -> q ∈ (Reactants r).*2 ->
                       startswith q "C" = true -> q ∈ W').
Proof.
  revert a W1 C1 R1. induction l as [|rid l IH]; intros a W1 C1 R1 HJ Hx Hprod; cbn [for_each].
  - intros [= <-]. exists a, W1, C1, R1. split_and!; try done. by intros rid ?%elem_of_nil.
  - destruct (visit_reaction reactions (a, W1, C1, R1) rid) as [st1|] eqn:H1; cbn [rbind]; [|done].
    destruct (visit_reaction_closure W R x a W1 C1 R1 rid st1 HJ Hx) as
      (a1 & W2 & C2 & -> & HJ1 & HW1 & Hall1); [apply Hprod; by left|done|].
    intros Hrest.
    destruct (IH a1 W2 C2 (R1 ∪ {[ rid ]}) HJ1 Hx) as
      (a' & W' & C' & R' & -> & HJ' & HW' & HR' & Hall'); [intros; apply Hprod; by right|done|].
    exists a', W', C', R'. split_and!; [done|done|set_solver|set_solver|].
    intros rid' [->|Hin]%elem_of_cons; [|by apply Hall'].
    split; [set_solver|]. intros r q ? ? ?. apply HW'. by eapply Hall1.
Qed.

Lemma visit_compound_closure x rest (W C R : gset string) a W' C' R' :
  closure_inv' (x :: rest) W R ->
  visit_compound compounds reactions ([], W, C, R) x = Ok (a, W', C', R') ->
  closure_inv' (rest ++ a) W' R'.
Proof.
  intros (H1 & H2 & H3 & H4 & H5). unfold visit_compound.
  destruct (dget compounds x) as [c|] eqn:Hc.
  - destruct (Product_of c) as [po|] eqn:Hpo; simpl; [|done].
    intros Hloop.
    assert (visit_inv' W R [] W R) as HJ0.
    { split_and!; try done; [by intros y ?%elem_of_nil|auto]. }
    assert (needed' x) as Hx by (apply H2, H3; by left).
    assert (forall rid, rid ∈ po -> produced_by compounds x rid) as Hprod.
    { intros rid Hin. by exists c, po. }
    destruct (visit_reactions_closure W R x po [] W C R _ HJ0 Hx Hprod Hloop)
      as (a1 & W1 & C1 & R1 & [= -> -> -> ->] & HJ & HW & HR & Hall).
    destruct HJ as (J1 & J2 & J3 & J4 & J5 & J6). split_and!.
    + set_solver.
    + done.
    + intros y [Hy|Hy]%elem_of_app; [apply HW, H3; by right|by apply J4].
    + intros y Hy. destruct (J5 y Hy) as [HyW|Hya].
      * destruct (H4 y HyW) as [[->|Hin]%elem_of_cons|Hv].
        -- right. intros rid (c' & po' & Hc' & Hpo' & Hin).
           rewrite Hc in Hc'. injection Hc' as <-. rewrite Hpo in Hpo'. injection Hpo' as <-.
           by apply Hall.
        -- left. apply elem_of_app. by left.
        -- right. by eapply visited_mono.
      * left. apply elem_of_app. by right.
    + done.
  - intros [= <- <- <- <-]. rewrite app_nil_r. split_and!; try done.
    + intros y Hy. apply H3. by right.
    + intros y Hy. destruct (H4 y Hy) as [[->|Hin]%elem_of_cons|Hv]; [|by left|by right].
      right. intros rid (c' & po' & Hc' & _). congruence.
Qed.

Lemma minimal_set_loop_closure fuel todo (W C R C' R' : gset string) :
  closure_inv' todo W R ->
  minimal_set_loop fuel compounds reactions todo W C R = Some (Ok (C', R')) ->
  exists W', closure_inv' [] W' R'.
Proof.
  revert todo W C R. induction fuel as [|fuel IH]; intros todo W C R Hinv; simpl; [done|].
  destruct todo as [|x rest].
  - intros [= <- <-]. by exists W.
  - destruct (visit_compound compounds reactions ([], W, C, R) x)
      as [[[[a W1] C1] R1]|e] eqn:Hv; [|done].
    apply IH. by eapply visit_compound_closure.
Qed.

Lemma closure_complete (W R : gset string) :
  closure_inv' [] W R ->
  forall rid, rid ∈ R <-> exists x, needed' x ∧ produced_by compounds x rid.
Proof.
  intros (H1 & H2 & H3 & H4 & H5).
  assert (forall y, needed' y -> y ∈ W) as Hall.
  { intros y Hy. induction Hy as [y Hy|y rid r q Hy IH Hprod Hr Hq Hs]; [set_solver|].
    destruct (H4 y IH) as [?%elem_of_nil|Hv]; [done|].
    destruct (Hv rid Hprod) as [_ Hreact]. by eapply Hreact. }
  intros rid. split; [apply H5|].
  intros (x & Hx & Hprod). destruct (H4 x (Hall x Hx)) as [?%elem_of_nil|Hv]; [done|].
  by apply Hv.
Qed.
End Closure.

(** X10.  The search always ends.  When it returns, the reaction set holds
    exactly the reactions named in the ['Product_of'] list of a compound of
    the backward closure of the whitelist (the whitelist, and the ['C']
    reactants of the reactions that produce a compound of the closure), and
    the compound set holds exactly the compounds those reactions name, plus
    the stored target ids when the Tanimoto filter is on. *)
Theorem find_minimal_set_is_backward_closure `{TK : Toolkit} `{RT : PyRuntime}
    (self : Pickaxe) (white_set : gset string) :
  find_minimal_set self white_set <> None
  ∧ forall comp_set rxn_set,
      find_minimal_set self white_set = Some (Ok (comp_set, rxn_set)) ->
      (forall rid,
          rid ∈ rxn_set
          <-> exists x, needed (compounds self) (reactions self) white_set x
                        ∧ produced_by (compounds self) x rid)
      ∧ (forall x,
            x ∈ comp_set
            <-> (exists rid r, rid ∈ rxn_set ∧ dget (reactions self) rid = Some r
                               ∧ x ∈ participants r)
                ∨ (tani_filter self = true ∧ startswith x "T" = true
                   ∧ x ∈ dkeys (compounds self))).
Proof.
  destruct (find_minimal_set_ends self white_set) as [Hends Hclosed].
  split; [done|]. intros comp_set rxn_set Hres.
  destruct (Hclosed _ _ Hres) as (C0 & [Hc1 Hc2] & ->). split.
  - unfold find_minimal_set in Hres.
    destruct (minimal_set_loop _ _ _ _ _ _ _) as [[[C R]|e]|] eqn:Hloop; try done.
    injection Hres as _ <-.
    apply (minimal_set_loop_closure (compounds self) (reactions self) white_set) in Hloop
      as [W' Hinv].
    + by apply (closure_complete _ _ _ W').
    + pose proof (set_order_perm white_set) as Hperm. split_and!.
      * done.
      * intros y Hy. by apply needed_white.
      * intros y Hy. rewrite Hperm in Hy. set_solver.
      * intros y Hy. left. rewrite Hperm. set_solver.
      * set_solver.
  - intros x. split.
    + intros Hx.
      assert (x ∈ C0 ∨ (tani_filter self = true ∧ startswith x "T" = true
                        ∧ x ∈ dkeys (compounds self))) as [HC0|HT].
      { destruct (tani_filter self); [|by left].
        apply elem_of_union in Hx as [?|HT]; [by left|right].
        apply elem_of_list_to_set, list_elem_of_filter in HT as [? ?]. done. }
      * left. by apply Hc1.
      * by right.
    + intros [(rid & r & Hrid & Hr & Hp)|(HT & HxT & Hin)].
      * assert (x ∈ C0) as HC0.
        { destruct (Hc2 rid Hrid) as (r' & Hr' & Hall). rewrite Hr in Hr'.
          injection Hr' as <-. by apply Hall. }
        destruct (tani_filter self); [|done]. apply elem_of_union. by left.
      * rewrite HT. apply elem_of_union. right.
        apply elem_of_list_to_set, list_elem_of_filter. done.
Qed.

(** The theorem at the expanded ethanol network and the whitelist made of
    acetaldehyde. *)
Lemma find_minimal_set_is_backward_closure_witness :
  exists comp_set rxn_set,
    find_minimal_set Toy.ethanol_expanded {[ "CCC=O" ]} = Some (Ok (comp_set, rxn_set))
    ∧ (forall rid,
          rid ∈ rxn_set
          <-> exists x, needed (compounds Toy.ethanol_expanded) (reactions Toy.ethanol_expanded)
                               {[ "CCC=O" ]} x
                        ∧ produced_by (compounds Toy.ethanol_expanded) x rid)
    ∧ (forall x,
          x ∈ comp_set
          <-> (exists rid r, rid ∈ rxn_set
                             ∧ dget (reactions Toy.ethanol_expanded) rid = Some r
                             ∧ x ∈ participants r)
              ∨ (tani_filter Toy.ethanol_expanded = true ∧ startswith x "T" = true
                 ∧ x ∈ dkeys (compounds Toy.ethanol_expanded))).
Proof.
  eexists _, _. split; [vm_compute; reflexivity|].
  apply (proj2 (find_minimal_set_is_backward_closure Toy.ethanol_expanded {[ "CCC=O" ]})).
  vm_compute. reflexivity.
Defined.

Section PruneScope.
Context `{TK : Toolkit} `{RT : PyRuntime}.

(** X11.  [prune_network] always ends.  When it returns, the compounds and
    the reactions that remain are stored as before and in the same order,
    and every compound that a remaining reaction names as a reactant or a
    product, and that was stored, is still stored. *)
Theorem prune_network_keeps_participants (self : Pickaxe) (white_list : list string) :
  NoDup (dkeys (reactions self)) ->
  prune_network self white_list <> None
  ∧ forall self',
      prune_network self white_list = Some (Ok self') ->
      compounds self' `sublist_of` compounds self
      ∧ reactions self' `sublist_of` reactions self
      ∧ (forall rid r,
            dget (reactions self') rid = Some r ->
            dget (reactions self) rid = Some r
            ∧ forall x, x ∈ participants r -> x ∈ dkeys (compounds self) ->
                        x ∈ dkeys (compounds self')).
Proof.
  intros Hnd. unfold prune_network.
  destruct (find_minimal_set_ends self (list_to_set white_list)) as [Hends Hclosed].
  destruct (find_minimal_set self (list_to_set white_list)) as [[[C R]|e]|]; [|done|done].
  split; [done|]. intros self' [= <-]. simpl.
  destruct (Hclosed C R eq_refl) as (C0 & [_ Hc2] & HC).
  split_and!; [apply sublist_filter|apply sublist_filter|].
  intros rid r Hr. apply dget_Some_elem, list_elem_of_filter in Hr as [HR Hin]. simpl in HR.
  pose proof (dget_elem_NoDup _ _ _ Hnd Hin) as Hr. split; [done|].
  intros x Hx Hstored. apply elem_of_dkeys_filter. split; [done|].
  destruct (Hc2 rid HR) as (r' & Hr' & Hall). rewrite Hr in Hr'. injection Hr' as <-.
  specialize (Hall x Hx). rewrite HC. destruct (tani_filter self); set_solver.
Qed.

Lemma filter_none_of {A : Type} (P : A -> Prop) `{!forall x, Decision (P x)} (l : list A) :
  (forall x, x ∈ l -> ~ P x) -> filter P l = [].
Proof.
  induction l as [|a l IH]; intros Hnone; [done|].
  rewrite filter_cons_False; [|apply Hnone; by left].
  apply IH. intros x Hx. apply Hnone. by right.
Qed.

(** X12.  When no stored compound with a ['C'] id has a coreactant twin (the
    same id behind an ['X']), [remove_cofactor_redundancy] returns the object
    unchanged. *)
Theorem remove_cofactor_redundancy_without_twins (self : Pickaxe) :
  (forall k, k ∈ dkeys (compounds self) -> startswith k "C" = true ->
             String.append "X" (tail1 k)
               ∉ (fun co : Mol * string => co.2) <$> dvalues (coreactants self)) ->
  remove_cofactor_redundancy self = Ok self.
Proof.
  intros Hnone. unfold remove_cofactor_redundancy.
  rewrite filter_none_of.
  - simpl. by destruct self.
  - intros k Hk [Hin Hs]. by apply (Hnone k Hk Hs).
Qed.
End PruneScope.

(** The theorem at the expanded ethanol network with acetaldehyde
    whitelisted. *)
Lemma prune_network_keeps_participants_witness :
  prune_network Toy.ethanol_expanded ["CCC=O"] <> None
  ∧ forall self',
      prune_network Toy.ethanol_expanded ["CCC=O"] = Some (Ok self') ->
      compounds self' `sublist_of` compounds Toy.ethanol_expanded
      ∧ reactions self' `sublist_of` reactions Toy.ethanol_expanded
      ∧ (forall rid r,
            dget (reactions self') rid = Some r ->
            dget (reactions Toy.ethanol_expanded) rid = Some r
            ∧ forall x, x ∈ participants r -> x ∈ dkeys (compounds Toy.ethanol_expanded) ->
                        x ∈ dkeys (compounds self')).
Proof. apply (prune_network_keeps_participants Toy.ethanol_expanded). by_compute. Defined.

(** The theorem at lactic acid seeded beside the coreactants water and
    carbon dioxide, before any expansion. *)
Lemma remove_cofactor_redundancy_without_twins_witness :
  remove_cofactor_redundancy Toy.lactate_seeded = Ok Toy.lactate_seeded.
Proof.
  apply (remove_cofactor_redundancy_without_twins Toy.lactate_seeded).
  apply (proj1 (Forall_forall
                  (fun k => startswith k "C" = true ->
                            String.append "X" (tail1 k)
                              ∉ (fun co : Mol * string => co.2)
                                  <$> dvalues (coreactants Toy.lactate_seeded)) _)).
  by_compute.
Defined.

(** ** The generation loop *)

Section DriverFacts.
Context `{TK : Toolkit} `{RT : PyRuntime}.

Lemma same_settings_refl self : same_settings self self.
Proof. by repeat split. Qed.

Lemma same_settings_trans s1 s2 s3 :
  same_settings s1 s2 -> same_settings s2 s3 -> same_settings s1 s3.
Proof.
  intros (?&?&?&?&?&?&?&?) (?&?&?&?&?&?&?&?). repeat split; congruence.
Qed.

Lemma filter_by_settings self measure nw arrival self' :
  _filter_by self measure nw arrival = Ok self' ->
  generation self' = generation self ∧ same_settings self self'.
Proof.
  unfold _filter_by.
  destruct (if bool_decide (measure = "tani") then _ else _) as [l|]; simpl; [|done].
  destruct (for_each _ l _) as [cs|]; simpl; [|done].
  destruct (_filter_by_removal _ _ _) as [[cs' rs']|]; simpl; [|done].
  intros [= <-]. split; [done|]. by repeat split.
Qed.

Lemma update_rxns_kept (new_rxns : dict reaction) st st' :
  for_each update_rxn new_rxns st = Ok st' -> reactions_kept st.2 st'.2.
Proof.
  revert st. induction new_rxns as [|[k r0] l IH]; intros st; cbn [for_each].
  - intros [= <-] rid r Hr. exists r. by split_and!.
  - destruct (update_rxn st (k, r0)) as [st1|] eqn:H1; cbn [rbind]; [|done].
    intros Hrest rid r Hr.
    apply update_rxn_reactions in H1 as [(r1 & Hr1 & Hm) Hother].
    assert (exists r', dget st1.2 rid = Some r' ∧ Operators r ⊆ Operators r'
                       ∧ Reactants r' = Reactants r ∧ Products r' = Products r)
      as (r' & Hr' & Hops & Hre & Hpr).
    { destruct (decide (rid = k)) as [->|Hne].
      - rewrite Hr in Hm. destruct Hm as (Ho & _ & ? & ? & _).
        exists r1. split_and!; [done|set_solver|done|done].
      - exists r. rewrite Hother by done. by split_and!. }
    destruct (IH st1 Hrest rid r' Hr') as (r'' & ? & ? & ? & ?).
    exists r''. split_and!; [done|set_solver|congruence|congruence].
Qed.

Lemma transform_helper_settings self smiles nw arrival self' :
  _transform_helper self smiles nw arrival = Ok self' ->
  generation self' = generation self ∧ same_settings self self'
  ∧ extends (compounds self) (compounds self')
  ∧ reactions_kept (reactions self) (reactions self').
Proof.
  unfold _transform_helper.
  match goal with |- context [for_each ?b (coreactants self) []] =>
    destruct (for_each b (coreactants self) []) as [cd|] end; simpl; [|done].
  destruct (_transform_all_compounds_with_full _ _ _ _ _ _ _ _) as [[nc nr]|]; simpl; [|done].
  destruct (update_cpds_rxns _ _ _ _) as [[cs rs]|] eqn:Hup; simpl; [|done].
  intros [= <-]. simpl. split_and!; [done|by repeat split| |].
  - by eapply update_cpds_rxns_extends.
  - unfold update_cpds_rxns in Hup. by apply update_rxns_kept in Hup.
Qed.

Lemma transform_round_generation self nw orders :
  match transform_round self nw orders with
  | Ok (Next self') => generation self' = generation self + 1 ∧ same_settings self self'
  | Ok (Return self') =>
      generation self <= generation self' <= generation self + 1 ∧ same_settings self self'
  | Raise _ => True
  end.
Proof.
  unfold transform_round, tani_round, mcs_round, expand_round.
  assert (forall s, same_settings self s ->
            generation s = generation self ->
            match
              (let self0 := set_generation s (generation s + 1) in
               let compound_smiles :=
                 SMILES <$> filter (fun cpd => Generation cpd = generation self0 - 1
                                               ∧ (Type_ cpd ∉ ["Coreactant"; "Target Compound"])
                                               ∧ Expand cpd = true)
                                   (dvalues (compounds self0)) in
               if nonempty compound_smiles then
                 rbind (_transform_helper self0 compound_smiles nw
                          (expand_order orders (generation self0)))
                       (fun self1 => Ok (Next self1))
               else Ok (Return self0))
            with
            | Ok (Next self') =>
                generation self' = generation self + 1 ∧ same_settings self self'
            | Ok (Return self') =>
                generation self <= generation self' <= generation self + 1
                ∧ same_settings self self'
            | Raise _ => True
            end) as Hexpand.
  { intros s Hs Hg. cbv zeta.
    destruct (nonempty _).
    - destruct (_transform_helper _ _ _ _) as [s1|] eqn:Hh; simpl; [|done].
      apply transform_helper_settings in Hh as (Hg1 & Hs1 & _). simpl in Hg1.
      split; [lia|]. eapply same_settings_trans; [exact Hs|].
      eapply same_settings_trans; [|exact Hs1]. by repeat split.
    - simpl. split; [lia|]. eapply same_settings_trans; [exact Hs|]. by repeat split. }
  assert (forall s, same_settings self s -> generation s = generation self ->
            match
              rbind (if mcs_filter s
                     then if nonempty (target_smiles s)
                          then rbind match crit_mcs s with
                                     | CritScalar _ => Raise TypeError
                                     | CritList l => py_index l (generation s)
                                     end
                                 (fun _ => rbind (_filter_by s "mcs" nw
                                                    (mcs_order orders (generation s)))
                                             (fun self0 => Ok (Next self0)))
                          else Ok (Return s)
                     else Ok (Next s))
                (fun r => match r with
                          | Return self0 => Ok (Return self0)
                          | Next self0 => expand_round self0 nw orders
                          end)
            with
            | Ok (Next self') =>
                generation self' = generation self + 1 ∧ same_settings self self'
            | Ok (Return self') =>
                generation self <= generation self' <= generation self + 1
                ∧ same_settings self self'
            | Raise _ => True
            end) as Hmcs.
  { intros s Hs Hg. destruct (mcs_filter s).
    - destruct (nonempty (target_smiles s)).
      + destruct (match crit_mcs s with CritScalar _ => _ | CritList _ => _ end); simpl; [|done].
        destruct (_filter_by s "mcs" nw _) as [s1|] eqn:Hf; simpl; [|done].
        apply filter_by_settings in Hf as [Hg1 Hs1].
        apply Hexpand; [by eapply same_settings_trans|congruence].
      + simpl. split; [lia|done].
    - simpl. by apply Hexpand. }
  destruct (tani_filter self).
  - destruct (nonempty (target_fps self)).
    + destruct (crit_at _ _); simpl; [|done].
      destruct (_filter_by self "tani" nw _) as [s1|] eqn:Hf; simpl; [|done].
      apply filter_by_settings in Hf as [Hg1 Hs1]. by apply Hmcs.
    + simpl. split; [lia|apply same_settings_refl].
  - simpl. apply Hmcs; [apply same_settings_refl|done].
Qed.

Lemma transform_all_loop_ends fuel self nw maxg orders :
  (Z.to_nat (maxg - generation self) <= fuel)%nat ->
  exists res,
    transform_all_loop fuel self nw maxg orders = Some res
    ∧ forall self', res = Ok self' ->
        generation self <= generation self' <= Z.max (generation self) maxg
        ∧ same_settings self self'.
Proof.
  revert self. induction fuel as [|fuel IH]; intros self Hfuel; simpl.
  - destruct (generation self <? maxg) eqn:Hlt; [apply Z.ltb_lt in Hlt; lia|].
    eexists. split; [done|]. intros self' [= <-]. split; [lia|apply same_settings_refl].
  - destruct (generation self <? maxg) eqn:Hlt.
    + apply Z.ltb_lt in Hlt.
      pose proof (transform_round_generation self nw orders) as Hround.
      destruct (transform_round self nw orders) as [[s1|s1]|e].
      * eexists. split; [done|]. intros self' [= <-]. destruct Hround. split; [lia|done].
      * destruct Hround as [Hg Hs].
        destruct (IH s1) as (res & -> & Hres); [lia|].
        eexists. split; [done|]. intros self' Hok.
        destruct (Hres self' Hok) as [? ?]. split; [lia|by eapply same_settings_trans].
      * eexists. split; [done|]. by intros ? [=].
    + eexists. split; [done|]. intros self' [= <-]. split; [lia|apply same_settings_refl].
Qed.

(** X13.  [transform_all] always ends.  When it returns, the generation
    counter has not gone down and is at most the larger of its starting value
    and [max_generations], and the rules, the coreactants, the filter
    switches, the targets and the thresholds are what they were. *)
Theorem transform_all_ends (self : Pickaxe) (num_workers max_generations : Z)
    (orders : completion_orders) :
  transform_all self num_workers max_generations orders <> None
  ∧ forall self',
      transform_all self num_workers max_generations orders = Some (Ok self') ->
      generation self <= generation self' <= Z.max (generation self) max_generations
      ∧ same_settings self self'.
Proof.
  unfold transform_all.
  destruct (transform_all_loop_ends (Z.to_nat (max_generations - generation self))
              self num_workers max_generations orders) as (res & -> & Hres); [lia|].
  split; [done|]. intros self' [= ->]. by apply Hres.
Qed.

Lemma reactions_kept_refl rs : reactions_kept rs rs.
Proof. intros rid r Hr. exists r. by split_and!. Qed.

Lemma reactions_kept_trans rs1 rs2 rs3 :
  reactions_kept rs1 rs2 -> reactions_kept rs2 rs3 -> reactions_kept rs1 rs3.
Proof.
  intros H12 H23 rid r Hr. destruct (H12 rid r Hr) as (r2 & Hr2 & ? & ? & ?).
  destruct (H23 rid r2 Hr2) as (r3 & Hr3 & ? & ? & ?).
  exists r3. split_and!; [done|set_solver|congruence|congruence].
Qed.

Lemma unfiltered_round self nw orders :
  tani_filter self = false -> mcs_filter self = false ->
  match transform_round self nw orders with
  | Ok (Next self') | Ok (Return self') =>
      extends (compounds self) (compounds self')
      ∧ reactions_kept (reactions self) (reactions self')
      ∧ tani_filter self' = false ∧ mcs_filter self' = false
  | Raise _ => True
  end.
Proof.
  intros Ht Hm. unfold transform_round, tani_round, mcs_round. rewrite Ht. cbn [rbind].
  rewrite Hm. cbn [rbind]. unfold expand_round. cbv zeta.
  destruct (nonempty _).
  - destruct (_transform_helper _ _ _ _) as [s1|] eqn:Hh; simpl; [|done].
    apply transform_helper_settings in Hh as (_ & Hs & Hext & Hkept).
    destruct Hs as (_ & _ & Ht1 & Hm1 & _). simpl in *.
    split_and!; [done|done|congruence|congruence].
  - simpl. split_and!; [apply extends_refl|apply reactions_kept_refl|done|done].
Qed.

Lemma unfiltered_loop fuel self nw maxg orders self' :
  tani_filter self = false -> mcs_filter self = false ->
  transform_all_loop fuel self nw maxg orders = Some (Ok self') ->
  extends (compounds self) (compounds self')
  ∧ reactions_kept (reactions self) (reactions self').
Proof.
  revert self. induction fuel as [|fuel IH]; intros self Ht Hm; simpl.
  - destruct (generation self <? maxg); [done|]. intros [= <-].
    split; [apply extends_refl|apply reactions_kept_refl].
  - destruct (generation self <? maxg).
    + pose proof (unfiltered_round self nw orders Ht Hm) as Hround.
      destruct (transform_round self nw orders) as [[s1|s1]|e]; [| |done].
      * intros [= <-]. by destruct Hround as (? & ? & _).
      * destruct Hround as (Hext & Hkept & Ht1 & Hm1). intros Hrest.
        destruct (IH s1 Ht1 Hm1 Hrest) as [Hext' Hkept'].
        split; [by eapply extends_trans|by eapply reactions_kept_trans].
    + intros [= <-]. split; [apply extends_refl|apply reactions_kept_refl].
Qed.

(** X14.  With both filters switched off, [transform_all] loses nothing:
    every compound that was stored is still stored with the same fields, its
    back-reference lists at most longer, and every reaction that was stored
    is still stored with the same reactants and products and at least the
    operators it had. *)
Theorem expansion_without_filters_keeps_network
    (self self' : Pickaxe) (num_workers max_generations : Z) (orders : completion_orders) :
  tani_filter self = false ->
  mcs_filter self = false ->
  transform_all self num_workers max_generations orders = Some (Ok self') ->
  extends (compounds self) (compounds self')
  ∧ reactions_kept (reactions self) (reactions self').
Proof. intros Ht Hm. unfold transform_all. by apply unfiltered_loop. Qed.

(** X15.  With the similarity filter switched off, the substructure filter
    switched on, targets loaded, a single number as [crit_mcs] and the
    generation counter below [max_generations], the first round of
    [transform_all] raises [TypeError]: both arms of the test on the type of
    the threshold index it. *)
Theorem mcs_filter_with_scalar_threshold_raises
    (self : Pickaxe) (num_workers max_generations : Z) (orders : completion_orders) (q : Q) :
  tani_filter self = false ->
  mcs_filter self = true ->
  target_smiles self <> [] ->
  crit_mcs self = CritScalar q ->
  generation self < max_generations ->
  transform_all self num_workers max_generations orders = Some (Raise TypeError).
Proof.
  intros Ht Hm Htargets Hcrit Hlt. unfold transform_all.
  destruct (Z.to_nat (max_generations - generation self)) as [|fuel] eqn:Hfuel; [lia|].
  simpl. rewrite (proj2 (Z.ltb_lt _ _) Hlt).
  unfold transform_round, tani_round, mcs_round. rewrite Ht. cbn [rbind].
  rewrite Hm, Hcrit. destruct (target_smiles self); [done|]. done.
Qed.

(** X16.  With both filters switched off, no expandable compound in the
    current generation and the generation counter below [max_generations],
    [transform_all] adds one to the generation counter and returns at once,
    however far above the counter [max_generations] is: nothing else
    changes. *)
Theorem transform_all_nothing_to_expand
    (self : Pickaxe) (num_workers max_generations : Z) (orders : completion_orders) :
  tani_filter self = false ->
  mcs_filter self = false ->
  generation self < max_generations ->
  Forall (fun cpd => ~ (Generation cpd = generation self
                        ∧ (Type_ cpd ∉ ["Coreactant"; "Target Compound"])
                        ∧ Expand cpd = true))
         (dvalues (compounds self)) ->
  transform_all self num_workers max_generations orders
  = Some (Ok (set_generation self (generation self + 1))).
Proof.
  intros Ht Hm Hlt Hnone. unfold transform_all.
  destruct (Z.to_nat (max_generations - generation self)) as [|fuel] eqn:Hfuel; [lia|].
  simpl. rewrite (proj2 (Z.ltb_lt _ _) Hlt).
  unfold transform_round, tani_round, mcs_round. rewrite Ht. cbn [rbind].
  rewrite Hm. cbn [rbind]. unfold expand_round. cbv zeta.
  rewrite filter_none_of; [done|].
  intros cpd Hin (Hg & Hty & He). rewrite Forall_forall in Hnone.
  apply (Hnone cpd Hin). simpl in Hg. split_and!; [lia|done|done].
Qed.
End DriverFacts.

(** The theorem at seeded ethanol, expanded for two generations by one
    worker. *)
Lemma expansion_without_filters_keeps_network_witness :
  extends (compounds Toy.ethanol_seeded)
          (compounds (Toy.get_run (transform_all Toy.ethanol_seeded 1 2 Toy.no_orders)))
  ∧ reactions_kept (reactions Toy.ethanol_seeded)
      (reactions (Toy.get_run (transform_all Toy.ethanol_seeded 1 2 Toy.no_orders))).
Proof.
  apply (expansion_without_filters_keeps_network Toy.ethanol_seeded _ 1 2 Toy.no_orders).
  - reflexivity.
  - reflexivity.
  - vm_compute. reflexivity.
Defined.

(** The theorem at seeded ethanol with the substructure filter on. *)
Lemma mcs_filter_with_scalar_threshold_raises_witness :
  transform_all Toy.mcs_seeded 1 1 Toy.no_orders = Some (Raise TypeError).
Proof.
  apply (mcs_filter_with_scalar_threshold_raises Toy.mcs_seeded 1 1 Toy.no_orders (1 # 2)).
  - reflexivity.
  - reflexivity.
  - done.
  - reflexivity.
  - reflexivity.
Defined.

(** The theorem at an object that holds only the coreactant water, asked
    for three generations. *)
Lemma transform_all_nothing_to_expand_witness :
  transform_all Toy.water_declared 1 3 Toy.no_orders
  = Some (Ok (set_generation Toy.water_declared (generation Toy.water_declared + 1))).
Proof.
  apply (transform_all_nothing_to_expand Toy.water_declared 1 3 Toy.no_orders).
  - reflexivity.
  - reflexivity.
  - reflexivity.
  - by_compute.
Defined.

(** ** The registry stays keyed by ids *)

Section Keyed.
Context {V : Type} (f : V -> string).

Lemma keyed_nil : keyed f [].
Proof. split; [apply NoDup_nil_2|constructor]. Qed.

Lemma keyed_dset d k v : keyed f d -> f v = k -> keyed f (dset d k v).
Proof.
  intros [Hnd Hall] Hk. split; [by apply NoDup_dkeys_dset|]. by apply Forall_dset.
Qed.

Lemma keyed_ddel d k : keyed f d -> keyed f (ddel d k).
Proof.
  intros [Hnd Hall]. split; [by apply NoDup_dkeys_ddel|].
  clear Hnd. induction d as [|[k' v'] d IH]; simpl; [done|].
  apply Forall_cons in Hall as [? ?]. case_decide; [done|]. constructor; auto.
Qed.

Lemma keyed_dget d k v : keyed f d -> dget d k = Some v -> f v = k.
Proof.
  intros [_ Hall] Hk%dget_Some_elem. rewrite Forall_forall in Hall. by apply (Hall (k, v)).
Qed.

Lemma keyed_dupdate d e :
  keyed f d -> Forall (fun kv : string * V => f kv.2 = kv.1) e -> keyed f (dupdate d e).
Proof.
  unfold dupdate. revert d. induction e as [|[k v] e IH]; intros d Hd He; simpl; [done|].
  apply Forall_cons in He as [Hk He]. apply IH; [|done]. by apply keyed_dset.
Qed.

Lemma keyed_ddel_checked d k d' : keyed f d -> ddel_checked d k = Ok d' -> keyed f d'.
Proof.
  unfold ddel_checked. destruct (dmem k d); [|done]. intros Hd [= <-]. by apply keyed_ddel.
Qed.

Lemma keyed_filter (P : string * V -> Prop) `{!forall x, Decision (P x)} d :
  keyed f d -> keyed f (filter P d).
Proof.
  intros [Hnd Hall]. split.
  - unfold dkeys in *. eapply sublist_NoDup; [exact Hnd|]. apply fmap_sublist, sublist_filter.
  - apply Forall_forall. intros x [_ Hx]%list_elem_of_filter.
    rewrite Forall_forall in Hall. by apply Hall.
Qed.

Lemma for_each_keyed {A : Type} (step : dict V -> A -> result (dict V)) l d d' :
  (forall s x s', keyed f s -> step s x = Ok s' -> keyed f s') ->
  keyed f d -> for_each step l d = Ok d' -> keyed f d'.
Proof.
  intros Hstep Hd Hloop.
  refine (for_each_invariant step (keyed f) l d d' Hd _ Hloop).
  intros s x s' _. apply Hstep.
Qed.
End Keyed.

Section KeyedEngine.
Context `{TK : Toolkit} `{RT : PyRuntime}.

Lemma admit_reaction_keyed rule_name reactants products cs rs :
  keyed _id cs -> keyed rxn_id rs ->
  keyed _id (admit_reaction rule_name reactants products cs rs).1
  ∧ keyed rxn_id (admit_reaction rule_name reactants products cs rs).2.
Proof.
  intros Hcs Hrs. unfold admit_reaction.
  assert (keyed _id (fold_left (fun cpds (sc : Z * compound) =>
                                  if startswith (_id sc.2) "C"
                                  then dupdate cpds [(_id sc.2, sc.2)] else cpds)
                               products cs)) as Hcs'.
  { clear Hrs. revert cs Hcs. induction products as [|[s c] l IH]; intros cs Hcs; simpl; [done|].
    apply IH. destruct (startswith (_id c) "C"); [|done]. by apply keyed_dset. }
  destruct (rxn2hash reactants products) as [rhash text].
  destruct (dget rs rhash) as [r|] eqn:Hr; simpl.
  - split; [done|]. apply keyed_dset; [done|]. simpl. by eapply keyed_dget.
  - split; [done|]. by apply keyed_dset.
Qed.

Lemma run_reaction_keyed coreactant_mols coreactant_dict generation explicit_h
      rule_name rule reactant_mols cs rs st' :
  keyed _id cs -> keyed rxn_id rs ->
  _run_reaction coreactant_mols coreactant_dict generation explicit_h
                rule_name rule reactant_mols cs rs = Ok st' ->
  keyed _id st'.1 ∧ keyed rxn_id st'.2.
Proof.
  intros Hcs Hrs. unfold _run_reaction.
  destruct (RunReactants rule.1 reactant_mols) as [product_sets|]; [|by intros [= <-]].
  destruct (_make_half_rxn _ _ _ _ cs reactant_mols _) as [[[reactants atoms]|]|];
    try by intros [= <-].
  destruct (nonempty reactants); [|by intros [= <-]].
  intros Hloop.
  refine (for_each_invariant _ (fun st => keyed _id st.1 ∧ keyed rxn_id st.2)
            product_sets (cs, rs) st' _ _ Hloop); [done|].
  intros st mols st1 _ [H1 H2]. unfold run_candidate.
  destruct (_make_half_rxn _ _ _ _ st.1 mols _) as [[[products patoms]|]|[]];
    try (by intros [= <-]); try done.
  destruct (nonempty products); [|by intros [= <-]].
  destruct (is_atom_balanced atoms patoms); [|by intros [= <-]].
  intros [= <-]. by apply admit_reaction_keyed.
Qed.

Lemma transform_ind_keyed coreactant_mols coreactant_dict operators generation explicit_h
      smiles res :
  _transform_ind_compound_with_full coreactant_mols coreactant_dict operators
                                    generation explicit_h smiles = Ok res ->
  keyed _id res.1 ∧ keyed rxn_id res.2.
Proof.
  unfold _transform_ind_compound_with_full.
  destruct (MolFromSmiles smiles) as [m|]; simpl; [|done].
  destruct (RemoveHs m) as [m1|]; simpl; [|done].
  destruct (Kekulize m1) as [m2|]; simpl; [|done].
  intros Hloop.
  refine (for_each_invariant _ (fun st => keyed _id st.1 ∧ keyed rxn_id st.2)
            operators ([], []) res _ _ Hloop); [split; apply keyed_nil|].
  intros st op st1 _ [H1 H2].
  destruct (for_each _ (rule_Reactants op.2.2) []) as [mols|]; simpl; [|done].
  by apply run_reaction_keyed.
Qed.

Lemma collect_result_keyed master res :
  keyed _id master.1 -> keyed rxn_id master.2 ->
  keyed _id res.1 -> keyed rxn_id res.2 ->
  keyed _id (collect_result master res).1 ∧ keyed rxn_id (collect_result master res).2.
Proof.
  intros Hm1 Hm2 [_ Hr1] [_ Hr2]. unfold collect_result. simpl. split.
  - by apply keyed_dupdate.
  - revert Hm2. generalize (master.2). induction (res.2) as [|[k r] l IH]; intros m Hm; simpl; [done|].
    apply Forall_cons in Hr2 as [Hk Hr2]. apply IH; [done|].
    destruct (dget m k); [done|]. by apply keyed_dset.
Qed.

Lemma transform_all_compounds_keyed smiles coreactants coreactant_dict operators generation
      explicit_h nw arrival res :
  _transform_all_compounds_with_full smiles coreactants coreactant_dict operators
                                     generation explicit_h nw arrival = Ok res ->
  keyed _id res.1 ∧ keyed rxn_id res.2.
Proof.
  unfold _transform_all_compounds_with_full. intros Hloop.
  refine (for_each_invariant _ (fun st => keyed _id st.1 ∧ keyed rxn_id st.2)
            _ ([], []) res _ _ Hloop); [split; apply keyed_nil|].
  intros st x st1 _ [H1 H2]. unfold collect_body.
  destruct (_transform_ind_compound_with_full _ _ _ _ _ x) as [r|] eqn:Hr; simpl; [|done].
  intros [= <-]. apply transform_ind_keyed in Hr as [? ?]. by apply collect_result_keyed.
Qed.

Lemma update_cpds_keyed cs new_cpds :
  keyed _id cs -> keyed _id new_cpds -> keyed _id (update_cpds cs new_cpds).
Proof.
  intros Hcs [_ Hnew]. unfold update_cpds. revert cs Hcs.
  induction new_cpds as [|[k c] l IH]; intros cs Hcs; simpl; [done|].
  apply Forall_cons in Hnew as [Hk Hnew]. apply IH; [done|].
  destruct (dmem k cs); [done|]. by apply keyed_dset.
Qed.

Lemma add_product_of_keyed rid cs p cs' :
  keyed _id cs -> add_product_of rid cs p = Ok cs' -> keyed _id cs'.
Proof.
  intros Hcs. unfold add_product_of.
  destruct (dget cs p) as [c|] eqn:Hc; simpl; [|done].
  destruct (Product_of c) as [l|]; simpl; [|done].
  case_bool_decide; intros [= <-]; [done|].
  apply keyed_dset; [done|]. simpl. by eapply keyed_dget.
Qed.

Lemma add_reactant_in_keyed rid cs p cs' :
  keyed _id cs -> add_reactant_in rid cs p = Ok cs' -> keyed _id cs'.
Proof.
  intros Hcs. unfold add_reactant_in.
  destruct (dget cs p) as [c|] eqn:Hc; simpl; [|done].
  destruct (Reactant_in c) as [l|]; simpl; [|done].
  case_bool_decide; intros [= <-]; [done|].
  apply keyed_dset; [done|]. simpl. by eapply keyed_dget.
Qed.

Lemma update_rxn_keyed st rid r st' :
  keyed _id st.1 -> keyed rxn_id st.2 -> rxn_id r = rid ->
  update_rxn st (rid, r) = Ok st' ->
  keyed _id st'.1 ∧ keyed rxn_id st'.2.
Proof.
  intros Hcs Hrs Hrid. unfold update_rxn.
  assert (forall rs', match dget st.2 rid with
                      | Some r0 =>
                          match Partial_Operators (set_Operators r0 (Operators r0 ∪ Operators r)) with
                          | Some po =>
                              rbind (getitem (Partial_Operators r))
                                (fun po' => Ok (dset st.2 rid
                                   (set_Partial_Operators
                                      (set_Operators r0 (Operators r0 ∪ Operators r))
                                      (Some (po ∪ po')))))
                          | None => Ok (dset st.2 rid (set_Operators r0 (Operators r0 ∪ Operators r)))
                          end
                      | None => Ok (dset st.2 rid r)
                      end = Ok rs' -> keyed rxn_id rs') as Hrs'.
  { intros rs'. destruct (dget st.2 rid) as [r0|] eqn:Hr0.
    - pose proof (keyed_dget _ _ _ _ Hrs Hr0) as Hid0. simpl.
      destruct (Partial_Operators r0); simpl.
      + destruct (Partial_Operators r); simpl; [|done]. intros [= <-]. by apply keyed_dset.
      + intros [= <-]. by apply keyed_dset.
    - intros [= <-]. by apply keyed_dset. }
  destruct (match dget st.2 rid with Some _ => _ | None => _ end) as [rs'|] eqn:Hm; simpl; [|done].
  specialize (Hrs' rs' eq_refl).
  destruct (for_each (add_product_of rid) _ st.1) as [cs1|] eqn:H1; simpl; [|done].
  destruct (for_each (add_reactant_in rid) _ cs1) as [cs2|] eqn:H2; simpl; [|done].
  intros [= <-]. simpl. split; [|done].
  apply (for_each_keyed _id _ _ _ _ (add_reactant_in_keyed rid)) in H2; [done|].
  by apply (for_each_keyed _id _ _ _ _ (add_product_of_keyed rid)) in H1.
Qed.

Lemma update_cpds_rxns_keyed cs rs new_cpds new_rxns cs' rs' :
  keyed _id cs -> keyed rxn_id rs -> keyed _id new_cpds -> keyed rxn_id new_rxns ->
  update_cpds_rxns cs rs new_cpds new_rxns = Ok (cs', rs') ->
  keyed _id cs' ∧ keyed rxn_id rs'.
Proof.
  intros Hcs Hrs Hnc [_ Hnr]. unfold update_cpds_rxns.
  pose proof (update_cpds_keyed cs new_cpds Hcs Hnc) as Hcs0. revert Hcs0 Hrs.
  generalize (update_cpds cs new_cpds). intros cs0. revert cs0 rs.
  induction new_rxns as [|[k r] l IH]; intros cs0 rs Hcs0 Hrs; cbn [for_each].
  - by intros [= <- <-].
  - apply Forall_cons in Hnr as [Hk Hnr].
    destruct (update_rxn (cs0, rs) (k, r)) as [[cs1 rs1]|] eqn:H1; cbn [rbind]; [|done].
    apply update_rxn_keyed in H1 as [? ?]; [|done|done|done]. by apply IH.
Qed.

Lemma transform_helper_keyed self smiles nw arrival self' :
  well_keyed self -> _transform_helper self smiles nw arrival = Ok self' -> well_keyed self'.
Proof.
  intros [Hcs Hrs]. unfold _transform_helper.
  match goal with |- context [for_each ?b (coreactants self) []] =>
    destruct (for_each b (coreactants self) []) as [cd|] end; simpl; [|done].
  destruct (_transform_all_compounds_with_full _ _ _ _ _ _ _ _) as [[nc nr]|] eqn:Hall;
    simpl; [|done].
  apply transform_all_compounds_keyed in Hall as [Hnc Hnr].
  destruct (update_cpds_rxns _ _ _ _) as [[cs rs]|] eqn:Hup; simpl; [|done].
  intros [= <-]. by apply update_cpds_rxns_keyed in Hup.
Qed.

Lemma apply_filter_result_keyed measure increasing cs res cs' :
  keyed _id cs -> apply_filter_result measure increasing cs res = Ok cs' -> keyed _id cs'.
Proof.
  intros Hcs. destruct res as [c_id v]. unfold apply_filter_result.
  destruct (dget cs c_id) as [c|] eqn:Hc; simpl; [|done].
  pose proof (keyed_dget _ _ _ _ Hcs Hc) as Hid.
  destruct (Qeq_bool v (-1)); [intros [= <-]; by apply keyed_dset|].
  destruct (bool_decide (measure = "tani") && increasing); [|by intros [= <-]].
  destruct (Qle_bool (last_tani c) v); intros [= <-]; by apply keyed_dset.
Qed.

Lemma strip_product_of_keyed rid cs p cs' :
  keyed _id cs -> strip_product_of rid cs p = Ok cs' -> keyed _id cs'.
Proof.
  intros Hcs. unfold strip_product_of. destruct (startswith p "C"); [|by intros [= <-]].
  destruct (dget cs p) as [c|] eqn:Hc; simpl; [|done].
  destruct (Product_of c) as [l|]; simpl; [|done].
  case_bool_decide; intros [= <-]; [|done].
  apply keyed_dset; [done|]. simpl. by eapply keyed_dget.
Qed.

Lemma strip_reactant_in_keyed rid cs p cs' :
  keyed _id cs -> strip_reactant_in rid cs p = Ok cs' -> keyed _id cs'.
Proof.
  intros Hcs. unfold strip_reactant_in. destruct (startswith p "C"); [|by intros [= <-]].
  destruct (dget cs p) as [c|] eqn:Hc; simpl; [|done].
  destruct (Reactant_in c) as [l|]; simpl; [|done].
  case_bool_decide; intros [= <-]; [|done].
  apply keyed_dset; [done|]. simpl. by eapply keyed_dget.
Qed.

Lemma check_reaction_keyed st rid st' :
  keyed _id st.1.1 -> keyed rxn_id st.1.2 ->
  check_reaction st rid = Ok st' ->
  keyed _id st'.1.1 ∧ keyed rxn_id st'.1.2.
Proof.
  destruct st as [[cs rs] Q]. simpl. intros Hcs Hrs. unfold check_reaction.
  destruct (should_delete_reaction rs Q rid) as [delete|]; simpl; [|done].
  destruct (dget rs rid) as [r|]; simpl; [|done].
  destruct delete; [|by intros [= <-]].
  destruct (for_each (strip_product_of rid) _ cs) as [cs1|] eqn:H1; simpl; [|done].
  destruct (for_each (strip_reactant_in rid) _ cs1) as [cs2|] eqn:H2; simpl; [|done].
  destruct (ddel_checked rs rid) as [rs'|] eqn:H3; simpl; [|done].
  intros [= <-]. simpl. split.
  - apply (for_each_keyed _id _ _ _ _ (strip_reactant_in_keyed rid)) in H2; [done|].
    by apply (for_each_keyed _id _ _ _ _ (strip_product_of_keyed rid)) in H1.
  - by eapply keyed_ddel_checked.
Qed.

Lemma filter_by_keyed self measure nw arrival self' :
  well_keyed self -> _filter_by self measure nw arrival = Ok self' -> well_keyed self'.
Proof.
  intros [Hcs Hrs]. unfold _filter_by.
  set (checked := filter _ (compounds self)).
  destruct (if bool_decide (measure = "tani") then _ else _) as [ignore|]; simpl; [|done].
  destruct (for_each (apply_filter_result measure (increasing_tani self)) ignore
                     (compounds self)) as [cs1|] eqn:Hflag; simpl; [|done].
  apply (for_each_keyed _id _ _ _ _
           (apply_filter_result_keyed measure (increasing_tani self))) in Hflag; [|done].
  unfold _filter_by_removal.
  destruct (for_each (queue_compound cs1) checked.*1 ([], ∅)) as [[Q S]|]; simpl; [|done].
  destruct (for_each check_reaction (set_order S) (cs1, reactions self, Q))
    as [[[cs2 rs2] Q2]|] eqn:Hcheck; simpl; [|done].
  destruct (for_each ddel_checked Q2 cs2) as [cs3|] eqn:Hdel; simpl; [|done].
  intros [= <-].
  assert (keyed _id cs2 ∧ keyed rxn_id rs2) as [Hcs2 Hrs2].
  { refine (for_each_invariant check_reaction
              (fun st => keyed _id st.1.1 ∧ keyed rxn_id st.1.2)
              (set_order S) (cs1, reactions self, Q) (cs2, rs2, Q2) _ _ Hcheck); [done|].
    intros st rid st' _ [? ?]. by apply check_reaction_keyed. }
  split; simpl; [|done].
  by apply (for_each_keyed _id _ _ _ _ (keyed_ddel_checked _id)) in Hdel.
Qed.

Lemma set_generation_keyed self g : well_keyed self -> well_keyed (set_generation self g).
Proof. done. Qed.

Lemma transform_round_keyed self nw orders :
  well_keyed self ->
  match transform_round self nw orders with
  | Ok (Next self') | Ok (Return self') => well_keyed self'
  | Raise _ => True
  end.
Proof.
  intros Hk. unfold transform_round.
  assert (match tani_round self nw orders with
          | Ok (Next s) | Ok (Return s) => well_keyed s
          | Raise _ => True
          end) as Ht.
  { unfold tani_round. destruct (tani_filter self); [|done].
    destruct (nonempty (target_fps self)); [|done].
    destruct (crit_at _ _); simpl; [|done].
    destruct (_filter_by self "tani" nw _) as [s1|] eqn:Hf; simpl; [|done].
    by eapply filter_by_keyed. }
  destruct (tani_round self nw orders) as [[s1|s1]|]; simpl; [done| |done].
  assert (match mcs_round s1 nw orders with
          | Ok (Next s) | Ok (Return s) => well_keyed s
          | Raise _ => True
          end) as Hm.
  { unfold mcs_round. destruct (mcs_filter s1); [|done].
    destruct (nonempty (target_smiles s1)); [|done].
    destruct (match crit_mcs s1 with CritScalar _ => _ | CritList _ => _ end); simpl; [|done].
    destruct (_filter_by s1 "mcs" nw _) as [s2|] eqn:Hf; simpl; [|done].
    by eapply filter_by_keyed. }
  destruct (mcs_round s1 nw orders) as [[s2|s2]|]; simpl; [done| |done].
  unfold expand_round. cbv zeta. destruct (nonempty _); [|done].
  destruct (_transform_helper _ _ _ _) as [s3|] eqn:Hh; simpl; [|done].
  eapply transform_helper_keyed; [|exact Hh]. by apply set_generation_keyed.
Qed.

Lemma transform_all_loop_keyed fuel self nw maxg orders self' :
  well_keyed self ->
  transform_all_loop fuel self nw maxg orders = Some (Ok self') -> well_keyed self'.
Proof.
  revert self. induction fuel as [|fuel IH]; intros self Hk; simpl.
  - destruct (generation self <? maxg); [done|]. by intros [= <-].
  - destruct (generation self <? maxg); [|by intros [= <-]].
    pose proof (transform_round_keyed self nw orders Hk) as Hround.
    destruct (transform_round self nw orders) as [[s1|s1]|e]; [| |done].
    + by intros [= <-].
    + by apply IH.
Qed.

Lemma append_reactant_in_keyed new_id rid cs p cs' :
  keyed _id cs -> append_reactant_in new_id rid cs p = Ok cs' -> keyed _id cs'.
Proof.
  intros Hcs. unfold append_reactant_in. destruct (startswith p "C"); [|by intros [= <-]].
  destruct (dget cs p) as [c|] eqn:Hc; simpl; [|done].
  destruct (Reactant_in c) as [l|]; simpl; [|done].
  intros [= <-]. apply keyed_dset; [done|]. simpl. by eapply keyed_dget.
Qed.

Lemma append_product_of_keyed new_id rid cs p cs' :
  keyed _id cs -> append_product_of new_id rid cs p = Ok cs' -> keyed _id cs'.
Proof.
  intros Hcs. unfold append_product_of. destruct (startswith p "C"); [|by intros [= <-]].
  destruct (dget cs p) as [c|] eqn:Hc; simpl; [|done].
  destruct (Product_of c) as [l|]; simpl; [|done].
  intros [= <-]. apply keyed_dset; [done|]. simpl. by eapply keyed_dget.
Qed.

Lemma correct_reaction_keyed cofactors st rid st' :
  keyed _id st.1 -> keyed rxn_id st.2 ->
  correct_reaction cofactors st rid = Ok st' ->
  keyed _id st'.1 ∧ keyed rxn_id st'.2.
Proof.
  destruct st as [cs rs]. simpl. intros Hcs Hrs. unfold correct_reaction.
  destruct (dget rs rid) as [rxn|]; simpl; [|done].
  destruct (substitute_cofactors cs cofactors (Reactants rxn)) as [reactants|]; simpl; [|done].
  destruct (substitute_cofactors cs cofactors (Products rxn)) as [products|]; simpl; [|done].
  destruct (rxn2hash reactants products) as [new_id text].
  destruct (dget rs new_id) as [existing|] eqn:He.
  - destruct (for_each (strip_reactant_in rid) _ cs) as [cs1|] eqn:H1; simpl; [|done].
    destruct (for_each (strip_product_of rid) _ cs1) as [cs2|] eqn:H2; simpl; [|done].
    intros [= <-]. simpl. split.
    + apply (for_each_keyed _id _ _ _ _ (strip_product_of_keyed rid)) in H2; [done|].
      by apply (for_each_keyed _id _ _ _ _ (strip_reactant_in_keyed rid)) in H1.
    + apply keyed_dset; [done|]. simpl. by eapply keyed_dget.
  - destruct (for_each (append_reactant_in new_id rid) _ cs) as [cs1|] eqn:H1; simpl; [|done].
    destruct (for_each (append_product_of new_id rid) _ cs1) as [cs2|] eqn:H2; simpl; [|done].
    intros [= <-]. simpl. split.
    + apply (for_each_keyed _id _ _ _ _ (append_product_of_keyed new_id rid)) in H2; [done|].
      by apply (for_each_keyed _id _ _ _ _ (append_reactant_in_keyed new_id rid)) in H1.
    + by apply keyed_dset.
Qed.

Lemma remove_cofactor_redundancy_keyed self self' :
  well_keyed self -> remove_cofactor_redundancy self = Ok self' -> well_keyed self'.
Proof.
  intros [Hcs Hrs]. unfold remove_cofactor_redundancy.
  set (cofactors := filter _ (dkeys (compounds self))).
  destruct (for_each (collapse_compound ∅ cofactors) cofactors
                     (compounds self, reactions self, None)) as [[[cs1 rs1] del]|] eqn:Hloop;
    simpl; [|done].
  assert (keyed _id cs1 ∧ keyed rxn_id rs1) as [Hcs1 Hrs1].
  { refine (for_each_invariant (collapse_compound ∅ cofactors)
              (fun st => keyed _id st.1.1 ∧ keyed rxn_id st.1.2)
              cofactors (compounds self, reactions self, None) (cs1, rs1, del) _ _ Hloop);
      [done|].
    intros [[cs rs] d] x st' _ [H1 H2]. simpl in H1, H2. unfold collapse_compound.
    destruct (dget cs x) as [c|]; simpl; [|done].
    destruct (Product_of c) as [po|]; simpl; [|done].
    destruct (Reactant_in c) as [ri|]; simpl; [|done].
    destruct (for_each (correct_reaction cofactors) _ (cs, rs)) as [[cs' rs']|] eqn:Hc;
      simpl; [|done].
    intros [= <-]. simpl.
    refine (for_each_invariant (correct_reaction cofactors)
              (fun st => keyed _id st.1 ∧ keyed rxn_id st.2) _ (cs, rs) (cs', rs') _ _ Hc);
      [done|].
    intros st rid st1 _ [? ?]. by apply correct_reaction_keyed. }
  destruct del as [to_del|]; [|by intros [= <-]].
  case_bool_decide; [by intros [= <-]|].
  destruct (for_each ddel_checked (set_order to_del) rs1) as [rs2|] eqn:H1; simpl; [|done].
  destruct (for_each ddel_checked cofactors cs1) as [cs2|] eqn:H2; simpl; [|done].
  intros [= <-]. split; simpl.
  - by apply (for_each_keyed _id _ _ _ _ (keyed_ddel_checked _id)) in H2.
  - by apply (for_each_keyed rxn_id _ _ _ _ (keyed_ddel_checked rxn_id)) in H1.
Qed.

(** X17.  Starting from an object whose compounds and reactions are stored
    under their own ids, with distinct keys, every stage of the engine
    returns such an object: the generation loop with its filters, the
    cofactor pass and the pruning. *)
Theorem engine_keeps_registry_keyed (self : Pickaxe) :
  well_keyed self ->
  (forall num_workers max_generations orders self',
      transform_all self num_workers max_generations orders = Some (Ok self') ->
      well_keyed self')
  ∧ (forall self', remove_cofactor_redundancy self = Ok self' -> well_keyed self')
  ∧ (forall white_list self',
        prune_network self white_list = Some (Ok self') -> well_keyed self').
Proof.
  intros Hk. split_and!.
  - intros nw maxg orders self'. unfold transform_all. by apply transform_all_loop_keyed.
  - intros self'. by apply remove_cofactor_redundancy_keyed.
  - intros white_list self'. unfold prune_network.
    destruct (find_minimal_set self (list_to_set white_list)) as [[[C R]|e]|]; [|done|done].
    intros [= <-]. destruct Hk as [Hcs Hrs]. split; simpl; by apply keyed_filter.
Qed.
End KeyedEngine.

(** The theorem at seeded lactic acid with its two coreactants. *)
Lemma engine_keeps_registry_keyed_witness :
  (forall num_workers max_generations orders self',
      transform_all Toy.lactate_seeded num_workers max_generations orders = Some (Ok self') ->
      well_keyed self')
  ∧ (forall self', remove_cofactor_redundancy Toy.lactate_seeded = Ok self' -> well_keyed self')
  ∧ (forall white_list self',
        prune_network Toy.lactate_seeded white_list = Some (Ok self') -> well_keyed self').
Proof.
  apply (engine_keeps_registry_keyed Toy.lactate_seeded).
  split; split; by_compute.
Defined.

(** ** Loading compounds and targets *)

Section LoaderFacts.
Context `{TK : Toolkit}.

Lemma lower_is_c (a : ascii) :
  (if ascii_dec "c" (lower_ascii a) then true else false)
  = (if ascii_dec "C" a then true else false) || (if ascii_dec "c" a then true else false).
Proof. destruct a as [[] [] [] [] [] [] [] []]; vm_compute; reflexivity. Qed.

Lemma organic_lower (smi : string) : str_in "c" (lower smi) = organic smi.
Proof.
  unfold organic. induction smi as [|a s IH]; [done|].
  cbn [lower str_in String.prefix]. rewrite IH.
  assert (forall t, String.prefix "" t = true) as Hp by (by intros [|]).
  rewrite !Hp. clear Hp.
  pose proof (lower_is_c a) as Ha.
  destruct (ascii_dec "c" (lower_ascii a)), (ascii_dec "C" a), (ascii_dec "c" a);
    simpl in *; try done; by destruct (str_in "C" s), (str_in "c" s).
Qed.

Lemma mol_from_dict_effect self input arg self' mol :
  _mol_from_dict self input arg = Ok (self', mol) ->
  self' = with_structure_field self (structure_field self').
Proof.
  unfold _mol_from_dict.
  destruct (str_truthy arg).
  - simpl. destruct (arg ≫= dget input) as [text|]; [|intros [= <- _]; by destruct self].
    destruct (if str_in "InChI=" text then _ else _) as [m|];
      [|intros [= <- _]; by destruct self].
    destruct (_ && _); intros [= <- _]; by destruct self.
  - destruct (str_truthy (structure_field self)) eqn:Hs.
    + rewrite Hs. simpl.
      destruct (structure_field self ≫= dget input) as [text|];
        [|intros [= <- _]; by destruct self].
      destruct (if str_in "InChI=" text then _ else _) as [m|];
        [|intros [= <- _]; by destruct self].
      destruct (_ && _); intros [= <- _]; by destruct self.
    + destruct (find _ (dkeys input)) as [field|].
      * destruct (str_truthy (structure_field (with_structure_field self (Some field))));
          simpl; [|done].
        destruct (dget input field) as [text|]; [|intros [= <- _]; by destruct self].
        destruct (if str_in "InChI=" text then _ else _) as [m|];
          [|intros [= <- _]; by destruct self].
        destruct (_ && _); intros [= <- _]; by destruct self.
      * rewrite Hs. done.
Qed.

(** What one call of [_add_compound] does to the store. *)
Lemma add_compound_effect self name smi ty mol self' r :
  _add_compound self name smi ty mol = Ok (self', r) ->
  self' = with_registry self (_raw_compounds self') (compounds self') (reactions self)
  ∧ (compounds self' = compounds self
     ∨ exists id c,
         (id ∉ dkeys (compounds self))
         ∧ compounds self' = dset (compounds self) id c
         ∧ SMILES c = smi ∧ Type_ c = ty ∧ Generation c = generation self
         ∧ Expand c = bool_decide (ty ∈ ["Predicted"; "Starting Compound"])).
Proof.
  unfold _add_compound, _gen_compound.
  destruct (compound_hash smi ty) as [id|]; [|intros [= <- _]; split; [by destruct self|by left]].
  case_bool_decide; [intros [= <- _]; split; [by destruct self|by left]|].
  simpl. destruct (dmem id (compounds self)) eqn:Hmem.
  - intros [= <- _]. split; [done|by left].
  - apply dmem_false in Hmem. rewrite (proj2 (dget_None _ _) Hmem).
    destruct (match mol with Some m => Some m | None => MolFromSmiles smi end) as [m|];
      simpl; [|done].
    intros [= <- _]. split; [done|]. right. eexists _, _. by split_and!.
Qed.

Lemma loaded_into_refl cs ty gen : loaded_into cs cs ty gen [].
Proof. split; [done|]. intros k c Hc. by left. Qed.

Lemma loaded_into_more cs cs' ty gen smiles smi :
  loaded_into cs cs' ty gen smiles -> loaded_into cs cs' ty gen (smiles ++ [smi]).
Proof.
  intros [H1 H2]. split; [done|]. intros k c Hc.
  destruct (H2 k c Hc) as [?|(?&?&?&?&?)]; [by left|right].
  split_and!; try done. apply elem_of_app. by left.
Qed.

Lemma loaded_into_add cs cs1 ty gen smiles id c :
  loaded_into cs cs1 ty gen smiles ->
  id ∉ dkeys cs1 ->
  Type_ c = ty -> Generation c = gen ->
  Expand c = bool_decide (ty ∈ ["Predicted"; "Starting Compound"]) ->
  organic (SMILES c) = true ->
  loaded_into cs (dset cs1 id c) ty gen (smiles ++ [SMILES c]).
Proof.
  intros [H1 H2] Hnew Hty Hgen Hexp Horg. split.
  - intros k c0 Hc0. specialize (H1 k c0 Hc0).
    rewrite dget_dset_ne; [done|]. intros ->.
    apply dget_None in Hnew. congruence.
  - intros k c0. rewrite dget_dset. destruct (decide (k = id)) as [Hk|Hk].
    + intros [= <-]. right. split_and!; try done. apply elem_of_app. right. by left.
    + intros Hc0. destruct (H2 k c0 Hc0) as [?|(?&?&?&?&?)]; [by left|right].
      split_and!; try done. apply elem_of_app. by left.
Qed.

Lemma load_compound_row_inv (self : Pickaxe) id_field st row st' :
  load_compound_row id_field st row = Ok st' ->
  loaded_into (compounds self) (compounds st.1) "Starting Compound" (generation self) st.2 ->
  reactions st.1 = reactions self -> generation st.1 = generation self ->
  loaded_into (compounds self) (compounds st'.1) "Starting Compound" (generation self) st'.2
  ∧ reactions st'.1 = reactions self ∧ generation st'.1 = generation self
  ∧ (length st'.2 <= S (length st.2))%nat
  ∧ (length st.2 <= length st'.2)%nat.
Proof.
  destruct st as [s smiles]. simpl. unfold load_compound_row.
  destruct (_mol_from_dict s row (structure_field s)) as [[s1 mol]|] eqn:Hm; simpl; [|done].
  apply mol_from_dict_effect in Hm.
  assert (compounds s1 = compounds s ∧ reactions s1 = reactions s
          ∧ generation s1 = generation s) as (Hc1 & Hr1 & Hg1) by (by rewrite Hm).
  destruct mol as [mol|].
  2:{ intros [= <-] Hl Hr Hg. simpl. rewrite Hc1. split_and!; [done|congruence|congruence|lia|lia]. }
  destruct (dget row id_field) as [name|]; simpl; [|done].
  destruct (str_in "C" (MolToSmiles mol) || str_in "c" (MolToSmiles mol)) eqn:Horg.
  2:{ intros [= <-] Hl Hr Hg. simpl. rewrite Hc1. split_and!; [done|congruence|congruence|lia|lia]. }
  destruct (SanitizeMol mol) as [mol'|]; simpl; [|done].
  destruct (_add_compound s1 name (MolToSmiles mol) "Starting Compound" (Some mol'))
    as [[s2 r]|] eqn:Ha; simpl; [|done].
  apply add_compound_effect in Ha as [Heq Hcases].
  assert (reactions s2 = reactions s1 ∧ generation s2 = generation s1) as [Hr2 Hg2]
    by (by rewrite Heq).
  intros [= <-] Hl Hr Hg. simpl. rewrite length_app. simpl.
  split_and!; [|congruence|congruence|lia|lia].
  destruct Hcases as [->|(id & c & Hnew & -> & Hsmi & Hty & Hgen & Hexp)].
  - rewrite Hc1. by apply loaded_into_more.
  - rewrite Hc1 in Hnew |- *. rewrite <- Hsmi.
    apply loaded_into_add; try done; [congruence|by rewrite Hsmi].
Qed.

(** X18.  When [load_compound_set] succeeds, every compound that was stored
    is still stored unchanged, and every compound it added is an expandable
    ['Starting Compound'] of the current generation whose SMILES contains a
    [C] or a [c] and is in the returned list; the returned list has at most
    one SMILES per row, and the reactions and the generation counter are
    untouched. *)
Theorem load_compound_set_stores_organic
    (self self' : Pickaxe) (rows : list (dict string)) (id_field : string)
    (smiles : list string) :
  load_compound_set self (Some rows) id_field = Ok (self', smiles) ->
  loaded_into (compounds self) (compounds self') "Starting Compound" (generation self) smiles
  ∧ (length smiles <= length rows)%nat
  ∧ reactions self' = reactions self
  ∧ generation self' = generation self.
Proof.
  unfold load_compound_set. intros Hloop.
  assert (forall rows st st',
             for_each (load_compound_row id_field) rows st = Ok st' ->
             loaded_into (compounds self) (compounds st.1) "Starting Compound"
                         (generation self) st.2 ->
             reactions st.1 = reactions self -> generation st.1 = generation self ->
             loaded_into (compounds self) (compounds st'.1) "Starting Compound"
                         (generation self) st'.2
             ∧ reactions st'.1 = reactions self ∧ generation st'.1 = generation self
             ∧ (length st'.2 <= length st.2 + length rows)%nat) as Hgen.
  { clear. induction rows as [|row rows IH]; intros st st'; cbn [for_each].
    - intros [= <-] ? ? ?. split_and!; try done. simpl. lia.
    - destruct (load_compound_row id_field st row) as [st1|] eqn:H1; cbn [rbind]; [|done].
      intros Hrest Hl Hr Hg.
      destruct (load_compound_row_inv self _ _ _ _ H1 Hl Hr Hg) as (Hl1 & Hr1 & Hg1 & Hn1 & _).
      destruct (IH st1 st' Hrest Hl1 Hr1 Hg1) as (? & ? & ? & ?).
      split_and!; try done. simpl. lia. }
  destruct (Hgen rows _ _ Hloop) as (? & ? & ? & ?); try done.
  apply loaded_into_refl.
Qed.

Section Targets.
Variable RDKFingerprint : Mol -> Fingerprint.

Lemma load_target_row_inv (self : Pickaxe) sf id_field s row s' added
      (tani : bool) crit_t increasing mcs crit_m retrosynthesis :
  load_target_row RDKFingerprint sf id_field s row = Ok s' ->
  loaded_into (compounds self) (compounds s) "Target Compound" (generation self) added ->
  target_smiles s = (target_smiles self ++ added)%list ->
  length (target_fps s)
  = (length (target_fps self) + if tani then length added else 0)%nat ->
  filters_are s tani crit_t increasing mcs crit_m retrosynthesis ->
  reactions s = reactions self -> generation s = generation self ->
  exists added',
    loaded_into (compounds self) (compounds s') "Target Compound" (generation self) added'
    ∧ target_smiles s' = (target_smiles self ++ added')%list
    ∧ length (target_fps s')
      = (length (target_fps self) + if tani then length added' else 0)%nat
    ∧ filters_are s' tani crit_t increasing mcs crit_m retrosynthesis
    ∧ reactions s' = reactions self ∧ generation s' = generation self.
Proof.
  unfold load_target_row.
  destruct (_mol_from_dict s row sf) as [[s1 mol]|] eqn:Hm; simpl; [|done].
  apply mol_from_dict_effect in Hm.
  assert (compounds s1 = compounds s ∧ reactions s1 = reactions s
          ∧ generation s1 = generation s ∧ target_smiles s1 = target_smiles s
          ∧ target_fps s1 = target_fps s
          ∧ forall a b c d e f, filters_are s a b c d e f -> filters_are s1 a b c d e f)
    as (Hc1 & Hr1 & Hg1 & Hts1 & Htf1 & Hf1) by (by rewrite Hm).
  assert (load_ok : forall s2, s2 = s1 ->
            loaded_into (compounds self) (compounds s) "Target Compound" (generation self) added ->
            target_smiles s = (target_smiles self ++ added)%list ->
            length (target_fps s)
            = (length (target_fps self) + if tani then length added else 0)%nat ->
            filters_are s tani crit_t increasing mcs crit_m retrosynthesis ->
            reactions s = reactions self -> generation s = generation self ->
            exists added',
              loaded_into (compounds self) (compounds s2) "Target Compound"
                          (generation self) added'
              ∧ target_smiles s2 = (target_smiles self ++ added')%list
              ∧ length (target_fps s2)
                = (length (target_fps self) + if tani then length added' else 0)%nat
              ∧ filters_are s2 tani crit_t increasing mcs crit_m retrosynthesis
              ∧ reactions s2 = reactions self ∧ generation s2 = generation self).
  { intros s2 -> Hl Hts Htf Hf Hr Hg. exists added. rewrite Hc1, Hts1, Htf1.
    split_and!; try done; [by apply Hf1|congruence|congruence]. }
  destruct mol as [mol|]; [|intros [= <-]; by apply load_ok].
  destruct (dget row id_field) as [name|]; simpl; [|done].
  rewrite organic_lower.
  destruct (organic (MolToSmiles mol)) eqn:Horg; [|intros [= <-]; by apply load_ok].
  destruct (SanitizeMol mol) as [mol'|]; simpl; [|done].
  destruct (_add_compound s1 name (MolToSmiles mol) "Target Compound" (Some mol'))
    as [[s2 r]|] eqn:Ha; simpl; [|done].
  apply add_compound_effect in Ha as [Heq Hcases].
  assert (reactions s2 = reactions s1 ∧ generation s2 = generation s1
          ∧ target_smiles s2 = target_smiles s1 ∧ target_fps s2 = target_fps s1
          ∧ tani_filter s2 = tani_filter s1
          ∧ forall a b c d e f, filters_are s1 a b c d e f -> filters_are s2 a b c d e f)
    as (Hr2 & Hg2 & Hts2 & Htf2 & Htani2 & Hf2) by (by rewrite Heq).
  intros [= <-] Hl Hts Htf Hf Hr Hg.
  exists (added ++ [MolToSmiles mol])%list. simpl.
  assert (tani_filter s2 = tani) as Htani.
  { rewrite Htani2. by destruct (Hf1 _ _ _ _ _ _ Hf). }
  split_and!.
  - destruct Hcases as [->|(id & c & Hnew & -> & Hsmi & Hty & Hgen & Hexp)].
    + rewrite Hc1. by apply loaded_into_more.
    + rewrite Hc1 in Hnew |- *. rewrite <- Hsmi.
      apply loaded_into_add; try done; [congruence|by rewrite Hsmi].
  - rewrite Hts2, Hts1, Hts. by rewrite <- app_assoc.
  - rewrite Htani. destruct tani.
    + rewrite !length_app, Htf2, Htf1, Htf. simpl. lia.
    + rewrite Htf2, Htf1, Htf. lia.
  - by apply (Hf2 _ _ _ _ _ _ (Hf1 _ _ _ _ _ _ Hf)).
  - congruence.
  - congruence.
Qed.

(** X19.  When [load_target_and_filters] succeeds, it returns the target
    list of the object, which is the former target list with the SMILES of
    this file appended; the fingerprint list has grown by as many entries
    when the Tanimoto filter is requested and is unchanged otherwise, so the
    two lists stay aligned when they were.  The compounds it added are
    ['Target Compound']s that are not expandable, and their SMILES pass the
    same test for [C] or [c] as the starting compounds; the six filter
    settings are the arguments of the call. *)
Theorem load_targets_keeps_lists_aligned
    (self self' : Pickaxe) (rows : list (dict string))
    (tani : bool) (crit_t : crit) (increasing mcs : bool) (crit_m : crit)
    (retrosynthesis : bool) (structure_field_arg : option string) (id_field : string)
    (returned : list string) :
  load_target_and_filters RDKFingerprint self (Some rows) tani crit_t increasing mcs crit_m
                          retrosynthesis structure_field_arg id_field
  = Ok (self', returned) ->
  exists added,
    returned = target_smiles self'
    ∧ target_smiles self' = (target_smiles self ++ added)%list
    ∧ length (target_fps self')
      = (length (target_fps self) + if tani then length added else 0)%nat
    ∧ loaded_into (compounds self) (compounds self') "Target Compound" (generation self) added
    ∧ filters_are self' tani crit_t increasing mcs crit_m retrosynthesis
    ∧ reactions self' = reactions self ∧ generation self' = generation self.
Proof.
  unfold load_target_and_filters.
  set (s0 := set_filters self retrosynthesis tani crit_t increasing mcs crit_m).
  destruct (for_each _ rows s0) as [s1|] eqn:Hloop; simpl; [|done].
  intros [= <- <-].
  assert (forall rows s s' added,
             for_each (load_target_row RDKFingerprint structure_field_arg id_field) rows s
             = Ok s' ->
             loaded_into (compounds self) (compounds s) "Target Compound"
                         (generation self) added ->
             target_smiles s = (target_smiles self ++ added)%list ->
             length (target_fps s)
             = (length (target_fps self) + if tani then length added else 0)%nat ->
             filters_are s tani crit_t increasing mcs crit_m retrosynthesis ->
             reactions s = reactions self -> generation s = generation self ->
             exists added',
               loaded_into (compounds self) (compounds s') "Target Compound"
                           (generation self) added'
               ∧ target_smiles s' = (target_smiles self ++ added')%list
               ∧ length (target_fps s')
                 = (length (target_fps self) + if tani then length added' else 0)%nat
               ∧ filters_are s' tani crit_t increasing mcs crit_m retrosynthesis
               ∧ reactions s' = reactions self ∧ generation s' = generation self) as Hgen.
  { clear. induction rows as [|row rows IH]; intros s s' added; cbn [for_each].
    - intros [= <-] ? ? ? ? ? ?. by exists added.
    - destruct (load_target_row _ _ _ s row) as [s1|] eqn:H1; cbn [rbind]; [|done].
      intros Hrest Hl Hts Htf Hf Hr Hg.
      destruct (load_target_row_inv self _ _ _ _ _ _ _ _ _ _ _ _ H1 Hl Hts Htf Hf Hr Hg)
        as (added1 & ? & ? & ? & ? & ? & ?).
      by apply (IH s1 s' added1). }
  destruct (Hgen rows s0 s1 [] Hloop) as (added & ? & ? & ? & ? & ? & ?).
  - apply loaded_into_refl.
  - by rewrite app_nil_r.
  - simpl. destruct tani; simpl; lia.
  - done.
  - done.
  - done.
  - exists added. by split_and!.
Qed.
End Targets.
End LoaderFacts.

(** The theorem at a file with ethanol, water, a salt and acetaldehyde. *)
Lemma load_compound_set_stores_organic_witness :
  loaded_into (compounds Toy.new_pickaxe) (compounds Toy.loaded_compounds.1)
              "Starting Compound" (generation Toy.new_pickaxe) Toy.loaded_compounds.2
  ∧ (length Toy.loaded_compounds.2 <= length Toy.compound_rows)%nat
  ∧ reactions Toy.loaded_compounds.1 = reactions Toy.new_pickaxe
  ∧ generation Toy.loaded_compounds.1 = generation Toy.new_pickaxe.
Proof.
  apply (load_compound_set_stores_organic Toy.new_pickaxe Toy.loaded_compounds.1
           Toy.compound_rows "id" Toy.loaded_compounds.2).
  vm_compute. reflexivity.
Defined.

(** The theorem at the same file read as targets, with the Tanimoto filter
    requested. *)
Lemma load_targets_keeps_lists_aligned_witness :
  exists added,
    Toy.loaded_targets.2 = target_smiles Toy.loaded_targets.1
    ∧ target_smiles Toy.loaded_targets.1 = (target_smiles Toy.new_pickaxe ++ added)%list
    ∧ length (target_fps Toy.loaded_targets.1)
      = (length (target_fps Toy.new_pickaxe) + if true then length added else 0)%nat
    ∧ loaded_into (compounds Toy.new_pickaxe) (compounds Toy.loaded_targets.1)
                  "Target Compound" (generation Toy.new_pickaxe) added
    ∧ filters_are Toy.loaded_targets.1 true (CritScalar (1 # 2)) false false
                  (CritScalar 0) false
    ∧ reactions Toy.loaded_targets.1 = reactions Toy.new_pickaxe
    ∧ generation Toy.loaded_targets.1 = generation Toy.new_pickaxe.
Proof.
  apply (load_targets_keeps_lists_aligned Toy.rdk_fingerprint Toy.new_pickaxe Toy.loaded_targets.1
           Toy.compound_rows true (CritScalar (1 # 2)) false false (CritScalar 0) false
           None "id" Toy.loaded_targets.2).
  vm_compute. reflexivity.
Defined.

(** ** Pruning to the targets *)

Section TargetPruningFacts.
Context `{TK : Toolkit} `{RT : PyRuntime}.

Lemma delete_producers_spec (rs : dict reaction) (po : list string) :
  NoDup (dkeys rs) ->
  NoDup (dkeys (delete_producers rs po))
  ∧ (forall rid, rid ∈ dkeys (delete_producers rs po) -> rid ∈ dkeys rs ∧ rid ∉ po).
Proof.
  unfold delete_producers. revert rs. induction po as [|p po IH]; intros rs Hnd; simpl.
  - split; [done|]. intros rid Hin. split; [done|]. by intros ?%elem_of_nil.
  - destruct (dmem p rs) eqn:Hm.
    + destruct (IH (ddel rs p) (NoDup_dkeys_ddel _ _ Hnd)) as [Hnd' Hsub].
      split; [done|]. intros rid Hin. destruct (Hsub rid Hin) as [Hdel Hpo].
      split; [by eapply elem_of_dkeys_ddel|].
      intros [->|?]%elem_of_cons; [|done].
      apply dget_is_Some in Hdel as [r Hr]. rewrite dget_ddel_eq in Hr; done.
    + destruct (IH rs Hnd) as [Hnd' Hsub]. split; [done|].
      intros rid Hin. destruct (Hsub rid Hin) as [Hrs Hpo]. split; [done|].
      intros [->|?]%elem_of_cons; [|done]. apply dmem_false in Hm. done.
Qed.

(** One compound examined for generation [i]. *)
Lemma examine_leaf_spec W i st c st' :
  NoDup (dkeys st.1) ->
  examine_leaf W i st c = Ok st' ->
  NoDup (dkeys st'.1)
  ∧ (forall rid, rid ∈ dkeys st'.1 -> rid ∈ dkeys st.1)
  ∧ st.2 ⊆ st'.2
  ∧ (startswith (_id c) "C" = true -> Generation c = i ->
     exists ri, Reactant_in c = Some ri
       ∧ (ri = [] -> _id c ∉ W ->
          _id c ∈ st'.2
          ∧ exists po, Product_of c = Some po ∧ forall rid, rid ∈ po -> rid ∉ dkeys st'.1)).
Proof.
  intros Hnd. unfold examine_leaf.
  destruct (startswith (_id c) "C"); [|intros [= <-]; by split_and!].
  case_bool_decide as Hg; [|intros [= <-]; split_and!; try done].
  destruct (Reactant_in c) as [ri|]; simpl; [|done].
  destruct (negb (nonempty ri) && negb (bool_decide (_id c ∈ W))) eqn:Hleaf.
  - destruct (Product_of c) as [po|]; simpl; [|done].
    intros [= <-]. simpl. destruct (delete_producers_spec st.1 po Hnd) as [Hnd' Hsub].
    split_and!; [done|intros rid Hin; by apply Hsub|set_solver|].
    intros _ _. exists ri. split; [done|]. intros _ _. split; [set_solver|].
    exists po. split; [done|]. intros rid Hin Hk. by destruct (Hsub rid Hk).
  - intros [= <-]. split_and!; try done. intros _ _. exists ri. split; [done|].
    intros -> HW. simpl in Hleaf. apply negb_false_iff, bool_decide_eq_true in Hleaf. done.
Qed.

(** What the second pass has established for compound [c]. *)
Lemma examine_leaves_spec W i (cs : list compound) st st' :
  NoDup (dkeys st.1) ->
  for_each (examine_leaf W i) cs st = Ok st' ->
  NoDup (dkeys st'.1)
  ∧ (forall rid, rid ∈ dkeys st'.1 -> rid ∈ dkeys st.1)
  ∧ st.2 ⊆ st'.2
  ∧ (forall c, c ∈ cs -> startswith (_id c) "C" = true -> Generation c = i ->
     exists ri, Reactant_in c = Some ri
       ∧ (ri = [] -> _id c ∉ W ->
          _id c ∈ st'.2
          ∧ exists po, Product_of c = Some po ∧ forall rid, rid ∈ po -> rid ∉ dkeys st'.1)).
Proof.
  revert st. induction cs as [|c cs IH]; intros st Hnd; cbn [for_each].
  - intros [= <-]. split_and!; try done. by intros c ?%elem_of_nil.
  - destruct (examine_leaf W i st c) as [st1|] eqn:H1; cbn [rbind]; [|done].
    intros Hrest. destruct (examine_leaf_spec W i st c st1 Hnd H1) as (Hnd1 & Hsub1 & HD1 & Hc).
    destruct (IH st1 Hnd1 Hrest) as (Hnd' & Hsub' & HD' & Hall).
    split_and!; [done|intros rid Hin; by apply Hsub1, Hsub'|set_solver|].
    intros c' [->|Hin]%elem_of_cons Hs Hg; [|by apply Hall].
    destruct (Hc Hs Hg) as (ri & Hri & Hleaf). exists ri. split; [done|].
    intros Hnil HW. destruct (Hleaf Hnil HW) as (HinD & po & Hpo & Hgone).
    split; [set_solver|]. exists po. split; [done|].
    intros rid Hrid Hk. apply (Hgone rid Hrid). by apply Hsub'.
Qed.

Lemma examine_generations_spec W (gens : list Z) (cs : list compound) st st' :
  NoDup (dkeys st.1) ->
  for_each (fun st i => for_each (examine_leaf W i) cs st) gens st = Ok st' ->
  NoDup (dkeys st'.1)
  ∧ (forall rid, rid ∈ dkeys st'.1 -> rid ∈ dkeys st.1)
  ∧ st.2 ⊆ st'.2
  ∧ (forall i c, i ∈ gens -> c ∈ cs -> startswith (_id c) "C" = true -> Generation c = i ->
     exists ri, Reactant_in c = Some ri
       ∧ (ri = [] -> _id c ∉ W ->
          _id c ∈ st'.2
          ∧ exists po, Product_of c = Some po ∧ forall rid, rid ∈ po -> rid ∉ dkeys st'.1)).
Proof.
  revert st. induction gens as [|i gens IH]; intros st Hnd; cbn [for_each].
  - intros [= <-]. split_and!; try done. by intros i c ?%elem_of_nil.
  - destruct (for_each (examine_leaf W i) cs st) as [st1|] eqn:H1; cbn [rbind]; [|done].
    intros Hrest.
    destruct (examine_leaves_spec W i cs st st1 Hnd H1) as (Hnd1 & Hsub1 & HD1 & Hc).
    destruct (IH st1 Hnd1 Hrest) as (Hnd' & Hsub' & HD' & Hall).
    split_and!; [done|intros rid Hin; by apply Hsub1, Hsub'|set_solver|].
    intros i' c Hi Hcs Hs Hg. apply elem_of_cons in Hi as [->|Hi]; [|by apply (Hall i' c)].
    destruct (Hc c Hcs Hs Hg) as (ri & Hri & Hleaf). exists ri. split; [done|].
    intros Hnil HW. destruct (Hleaf Hnil HW) as (HinD & po & Hpo & Hgone).
    split; [set_solver|]. exists po. split; [done|].
    intros rid Hrid Hk. apply (Hgone rid Hrid). by apply Hsub'.
Qed.

Lemma delete_all_spec {V : Type} (l : list string) (d d' : dict V) :
  NoDup (dkeys d) ->
  for_each ddel_checked l d = Ok d' ->
  forall k v, dget d' k = Some v -> dget d k = Some v ∧ k ∉ l.
Proof.
  revert d. induction l as [|q l IH]; intros d Hnd; cbn [for_each].
  - intros [= <-] k v Hk. split; [done|]. by intros ?%elem_of_nil.
  - unfold ddel_checked at 1. destruct (dmem q d); cbn [rbind]; [|done].
    intros Hrest k v Hk.
    destruct (IH (ddel d q) (NoDup_dkeys_ddel _ _ Hnd) Hrest k v Hk) as [Hd Hl].
    destruct (decide (k = q)) as [->|Hne].
    + rewrite dget_ddel_eq in Hd; done.
    + rewrite dget_ddel_ne in Hd by done. split; [done|].
      intros [?|?]%elem_of_cons; done.
Qed.

Lemma elem_of_generations_down g i : i ∈ generations_down g <-> 0 <= i <= g.
Proof.
  unfold generations_down. rewrite elem_of_reverse, elem_of_seqZ. lia.
Qed.

(** X20.  On an object keyed by ids, [prune_network_to_targets] always
    ends.  When it returns, every compound left was stored before with the
    same record, and none of them is a childless non-target (a ['C'] id, a
    generation between 0 and the current one, an empty ['Reactant_in'] list,
    and not the id of a target).  Every childless non-target that the first
    pass had kept is deleted, and so is every reaction named in its
    ['Product_of'] list, whatever else that reaction produces. *)
Theorem prune_to_targets_removes_leaves (self : Pickaxe) :
  well_keyed self ->
  prune_network_to_targets self <> None
  ∧ forall self',
      prune_network_to_targets self = Some (Ok self') ->
      (forall k c, dget (compounds self') k = Some c -> dget (compounds self) k = Some c)
      ∧ (forall k c,
            dget (compounds self') k = Some c ->
            ~ childless_non_target (target_white_list self) (generation self) c)
      ∧ (forall pruned k c po rid,
            prune_network self (set_order (target_white_list self)) = Some (Ok pruned) ->
            dget (compounds pruned) k = Some c ->
            childless_non_target (target_white_list self) (generation self) c ->
            Product_of c = Some po -> rid ∈ po ->
            (k ∉ dkeys (compounds self')) ∧ rid ∉ dkeys (reactions self')).
Proof.
  intros Hk. unfold prune_network_to_targets.
  set (W := target_white_list self).
  destruct (engine_keeps_registry_keyed self Hk) as (_ & _ & Hprune).
  specialize (Hprune (set_order W)).
  assert (prune_network self (set_order W) <> None) as Hends.
  { unfold prune_network. pose proof (find_minimal_set_ends self (list_to_set (set_order W))) as [He _].
    destruct (find_minimal_set self (list_to_set (set_order W))) as [[[C R]|e]|]; done. }
  assert (forall pruned k c, prune_network self (set_order W) = Some (Ok pruned) ->
            dget (compounds pruned) k = Some c -> dget (compounds self) k = Some c) as Hsub.
  { intros pruned k c. unfold prune_network.
    destruct (find_minimal_set self (list_to_set (set_order W))) as [[[C R]|e]|]; [|done|done].
    intros [= <-]. simpl. intros Hc%dget_Some_elem.
    apply list_elem_of_filter in Hc as [_ Hc]. destruct Hk as [[Hnd _] _].
    by apply dget_elem_NoDup. }
  destruct (prune_network self (set_order W)) as [[pruned|e]|] eqn:Hp; [|done|done].
  split; [done|]. specialize (Hprune pruned eq_refl). destruct Hprune as [[Hndc Hidc] [Hndr _]].
  intros self'.
  destruct (for_each _ (generations_down (generation pruned)) (reactions pruned, ∅))
    as [[rs D]|] eqn:Hpass; cbn [rbind]; [|done].
  destruct (for_each ddel_checked (set_order D) (compounds pruned)) as [cs|] eqn:Hdel;
    cbn [rbind]; [|done].
  intros [= <-]. cbn [compounds reactions with_network with_registry].
  destruct (examine_generations_spec W _ _ (reactions pruned, ∅) (rs, D) Hndr Hpass)
    as (_ & _ & _ & Hall).
  cbn [fst snd] in Hall.
  pose proof (delete_all_spec _ _ _ Hndc Hdel) as Hdeleted.
  assert (generation pruned = generation self) as Hgen.
  { revert Hp. unfold prune_network.
    destruct (find_minimal_set self (list_to_set (set_order W))) as [[[C R]|e]|]; [|done|done].
    by intros [= <-]. }
  assert (forall k c, dget (compounds pruned) k = Some c ->
            childless_non_target W (generation self) c ->
            k ∈ D ∧ exists po, Product_of c = Some po
                               ∧ forall rid, rid ∈ po -> rid ∉ dkeys rs) as Hleaf.
  { intros k c Hc (Hs & Hg & Hri & HW).
    assert (_id c = k) as Hid by (by eapply (keyed_dget _id); [split|]).
    destruct (Hall (Generation c) c) as (ri & Hri' & Hl); [| |done|done|].
    { apply elem_of_generations_down. lia. }
    { unfold dvalues. apply list_elem_of_fmap. exists (k, c). split; [done|].
      by apply dget_Some_elem. }
    rewrite Hri in Hri'. injection Hri' as <-.
    destruct (Hl eq_refl HW) as [HD Hpo]. by rewrite <- Hid. }
  split_and!.
  - intros k c Hc. destruct (Hdeleted k c Hc) as [Hc' _]. by eapply Hsub.
  - intros k c Hc Hchild. destruct (Hdeleted k c Hc) as [Hc' Hnot].
    destruct (Hleaf k c Hc' Hchild) as [HD _]. apply Hnot.
    rewrite (set_order_perm D). set_solver.
  - intros pruned' k c po rid [= <-] Hc Hchild Hpo Hrid.
    destruct (Hleaf k c Hc Hchild) as (HD & po' & Hpo' & Hgone).
    rewrite Hpo in Hpo'. injection Hpo' as <-. split; [|by apply Hgone].
    intros [c' Hc']%dget_is_Some. destruct (Hdeleted k c' Hc') as [_ Hnot].
    apply Hnot. rewrite (set_order_perm D). set_solver.
Qed.
End TargetPruningFacts.

(** The theorem at the expanded lactic acid network with acrylic acid as the
    only target. *)
Lemma prune_to_targets_removes_leaves_witness :
  prune_network_to_targets Toy.lactate_targeted <> None
  ∧ forall self',
      prune_network_to_targets Toy.lactate_targeted = Some (Ok self') ->
      (forall k c, dget (compounds self') k = Some c ->
                   dget (compounds Toy.lactate_targeted) k = Some c)
      ∧ (forall k c,
            dget (compounds self') k = Some c ->
            ~ childless_non_target (target_white_list Toy.lactate_targeted)
                                   (generation Toy.lactate_targeted) c)
      ∧ (forall pruned k c po rid,
            prune_network Toy.lactate_targeted
                          (set_order (target_white_list Toy.lactate_targeted))
            = Some (Ok pruned) ->
            dget (compounds pruned) k = Some c ->
            childless_non_target (target_white_list Toy.lactate_targeted)
                                 (generation Toy.lactate_targeted) c ->
            Product_of c = Some po -> rid ∈ po ->
            (k ∉ dkeys (compounds self')) ∧ rid ∉ dkeys (reactions self')).
Proof.
  apply (prune_to_targets_removes_leaves Toy.lactate_targeted).
  split; split; by_compute.
Defined.

(** ** Partial operators *)

Section PartialRuleFacts.
Context `{TK : Toolkit}.
Variable compound_hash_default : string -> option string.
Variable coreactant_mols : dict (Mol * string).
Variable coreactant_dict : dict compound.
Variable operators : dict (ChemicalReaction * rule_dict).
Variable generation : Z.
Variable explicit_h : bool.

Abbreviation apply_rule :=
  (apply_partial_rule compound_hash_default coreactant_mols coreactant_dict operators
     generation explicit_h).

Lemma label_fold label (l acc : dict reaction) k :
  NoDup (dkeys l) ->
  dget (fold_left (fun rxns (kv : string * reaction) =>
                     match dget rxns kv.1 with
                     | Some r => dset rxns kv.1 (relabel label r)
                     | None => rxns
                     end) l acc) k
  = if bool_decide (k ∈ dkeys l) then relabel label <$> dget acc k else dget acc k.
Proof.
  revert acc. induction l as [|[k0 v0] l IH]; intros acc Hnd; simpl; [done|].
  apply NoDup_cons in Hnd as [Hk0 Hnd]. rewrite IH by done.
  destruct (decide (k = k0)) as [->|Hne].
  - rewrite (bool_decide_eq_false_2 _ Hk0).
    rewrite bool_decide_eq_true_2 by (simpl; left).
    destruct (dget acc k0) as [r|] eqn:Hr; simpl; [by rewrite dget_dset_eq|by rewrite Hr].
  - assert (dget match dget acc k0 with
                 | Some r => dset acc k0 (relabel label r)
                 | None => acc
                 end k = dget acc k) as ->.
    { destruct (dget acc k0); [by rewrite dget_dset_ne|done]. }
    destruct (bool_decide (k ∈ dkeys l)) eqn:Hin.
    + apply bool_decide_eq_true in Hin. rewrite bool_decide_eq_true_2; [done|]. simpl. by right.
    + apply bool_decide_eq_false in Hin. rewrite bool_decide_eq_false_2; [done|].
      simpl. intros [?|?]%elem_of_cons; done.
Qed.

Lemma dget_label_reactions label (rs : dict reaction) k :
  NoDup (dkeys rs) ->
  dget (label_reactions label rs) k = relabel label <$> dget rs k.
Proof.
  intros Hnd. unfold label_reactions.
  change (dget (fold_left (fun rxns (kv : string * reaction) =>
                             match dget rxns kv.1 with
                             | Some r => dset rxns kv.1 (relabel label r)
                             | None => rxns
                             end) rs rs) k = relabel label <$> dget rs k).
  rewrite (label_fold label rs rs k Hnd). case_bool_decide as Hin; [done|].
  apply dget_None in Hin. by rewrite Hin.
Qed.

Lemma label_reactions_keyed label (rs : dict reaction) :
  keyed rxn_id rs -> keyed rxn_id (label_reactions label rs).
Proof.
  intros Hrs. unfold label_reactions. generalize rs at 1. intros l.
  revert rs Hrs. induction l as [|[k0 v0] l IH]; intros rs Hrs; simpl; [done|].
  apply IH. destruct (dget rs k0) as [r|] eqn:Hr; [|done].
  apply keyed_dset; [done|]. simpl. by eapply keyed_dget.
Qed.

Lemma admit_reaction_keeps_keys rule_name reactants products cs (rs : dict reaction) k :
  k ∈ dkeys rs -> k ∈ dkeys (admit_reaction rule_name reactants products cs rs).2.
Proof.
  intros Hk. unfold admit_reaction. destruct (rxn2hash reactants products) as [rhash text].
  destruct (dget rs rhash); simpl; apply elem_of_dkeys_dset; by right.
Qed.

Lemma run_reaction_keeps_keys rule_name rule mols cs (rs : dict reaction) st' k :
  _run_reaction coreactant_mols coreactant_dict generation explicit_h
                rule_name rule mols cs rs = Ok st' ->
  k ∈ dkeys rs -> k ∈ dkeys st'.2.
Proof.
  unfold _run_reaction.
  destruct (RunReactants rule.1 mols) as [product_sets|]; [|by intros [= <-]].
  destruct (_make_half_rxn _ _ _ _ cs mols _) as [[[reactants atoms]|]|];
    try by intros [= <-].
  destruct (nonempty reactants); [|by intros [= <-]].
  intros Hloop Hk.
  refine (for_each_invariant _ (fun st => k ∈ dkeys st.2) product_sets (cs, rs) st' Hk _ Hloop).
  intros st pm st1 _ Hin. unfold run_candidate.
  destruct (_make_half_rxn _ _ _ _ st.1 pm _) as [[[products patoms]|]|[]];
    try (by intros [= <-]); try done.
  destruct (nonempty products); [|by intros [= <-]].
  destruct (is_atom_balanced atoms patoms); [|by intros [= <-]].
  intros [= <-]. by apply admit_reaction_keeps_keys.
Qed.

(** X21.  When a partial operator yields reactant molecules, the loop that
    follows [_run_reaction] writes its label on every reaction the worker
    holds: the reactions that were there before the call are all still
    there, and every reaction of the resulting state carries the label of
    this partial operator, whether this operator produced it or not. *)
Theorem partial_rule_labels_every_reaction
    (compound_smiles : string) (st st' : dict compound * dict reaction)
    (partial_rule : partial_rule) (mol : Mol) (mols : list Mol) :
  keyed _id st.1 -> keyed rxn_id st.2 ->
  generate_partial_mols compound_hash_default coreactant_mols operators explicit_h
                        compound_smiles partial_rule = Ok (Some (mol :: mols)) ->
  apply_rule compound_smiles st partial_rule = Ok st' ->
  (forall rid, rid ∈ dkeys st.2 -> rid ∈ dkeys st'.2)
  ∧ (forall rid r, dget st'.2 rid = Some r ->
                   labelled_with (pr_rule_reaction partial_rule) r).
Proof.
  intros Hcs Hrs Hmols. unfold apply_partial_rule. rewrite Hmols.
  destruct (py_index _ 0) as [rule_name|]; simpl; [|done].
  destruct (dget operators (pr_rule partial_rule)) as [rule|]; simpl; [|done].
  destruct (_run_reaction _ _ _ _ rule_name rule (mol :: mols) st.1 st.2)
    as [[cs1 rs1]|] eqn:Hrun; simpl; [|done].
  intros [= <-]. simpl.
  pose proof (run_reaction_keyed _ _ _ _ _ _ _ _ _ _ Hcs Hrs Hrun) as [_ [Hnd1 _]].
  simpl in Hnd1. split.
  - intros rid Hin. apply (run_reaction_keeps_keys _ _ _ _ _ _ rid Hrun) in Hin. simpl in Hin.
    apply dget_is_Some. rewrite dget_label_reactions by done.
    apply dget_is_Some in Hin as [r ->]. by eexists.
  - intros rid r. rewrite dget_label_reactions by done.
    destruct (dget rs1 rid) as [r1|]; simpl; [|done]. intros [= <-].
    unfold labelled_with, relabel. simpl. eexists. split; [done|].
    destruct (Partial_Operators r1); set_solver.
Qed.

(** What every per-compound result satisfies. *)
Lemma apply_rule_inv compound_smiles st pr st' :
  keyed _id st.1 ∧ keyed rxn_id st.2 ∧ all_labelled st.2 ->
  apply_rule compound_smiles st pr = Ok st' ->
  keyed _id st'.1 ∧ keyed rxn_id st'.2 ∧ all_labelled st'.2.
Proof.
  intros (Hcs & Hrs & Hlab). unfold apply_partial_rule.
  destruct (py_index _ 0) as [rule_name|]; simpl; [|done].
  destruct (dget operators (pr_rule pr)) as [rule|]; simpl; [|done].
  destruct (generate_partial_mols _ _ _ _ _ _) as [[[|mol mols]|]|]; simpl;
    try (intros [= <-]; done); try done.
  destruct (_run_reaction _ _ _ _ rule_name rule (mol :: mols) st.1 st.2)
    as [[cs1 rs1]|] eqn:Hrun; simpl; [|done].
  intros [= <-]. simpl.
  pose proof (run_reaction_keyed _ _ _ _ _ _ _ _ _ _ Hcs Hrs Hrun) as [Hcs1 Hrs1].
  simpl in *. split_and!; [done|by apply label_reactions_keyed|].
  intros rid r. rewrite dget_label_reactions by apply Hrs1.
  destruct (dget rs1 rid) as [r1|]; simpl; [|done]. intros [= <-]. by eexists.
Qed.

End PartialRuleFacts.

Section PartialOperatorFacts.
Context `{TK : Toolkit}.
Variable QuickSmartsMatch : string -> string -> bool.
Variable compound_hash_default : string -> option string.
Variable coreactant_mols : dict (Mol * string).
Variable coreactant_dict : dict compound.
Variable operators : dict (ChemicalReaction * rule_dict).
Variable generation : Z.
Variable explicit_h : bool.

Abbreviation transform_partial :=
  (_transform_ind_compound_with_partial QuickSmartsMatch compound_hash_default
     coreactant_mols coreactant_dict operators generation explicit_h).
Abbreviation all_partial :=
  (_transform_all_compounds_with_partial QuickSmartsMatch compound_hash_default
     coreactant_mols coreactant_dict operators generation explicit_h).

Lemma transform_partial_inv partial_rules smiles res :
  transform_partial partial_rules smiles = Ok res ->
  keyed _id res.1 ∧ keyed rxn_id res.2 ∧ all_labelled res.2.
Proof.
  unfold _transform_ind_compound_with_partial.
  destruct (gen_mol explicit_h smiles) as [m|]; simpl; [|done]. intros Hloop.
  refine (for_each_invariant _
            (fun st => keyed _id st.1 ∧ keyed rxn_id st.2 ∧ all_labelled st.2)
            partial_rules ([], []) res _ _ Hloop).
  { split_and!; [apply keyed_nil|apply keyed_nil|done]. }
  intros st entry st1 _ Hst. destruct (QuickSmartsMatch smiles entry.1); [|by intros [= <-]].
  intros Hrules.
  refine (for_each_invariant _
            (fun st => keyed _id st.1 ∧ keyed rxn_id st.2 ∧ all_labelled st.2)
            entry.2 st st1 Hst _ Hrules).
  intros s pr s' _. apply apply_rule_inv.
Qed.

(** The merge of the single-worker loop, reaction by reaction. *)
Lemma collect_partial_rxns (l m : dict reaction) :
  NoDup (dkeys l) -> all_labelled m -> all_labelled l ->
  exists m',
    for_each (fun m (kv : string * reaction) =>
                match dget m kv.1 with
                | Some r =>
                    po ←! getitem (Partial_Operators r);
                    po' ←! getitem (Partial_Operators kv.2);
                    Ok (dset m kv.1 (set_Partial_Operators r (Some (po ∪ po'))))
                | None => Ok (dupdate m [(kv.1, kv.2)])
                end) l m = Ok m'
    ∧ all_labelled m'
    ∧ forall k,
        dget m' k
        = match dget m k, dget l k with
          | Some r, Some r' =>
              Some (set_Partial_Operators r
                      (Some (default ∅ (Partial_Operators r)
                             ∪ default ∅ (Partial_Operators r'))))
          | Some r, None => Some r
          | None, other => other
          end.
Proof.
  revert m. induction l as [|[k0 r0] l IH]; intros m Hnd Hm Hl; cbn [for_each].
  - exists m. split_and!; [done|done|]. intros k. simpl. by destruct (dget m k).
  - apply NoDup_cons in Hnd as [Hk0 Hnd].
    assert (dget l k0 = None) as Hnone by (by apply dget_None).
    assert (is_Some (Partial_Operators r0)) as [p0 Hp0].
    { apply (Hl k0 r0). simpl. by case_decide. }
    assert (all_labelled l) as Hl'.
    { intros k r Hk. apply (Hl k r). simpl. case_decide as Heq; [|done].
      subst. apply dget_Some_elem, (list_elem_of_fmap_2 fst) in Hk. done. }
    cbn [fst snd]. destruct (dget m k0) as [r|] eqn:Hr.
    + destruct (Hm k0 r Hr) as [p Hp]. rewrite Hp, Hp0. cbn [getitem rbind].
      destruct (IH (dset m k0 (set_Partial_Operators r (Some (p ∪ p0)))) Hnd)
        as (m' & -> & Hm' & Hget); [|done|].
      { intros k r'. rewrite dget_dset. case_decide; [intros [= <-]; by eexists|apply Hm]. }
      exists m'. split_and!; [done|done|]. intros k. rewrite Hget, dget_dset. simpl.
      destruct (decide (k = k0)) as [->|Hne].
      * rewrite Hr, Hnone. simpl. by rewrite Hp, Hp0.
      * done.
    + cbn [rbind]. change (dupdate m [(k0, r0)]) with (dset m k0 r0).
      destruct (IH (dset m k0 r0) Hnd) as (m' & -> & Hm' & Hget); [|done|].
      { intros k r'. rewrite dget_dset. case_decide; [intros [= <-]; by eexists|apply Hm]. }
      exists m'. split_and!; [done|done|]. intros k. rewrite Hget, dget_dset. simpl.
      destruct (decide (k = k0)) as [->|Hne].
      * by rewrite Hr, Hnone.
      * done.
Qed.

Lemma collect_partial_result_spec (master res : dict compound * dict reaction) :
  NoDup (dkeys res.2) -> all_labelled master.2 -> all_labelled res.2 ->
  exists m',
    collect_partial_result master res = Ok m'
    ∧ all_labelled m'.2
    ∧ forall k,
        dget m'.2 k
        = match dget master.2 k, dget res.2 k with
          | Some r, Some r' =>
              Some (set_Partial_Operators r
                      (Some (default ∅ (Partial_Operators r)
                             ∪ default ∅ (Partial_Operators r'))))
          | Some r, None => Some r
          | None, other => other
          end.
Proof.
  intros Hnd Hm Hl. unfold collect_partial_result.
  destruct (collect_partial_rxns res.2 master.2 Hnd Hm Hl) as (m' & -> & Hm' & Hget).
  cbn [rbind]. eexists. split; [done|]. by split.
Qed.

Lemma dget_collect_result master res k :
  dget (collect_result master res).2 k
  = match dget master.2 k with
    | Some r => Some r
    | None => dget res.2 k
    end.
Proof.
  unfold collect_result. simpl. generalize (master.2) as m.
  induction (res.2) as [|[k' r'] l IH]; intros m; simpl.
  - by destruct (dget m k).
  - rewrite IH. destruct (dget m k') as [r0|] eqn:Hk'.
    + destruct (dget m k) as [r|] eqn:Hk; [done|]. case_decide; [congruence|done].
    + unfold dupdate. simpl. rewrite dget_dset. case_decide as Heq.
      * subst. by rewrite Hk'.
      * done.
Qed.

(** X22.  Let two compounds each yield, with partial operators, a result
    that contains the reaction [rid].  Both records carry a set of partial
    operator labels.  With one worker [_transform_all_compounds_with_partial]
    returns [rid] with the union of the two sets; with several workers it
    returns the record of whichever result arrives first, unchanged, so the
    labels of the other result are lost and the outcome depends on the
    completion order. *)
Theorem partial_merge_depends_on_workers
    (partial_rules : dict (list partial_rule)) (x1 x2 : string)
    (res1 res2 : dict compound * dict reaction) (rid : string) (r1 r2 : reaction) :
  transform_partial partial_rules x1 = Ok res1 ->
  transform_partial partial_rules x2 = Ok res2 ->
  dget res1.2 rid = Some r1 ->
  dget res2.2 rid = Some r2 ->
  exists p1 p2,
    Partial_Operators r1 = Some p1 ∧ Partial_Operators r2 = Some p2
    ∧ (forall arrival, exists m,
          all_partial [x1; x2] 1 partial_rules arrival = Ok m
          ∧ dget m.2 rid = Some (set_Partial_Operators r1 (Some (p1 ∪ p2))))
    ∧ (forall num_workers, 1 < num_workers -> exists m,
          all_partial [x1; x2] num_workers partial_rules [x1; x2] = Ok m
          ∧ dget m.2 rid = Some r1)
    ∧ (forall num_workers, 1 < num_workers -> exists m,
          all_partial [x1; x2] num_workers partial_rules [x2; x1] = Ok m
          ∧ dget m.2 rid = Some r2).
Proof.
  intros H1 H2 Hr1 Hr2.
  destruct (transform_partial_inv _ _ _ H1) as (_ & [Hnd1 _] & Hlab1).
  destruct (transform_partial_inv _ _ _ H2) as (_ & [Hnd2 _] & Hlab2).
  destruct (Hlab1 rid r1 Hr1) as [p1 Hp1]. destruct (Hlab2 rid r2 Hr2) as [p2 Hp2].
  exists p1, p2. split_and!; [done|done| | |].
  - intros arrival. unfold _transform_all_compounds_with_partial.
    replace (1 <? 1) with false by done. cbn [for_each]. rewrite H1, H2. cbn [rbind].
    destruct (collect_partial_result_spec ([], []) res1 Hnd1) as (m1 & -> & Hm1 & Hget1);
      [done|done|].
    cbn [rbind].
    destruct (collect_partial_result_spec m1 res2 Hnd2 Hm1 Hlab2) as (m2 & -> & Hm2 & Hget2).
    cbn [rbind]. eexists. split; [done|].
    rewrite Hget2, Hget1, Hr2. simpl. rewrite Hr1. by rewrite Hp1, Hp2.
  - intros nw Hnw. unfold _transform_all_compounds_with_partial.
    rewrite (proj2 (Z.ltb_lt _ _) Hnw). cbn [for_each]. unfold collect_body.
    rewrite H1, H2. cbn [rbind]. eexists. split; [done|].
    rewrite !dget_collect_result. simpl. by rewrite Hr1.
  - intros nw Hnw. unfold _transform_all_compounds_with_partial.
    rewrite (proj2 (Z.ltb_lt _ _) Hnw). cbn [for_each]. unfold collect_body.
    rewrite H1, H2. cbn [rbind]. eexists. split; [done|].
    rewrite !dget_collect_result. simpl. by rewrite Hr2.
Qed.
End PartialOperatorFacts.

(** The theorem at the worker state that holds the hemiacetal reaction,
    labelled by the first partial operator, and the second partial
    operator. *)
Lemma partial_rule_labels_every_reaction_witness :
  (forall rid, rid ∈ dkeys (Toy.partial_result "CCO").2 -> rid ∈ dkeys Toy.relabelled.2)
  ∧ (forall rid r, dget Toy.relabelled.2 rid = Some r ->
                   labelled_with (pr_rule_reaction Toy.second_partial_rule) r).
Proof.
  apply (partial_rule_labels_every_reaction Toy.default_hash [] [] Toy.hemiacetal_rules
           1 true "CC=O" (Toy.partial_result "CCO") Toy.relabelled
           Toy.second_partial_rule (Toy.mol "CCO") [Toy.mol "CC=O"]).
  - split; by_compute.
  - split; by_compute.
  - vm_compute. reflexivity.
  - vm_compute. reflexivity.
Defined.

(** The theorem at ethanol and acetaldehyde, which reach the hemiacetal
    reaction through different partial operators. *)
Lemma partial_merge_depends_on_workers_witness :
  exists p1 p2,
    Partial_Operators (Toy.reaction_of (Toy.partial_result "CCO") Toy.hemiacetal_rxn)
      = Some p1
    ∧ Partial_Operators (Toy.reaction_of (Toy.partial_result "CC=O") Toy.hemiacetal_rxn)
      = Some p2
    ∧ (forall arrival, exists m,
          _transform_all_compounds_with_partial Toy.smarts_match Toy.default_hash
            [] [] Toy.hemiacetal_rules 1 true ["CCO"; "CC=O"] 1 Toy.hemiacetal_partials
            arrival = Ok m
          ∧ dget m.2 Toy.hemiacetal_rxn
            = Some (set_Partial_Operators
                      (Toy.reaction_of (Toy.partial_result "CCO") Toy.hemiacetal_rxn)
                      (Some (p1 ∪ p2))))
    ∧ (forall num_workers, 1 < num_workers -> exists m,
          _transform_all_compounds_with_partial Toy.smarts_match Toy.default_hash
            [] [] Toy.hemiacetal_rules 1 true ["CCO"; "CC=O"] num_workers
            Toy.hemiacetal_partials ["CCO"; "CC=O"] = Ok m
          ∧ dget m.2 Toy.hemiacetal_rxn
            = Some (Toy.reaction_of (Toy.partial_result "CCO") Toy.hemiacetal_rxn))
    ∧ (forall num_workers, 1 < num_workers -> exists m,
          _transform_all_compounds_with_partial Toy.smarts_match Toy.default_hash
            [] [] Toy.hemiacetal_rules 1 true ["CCO"; "CC=O"] num_workers
            Toy.hemiacetal_partials ["CC=O"; "CCO"] = Ok m
          ∧ dget m.2 Toy.hemiacetal_rxn
            = Some (Toy.reaction_of (Toy.partial_result "CC=O") Toy.hemiacetal_rxn)).
Proof.
  apply (partial_merge_depends_on_workers Toy.smarts_match Toy.default_hash
           [] [] Toy.hemiacetal_rules 1 true Toy.hemiacetal_partials "CCO" "CC=O"
           (Toy.partial_result "CCO") (Toy.partial_result "CC=O") Toy.hemiacetal_rxn).
  - vm_compute. reflexivity.
  - vm_compute. reflexivity.
  - vm_compute. reflexivity.
  - vm_compute. reflexivity.
Defined.
